(** * OpenCDA SUMO co-simulation bridge: a shallow embedding

    The development follows
    [opencda/co_simulation/sumo_integration/sumo_simulation.py]
    (classes [SumoSignalState], [SumoTLLogic], [SumoTLManager],
    [SumoSimulation]) and the removal diff of
    [opencda/assets/custom_single_town10_cosim/sample_traci.py].

    Python values are modelled as follows: [str] as [string], one
    [ascii] per code point, so the strings here are the Python strings
    whose code points are all below 256 (a character is a string of
    length one, as in Python), [int] as [Z],
    [list] as [list], insertion-ordered [dict] as an association list
    with in-place update, [set] as stdpp's [gset].  A raised exception is
    an explicit [Raise] result; code that mutates an object before it
    raises returns the mutated state next to the exception. *)

From Stdlib Require Import ZArith String Ascii List Sorted Permutation Lia.
From stdpp Require Import base decidable option list gmap strings pretty.

Local Open Scope string_scope.
Local Open Scope Z_scope.

(** ** Python exceptions and results *)

Inductive exn : Type :=
| KeyError
| IndexError
| ValueError
| AttributeError
| TraCIException (msg : string)
| Exception (msg : string).

Inductive result (A : Type) : Type :=
| Ok (a : A)
| Raise (e : exn).
Arguments Ok {A} a.
Arguments Raise {A} e.

Definition rbind {A B} (r : result A) (k : A -> result B) : result B :=
  match r with
  | Ok a => k a
  | Raise e => Raise e
  end.

Definition of_option {A} (e : exn) (o : option A) : result A :=
  match o with
  | Some a => Ok a
  | None => Raise e
  end.

Global Instance result_ret : MRet result := fun _ a => Ok a.
Global Instance result_bind : MBind result := fun _ _ k r => rbind r k.

(** [for x in xs: body] over a state [S], stopping at the first exception. *)
Fixpoint for_each {A S} (body : A -> S -> result S) (xs : list A) (s : S)
  : result S :=
  match xs with
  | [] => Ok s
  | x :: xs' => s' ← body x s; for_each body xs' s'
  end.

(** ** Python sequences and strings *)

(** [seq[i]] position for a sequence of length [len]: negative indices
    count from the end, anything else out of range has no position. *)
Definition py_position (len : nat) (i : Z) : option nat :=
  if (0 <=? i) && (i <? Z.of_nat len) then Some (Z.to_nat i)
  else if (- Z.of_nat len <=? i) && (i <? 0) then Some (Z.to_nat (Z.of_nat len + i))
  else None.

(** [l[i]] on a list; [IndexError] out of range. *)
Definition list_getitem {A} (l : list A) (i : Z) : result A :=
  match py_position (length l) i with
  | Some n => of_option IndexError (l !! n)
  | None => Raise IndexError
  end.

(** [s[i]] on a string: a string of length one; [IndexError] out of range. *)
Definition str_getitem (s : string) (i : Z) : result string :=
  match py_position (String.length s) i with
  | Some n =>
      match String.get n s with
      | Some c => Ok (String c "")
      | None => Raise IndexError
      end
  | None => Raise IndexError
  end.

(** [s.split(sep)] for a one-character separator. *)
Fixpoint str_split (sep : ascii) (s : string) : list string :=
  match s with
  | "" => [""]
  | String c s' =>
      if Ascii.eqb c sep then "" :: str_split sep s'
      else match str_split sep s' with
           | w :: ws => String c w :: ws
           | [] => [String c ""]
           end
  end.

(** The blanks [int] strips at both ends of its argument: TAB..CR and
    space, and of the code points from 128 to 255 the two that Python
    takes for blanks, NEL (133) and NBSP (160).  The separators 28..31
    are not stripped, and no code point from 128 to 255 is a decimal
    digit. *)
Definition is_space (c : ascii) : bool :=
  let n := nat_of_ascii c in
  ((9 <=? n)%nat && (n <=? 13)%nat) || (n =? 32)%nat
  || (n =? 133)%nat || (n =? 160)%nat.

Definition digit_value (c : ascii) : option Z :=
  let n := nat_of_ascii c in
  if (48 <=? n)%nat && (n <=? 57)%nat then Some (Z.of_nat (n - 48)) else None.

Fixpoint str_lstrip (s : string) : string :=
  match s with
  | String c s' => if is_space c then str_lstrip s' else s
  | "" => ""
  end.

Fixpoint str_rstrip (s : string) : string :=
  match s with
  | String c s' =>
      match str_rstrip s' with
      | "" => if is_space c then "" else String c ""
      | r => String c r
      end
  | "" => ""
  end.

(** Digits of a decimal literal; a single underscore may separate two
    digits.  [after_digit] says that the previous character was a digit. *)
Fixpoint parse_digits (acc : Z) (after_digit : bool) (s : string) : option Z :=
  match s with
  | "" => if after_digit then Some acc else None
  | String c s' =>
      match digit_value c with
      | Some d => parse_digits (10 * acc + d) true s'
      | None =>
          if Ascii.eqb c "_" && after_digit then
            match s' with
            | "" => None
            | _ => parse_digits acc false s'
            end
          else None
      end
  end.

(** [int(s)] in base ten: blanks stripped at both ends, then an optional
    sign, then decimal digits; [ValueError] on anything else.  The bound
    an interpreter may put on the number of digits (4300 by default where
    there is one) is not part of the definition: a statement that depends
    on it carries a bound on the length of the string. *)
Definition py_int (s : string) : result Z :=
  let body := str_rstrip (str_lstrip s) in
  let '(neg, digits) :=
    match body with
    | String "-" d => (true, d)
    | String "+" d => (false, d)
    | d => (false, d)
    end in
  match parse_digits 0 false digits with
  | Some n => Ok (if neg then - n else n)
  | None => Raise ValueError
  end.

(** ** Insertion-ordered dictionaries *)

(** A dictionary is the list of its items in insertion order. *)
Abbreviation pydict K V := (list (K * V)) (only parsing).

Section PyDict.
Context {K V : Type} `{EqDecision K}.

(** [d.get(k)] *)
Fixpoint dict_get (d : pydict K V) (k : K) : option V :=
  match d with
  | [] => None
  | (k', v) :: d' => if decide (k = k') then Some v else dict_get d' k
  end.

(** [d[k]] *)
Definition dict_getitem (d : pydict K V) (k : K) : result V :=
  of_option KeyError (dict_get d k).

(** [d[k] = v]: an existing key keeps its place, a new one goes last. *)
Fixpoint dict_set (d : pydict K V) (k : K) (v : V) : pydict K V :=
  match d with
  | [] => [(k, v)]
  | (k', v') :: d' =>
      if decide (k = k') then (k, v) :: d' else (k', v') :: dict_set d' k v
  end.

Definition dict_keys (d : pydict K V) : list K := map fst d.
Definition dict_items (d : pydict K V) : list (K * V) := d.
End PyDict.

(** ** Sumo definitions *)

Module SumoSignalState.
Definition RED := "r".
Definition YELLOW := "y".
Definition GREEN := "G".
Definition GREEN_WITHOUT_PRIORITY := "g".
Definition GREEN_RIGHT_TURN := "s".
Definition RED_YELLOW := "u".
Definition OFF_BLINKING := "o".
Definition OFF := "O".
End SumoSignalState.

(** [carla.TrafficLightState] *)
Inductive TrafficLightState : Type := Red | Yellow | Green | Off | Unknown.

Global Instance TrafficLightState_eq_dec : EqDecision TrafficLightState.
Proof. solve_decision. Defined.

(** [SumoTLManager.get_carla_traffic_light_state] *)
Definition get_carla_traffic_light_state (sumo_tl_state : string)
  : TrafficLightState :=
  if String.eqb sumo_tl_state SumoSignalState.RED
     || String.eqb sumo_tl_state SumoSignalState.RED_YELLOW then Red
  else if String.eqb sumo_tl_state SumoSignalState.YELLOW then Yellow
  else if String.eqb sumo_tl_state SumoSignalState.GREEN
          || String.eqb sumo_tl_state SumoSignalState.GREEN_WITHOUT_PRIORITY
       then Green
  else if String.eqb sumo_tl_state SumoSignalState.OFF then Off
  else Unknown.


(** ** Logging *)

Inductive log_level : Type := WARNING | ERROR.

(** [logging.<level>(fmt, *args)] *)
Record log_record : Type := LogRecord {
  log_lvl : log_level;
  log_fmt : string;
  log_args : list string
}.

(** ** Sumo traffic lights *)

(** A signal of a traffic light: [(tlid, link_index)]. *)
Abbreviation link := (string * Z)%type (only parsing).

(** [sorted(l, key=key)]: a stable sort on an integer key. *)
Fixpoint insert_by_key {A} (key : A -> Z) (x : A) (l : list A) : list A :=
  match l with
  | [] => [x]
  | y :: l' => if key x <=? key y then x :: y :: l' else y :: insert_by_key key x l'
  end.

Definition py_sorted {A} (key : A -> Z) (l : list A) : list A :=
  foldr (insert_by_key key) [] l.

(** [SumoTLLogic]; the [net] attribute is carried along and never read by
    the methods below, it is left out. *)
Record SumoTLLogic : Type := mkSumoTLLogic {
  tlid : string;
  states : list string;
  _landmark2link : pydict string (list link);
  _link2landmark : pydict link string
}.

(** One round of the loop of [SumoTLLogic.__init__] over
    [parameters.items()]. *)
Definition SumoTLLogic_add_parameter (tlid : string) (item : string * string)
    (self : pydict string (list link) * pydict link string)
  : result (pydict string (list link) * pydict link string) :=
  let '(key, landmark_id) := item in
  let '(landmark2link, link2landmark) := self in
  field ← list_getitem (str_split ":" key) 1;
  link_index ← py_int field;
  let landmark2link :=
    match dict_get landmark2link landmark_id with
    | None => dict_set landmark2link landmark_id []
    | Some _ => landmark2link
    end in
  let links := default [] (dict_get landmark2link landmark_id) in
  Ok (dict_set landmark2link landmark_id (links ++ [(tlid, link_index)])%list,
      dict_set link2landmark (tlid, link_index) landmark_id).

(** [SumoTLLogic.__init__(tlid, states, parameters, net)] *)
Definition SumoTLLogic_init (tlid : string) (states : list string)
    (parameters : pydict string string) : result SumoTLLogic :=
  '(landmark2link, link2landmark) ←
    for_each (SumoTLLogic_add_parameter tlid) (dict_items parameters) ([], []);
  Ok (mkSumoTLLogic tlid states landmark2link link2landmark).

(** [SumoTLLogic.get_number_signals] *)
Definition get_number_signals (self : SumoTLLogic) : nat :=
  match states self with
  | s :: _ => String.length s
  | [] => 0%nat
  end.

(** [SumoTLLogic.get_all_signals] *)
Definition get_all_signals (self : SumoTLLogic) : list link :=
  map (fun i => (tlid self, Z.of_nat i)) (seq 0 (get_number_signals self)).

(** [SumoTLLogic.get_all_landmarks] *)
Definition get_all_landmarks (self : SumoTLLogic) : list string :=
  dict_keys (_landmark2link self).

(** [SumoTLLogic.get_associated_signals] *)
Definition get_associated_signals (self : SumoTLLogic) (landmark_id : string)
  : list link :=
  default [] (dict_get (_landmark2link self) landmark_id).

(** What the lane engine reports for one traffic light when the manager is
    built: the result of [getAllProgramLogics] (program id, phase states
    and parameters of each logic), [getProgram] and [getPhase]. *)
Record TLProgramLogic : Type := mkTLProgramLogic {
  programID : string;
  phase_states : list string;
  parameters : pydict string string
}.

Record TLReport : Type := mkTLReport {
  report_tlid : string;
  report_logics : list TLProgramLogic;
  report_program : string;
  report_phase : Z
}.

(** [SumoTLManager] *)
Record SumoTLManager : Type := mkSumoTLManager {
  _tls : pydict string (pydict string SumoTLLogic);
  _current_program : pydict string string;
  _current_phase : pydict string Z;
  _off : bool
}.

(** The body of the loop of [SumoTLManager.__init__] for one traffic light. *)
Definition SumoTLManager_add_tl (r : TLReport) (self : SumoTLManager)
  : result SumoTLManager :=
  let tlid := report_tlid r in
  programs ←
    for_each (fun tllogic programs =>
                tl ← SumoTLLogic_init tlid (phase_states tllogic) (parameters tllogic);
                Ok (dict_set programs (programID tllogic) tl))
             (report_logics r) [];
  Ok (mkSumoTLManager
        (dict_set (_tls self) tlid programs)
        (dict_set (_current_program self) tlid (report_program r))
        (dict_set (_current_phase self) tlid (report_phase r))
        (_off self)).

(** [SumoTLManager.__init__]: [reports] lists the traffic lights in the
    order of [traci.trafficlight.getIDList()]. *)
Definition SumoTLManager_init (reports : list TLReport) : result SumoTLManager :=
  for_each SumoTLManager_add_tl reports (mkSumoTLManager [] [] [] false).

(** [self._tls[tlid][program_id]] *)
Definition tl_logic (self : SumoTLManager) (tlid program_id : string)
  : result SumoTLLogic :=
  programs ← dict_getitem (_tls self) tlid;
  dict_getitem programs program_id.

(** [SumoTLManager.get_all_signals] *)
Definition SumoTLManager_get_all_signals (self : SumoTLManager)
  : result (gset link) :=
  for_each (fun '(tlid, program_id) (signals : gset link) =>
              tl ← tl_logic self tlid program_id;
              Ok (signals ∪ list_to_set (get_all_signals tl)))
           (dict_items (_current_program self)) ∅.

(** [SumoTLManager.get_all_landmarks] *)
Definition SumoTLManager_get_all_landmarks (self : SumoTLManager)
  : result (gset string) :=
  for_each (fun '(tlid, program_id) (landmarks : gset string) =>
              tl ← tl_logic self tlid program_id;
              Ok (landmarks ∪ list_to_set (get_all_landmarks tl)))
           (dict_items (_current_program self)) ∅.

(** [SumoTLManager.get_all_associated_signals] *)
Definition SumoTLManager_get_all_associated_signals (self : SumoTLManager)
    (landmark_id : string) : result (gset link) :=
  for_each (fun '(tlid, program_id) (signals : gset link) =>
              tl ← tl_logic self tlid program_id;
              Ok (signals ∪ list_to_set (get_associated_signals tl landmark_id)))
           (dict_items (_current_program self)) ∅.

(** The state character of one signal under the current program and phase
    of its traffic light: [tl.states[current_phase][link_index]]. *)
Definition current_link_state (self : SumoTLManager) (l : link) : result string :=
  let '(tlid, link_index) := l in
  current_program ← dict_getitem (_current_program self) tlid;
  current_phase ← dict_getitem (_current_phase self) tlid;
  tl ← tl_logic self tlid current_program;
  phase ← list_getitem (states tl) current_phase;
  str_getitem phase link_index.

(** The loop of [get_state]: [states.update(c)] with a string of length
    one adds that character to the set. *)
Definition collect_states (self : SumoTLManager) (signals : list link)
  : result (gset string) :=
  for_each (fun l (states : gset string) =>
              c ← current_link_state self l;
              Ok (states ∪ {[c]}))
           signals ∅.

Definition different_states_warning (landmark_id : string) : log_record :=
  LogRecord WARNING "Landmark %s is associated with signals with different states"
            [landmark_id].

(** [SumoTLManager.get_state]: the returned value ([None] is Python's
    [None]) and the records logged on the way. *)
Definition SumoTLManager_get_state (self : SumoTLManager) (landmark_id : string)
  : result (option string * list log_record) :=
  signals ← SumoTLManager_get_all_associated_signals self landmark_id;
  states ← collect_states self (elements signals);
  if (size states =? 1)%nat then
    Ok (head (elements states), [])
  else if (1 <? size states)%nat then
    Ok (Some SumoSignalState.RED, [different_states_warning landmark_id])
  else
    Ok (None, []).

(** *** The lane engine's side of the traffic lights

    The engine is a separate process.  Of its traffic lights the model
    keeps the state character last written to each signal by
    [traci.trafficlight.setLinkState]; every write is taken to succeed. *)
Abbreviation LinkStates := (gmap (string * Z) string) (only parsing).

Definition traci_setLinkState (l : link) (state : string) (engine : LinkStates)
  : LinkStates :=
  <[l := state]> engine.

(** [SumoTLManager.set_state] *)
Definition SumoTLManager_set_state (self : SumoTLManager) (landmark_id state : string)
    (engine : LinkStates) : result (bool * LinkStates) :=
  signals ← SumoTLManager_get_all_associated_signals self landmark_id;
  Ok (true, foldl (fun e l => traci_setLinkState l state e) engine (elements signals)).

(** The manager after [self._off = True]. *)
Definition switched_off (self : SumoTLManager) : SumoTLManager :=
  mkSumoTLManager (_tls self) (_current_program self) (_current_phase self) true.

(** [SumoTLManager.switch_off] *)
Definition SumoTLManager_switch_off (self : SumoTLManager) (engine : LinkStates)
  : result (SumoTLManager * LinkStates) :=
  signals ← SumoTLManager_get_all_signals self;
  let engine' :=
    foldl (fun e l => traci_setLinkState l SumoSignalState.OFF e)
          engine (elements signals) in
  Ok (switched_off self, engine').

(** The subscription results of one step: for each traffic light of
    [traci.trafficlight.getIDList()], in that order, its
    [TL_CURRENT_PROGRAM] and [TL_CURRENT_PHASE]. *)
Abbreviation TLSubscriptions := (list (string * (string * Z))) (only parsing).

(** [SumoTLManager.tick] *)
Definition SumoTLManager_tick (self : SumoTLManager) (results : TLSubscriptions)
  : SumoTLManager :=
  if negb (_off self) then
    foldl (fun (m : SumoTLManager) '(tl_id, (current_program, current_phase)) =>
             if negb (String.eqb current_program "online") then
               mkSumoTLManager (_tls m)
                 (dict_set (_current_program m) tl_id current_program)
                 (dict_set (_current_phase m) tl_id current_phase)
                 (_off m)
             else m)
          self results
  else self.

(** The calls that write the manager or the engine's signal states.
    ([get_state] and [set_states_from_sumo] write neither.)  A call that
    raises does so before its first write and leaves both as they were. *)
Inductive manager_call : Type :=
| CallTick (results : TLSubscriptions)
| CallSwitchOff
| CallSetState (landmark_id state : string).

Definition run_call (c : manager_call) (s : SumoTLManager * LinkStates)
  : SumoTLManager * LinkStates :=
  match c with
  | CallTick results => (SumoTLManager_tick (fst s) results, snd s)
  | CallSwitchOff =>
      match SumoTLManager_switch_off (fst s) (snd s) with
      | Ok s' => s'
      | Raise _ => s
      end
  | CallSetState landmark_id state =>
      match SumoTLManager_set_state (fst s) landmark_id state (snd s) with
      | Ok (_, engine') => (fst s, engine')
      | Raise _ => s
      end
  end.

Definition run_calls (calls : list manager_call) (s : SumoTLManager * LinkStates)
  : SumoTLManager * LinkStates :=
  foldl (fun s c => run_call c s) s calls.

(** *** Translation into the world engine *)

(** The traffic lights of the world, by OpenDRIVE id, with their state. *)
Abbreviation World := (gmap string TrafficLightState) (only parsing).

(** [world.get_traffic_light_from_opendrive_id(id)]: the actor, named here
    by its id, or [None]. *)
Definition get_traffic_light_from_opendrive_id (world : World) (id : string)
  : option string :=
  if world !! id is Some _ then Some id else None.

(** [actor.set_state(state)]; on [None] the attribute access fails. *)
Definition carla_set_state (actor : option string) (state : TrafficLightState)
    (world : World) : result World :=
  match actor with
  | Some id => Ok (<[id := state]> world)
  | None => Raise AttributeError
  end.

(** A loop whose body may change the state before it raises. *)
Fixpoint for_each_st {A S} (body : A -> S -> S * option exn) (xs : list A) (s : S)
  : S * option exn :=
  match xs with
  | [] => (s, None)
  | x :: xs' =>
      match body x s with
      | (s', None) => for_each_st body xs' s'
      | (s', Some e) => (s', Some e)
      end
  end.

(** A body that raises before it changes anything. *)
Definition or_unchanged {S} (r : result S) (s : S) : S * option exn :=
  match r with
  | Ok s' => (s', None)
  | Raise e => (s, Some e)
  end.

Definition unsupported_directions : exn :=
  Exception "There are either less than two or greater than three directions of travel from this light.".

(** The innermost loop of [set_states_from_sumo] over
    [resorted_idx_list]: the actor found for the last link and the state
    characters in the order of the list. *)
Definition gather_link_states (program : SumoTLLogic) (traci_junction_state : string)
    (world : World) (resorted_idx_list : list link)
  : result (option string * list string) :=
  for_each (fun junction_plus_idx '(_, link2sumostate) =>
              landmark ← dict_getitem (_link2landmark program) junction_plus_idx;
              let carla_tl_to_change :=
                get_traffic_light_from_opendrive_id world landmark in
              sumo_state ← str_getitem traci_junction_state (snd junction_plus_idx);
              Ok (carla_tl_to_change, (link2sumostate ++ [sumo_state])%list))
           resorted_idx_list (None, []).

(** The body of the loop over the landmarks of one program. *)
Definition translate_landmark (program : SumoTLLogic) (traci_junction_state : string)
    (c_tlid : string) (world : World) : result World :=
  links ← dict_getitem (_landmark2link program) c_tlid;
  let resorted_idx_list := py_sorted snd links in
  '(carla_tl_to_change, link2sumostate) ←
    gather_link_states program traci_junction_state world resorted_idx_list;
  if (length resorted_idx_list =? 3)%nat then
    straight ← list_getitem link2sumostate 1;
    carla_set_state carla_tl_to_change (get_carla_traffic_light_state straight) world
  else if (length resorted_idx_list =? 2)%nat then
    if bool_decide ("r" ∈ link2sumostate) then
      carla_set_state carla_tl_to_change Red world
    else
      first ← list_getitem link2sumostate 0;
      carla_set_state carla_tl_to_change (get_carla_traffic_light_state first) world
  else Raise unsupported_directions.

(** [SumoTLManager.set_states_from_sumo]; [getRedYellowGreenState] is the
    engine's answer to [traci.trafficlight.getRedYellowGreenState].  The
    result is the world as the call leaves it and the exception that ended
    the call, if any.  The [print] calls are left out. *)
Definition SumoTLManager_set_states_from_sumo (self : SumoTLManager)
    (getRedYellowGreenState : string -> result string) (world : World)
  : World * option exn :=
  for_each_st
    (fun '(tlid, programs) =>
       for_each_st
         (fun '(i, sumo_junction_program) world =>
            match getRedYellowGreenState tlid with
            | Raise e => (world, Some e)
            | Ok traci_junction_state =>
                for_each_st
                  (fun c_tlid world =>
                     or_unchanged
                       (translate_landmark sumo_junction_program
                          traci_junction_state c_tlid world) world)
                  (dict_keys (_landmark2link sumo_junction_program)) world
            end)
         (dict_items (programs : pydict string SumoTLLogic)))
    (dict_items (_tls self)) world.

(** ** Sumo simulation *)

(** Values a Python function may hand back here. *)
Inductive pyvalue : Type :=
| PyStr (s : string)
| PyInt (z : Z)
| PyNone.

(** The vehicle commands [spawn_actor] sends to the lane engine. *)
Inductive vehicle_call : Type :=
| VehicleAdd (vehID routeID typeID : string)
| VehicleSetColor (vehID : string) (color : list string).

(** The engine's answer to a command: it is carried out or it raises. *)
Inductive reply : Type :=
| Done
| Fails (e : exn).

(** [SumoSimulation]: the attributes the methods below read or write. *)
Record SumoSimulation : Type := mkSumoSimulation {
  _sequential_id : Z;
  spawned_actors : gset string;
  destroyed_actors : gset string;
  traffic_light_manager : SumoTLManager
}.

Definition set_sequential_id (self : SumoSimulation) (n : Z) : SumoSimulation :=
  mkSumoSimulation n (spawned_actors self) (destroyed_actors self)
                   (traffic_light_manager self).

(** What one call of [spawn_actor] leaves behind: the object, the commands
    sent, the records logged, and the returned value or the exception. *)
Record spawn_outcome : Type := mkSpawnOutcome {
  spawn_self : SumoSimulation;
  spawn_calls : list vehicle_call;
  spawn_log : list log_record;
  spawn_result : result pyvalue
}.

Section SpawnActor.
(** [constants.INVALID_ACTOR_ID]; the module is not part of the sources
    at hand, the constant is a parameter. *)
Variable INVALID_ACTOR_ID : pyvalue.

(** [SumoSimulation.spawn_actor]; [traci] answers the commands. *)
Definition spawn_actor (traci : vehicle_call -> reply) (self : SumoSimulation)
    (type_id : string) (color : option string) : spawn_outcome :=
  let actor_id := "carla" +:+ pretty (_sequential_id self) in
  let add := VehicleAdd actor_id "carla_route" type_id in
  match traci add with
  | Fails (TraCIException error) =>
      mkSpawnOutcome self [add]
        [LogRecord ERROR "Spawn sumo actor failed: %s" [error]]
        (Ok INVALID_ACTOR_ID)
  | Fails e => mkSpawnOutcome self [add] [] (Raise e)
  | Done =>
      let bump := set_sequential_id self (_sequential_id self + 1) in
      match color with
      | Some color =>
          let set_color := VehicleSetColor actor_id (str_split "," color) in
          match traci set_color with
          | Fails e => mkSpawnOutcome self [add; set_color] [] (Raise e)
          | Done => mkSpawnOutcome bump [add; set_color] [] (Ok (PyStr actor_id))
          end
      | None => mkSpawnOutcome bump [add] [] (Ok (PyStr actor_id))
      end
  end.

(** One request to spawn: the engine's behaviour during the call and the
    arguments. *)
Record spawn_request : Type := mkSpawnRequest {
  req_traci : vehicle_call -> reply;
  req_type_id : string;
  req_color : option string
}.

(** Successive calls of [spawn_actor] on the same object. *)
Fixpoint spawn_all (reqs : list spawn_request) (self : SumoSimulation)
  : list spawn_outcome :=
  match reqs with
  | [] => []
  | r :: reqs' =>
      let o := spawn_actor (req_traci r) self (req_type_id r) (req_color r) in
      o :: spawn_all reqs' (spawn_self o)
  end.

(** A call is successful when it returns an actor id of its own making,
    that is returns without taking the [except] branch. *)
Definition spawned_id (traci : vehicle_call -> reply) (self : SumoSimulation)
    (type_id : string) (color : option string) : option string :=
  match traci (VehicleAdd ("carla" +:+ pretty (_sequential_id self)) "carla_route" type_id) with
  | Done =>
      match spawn_result (spawn_actor traci self type_id color) with
      | Ok (PyStr s) => Some s
      | _ => None
      end
  | Fails _ => None
  end.

(** The ids returned by the successful calls of a run, in order. *)
Fixpoint spawned_ids (reqs : list spawn_request) (self : SumoSimulation)
  : list string :=
  match reqs with
  | [] => []
  | r :: reqs' =>
      let o := spawn_actor (req_traci r) self (req_type_id r) (req_color r) in
      match spawned_id (req_traci r) self (req_type_id r) (req_color r) with
      | Some s => s :: spawned_ids reqs' (spawn_self o)
      | None => spawned_ids reqs' (spawn_self o)
      end
  end.
End SpawnActor.

(** What the lane engine reports after [traci.simulationStep()]. *)
Record StepReport : Type := mkStepReport {
  step_tl_results : TLSubscriptions;
  step_departed : list string;
  step_arrived : list string
}.

(** [SumoSimulation.tick] *)
Definition SumoSimulation_tick (self : SumoSimulation) (step : StepReport)
  : SumoSimulation :=
  mkSumoSimulation (_sequential_id self)
    (list_to_set (step_departed step))
    (list_to_set (step_arrived step))
    (SumoTLManager_tick (traffic_light_manager self) (step_tl_results step)).

(** ** The removal check of [sample_traci.py] *)

(** The tracking variables of the script that the check reads or writes. *)
Record Tracking : Type := mkTracking {
  stepCount : Z;
  current_vehicle_count : Z;
  current_vehicle_id_list : list string;
  removed_vehicles : list string
}.

Definition tracking_start : Tracking := mkTracking 0 0 [] [].

(** One round of the [while] loop, for the vehicle ids [vehicle_id_list]
    the engine holds during the round ([getIDCount] is their number; both
    calls of [getIDList] in a round are answered alike, the engine does not
    step in between).  The [print] of the round and the float [step] are
    left out; the round is read as under Python 2, where the result of
    [map] is a list that can be indexed. *)
Definition sample_traci_round (vehicle_id_list : list string) (t : Tracking)
  : Tracking :=
  let vehicle_count := Z.of_nat (length vehicle_id_list) in
  let removed :=
    if vehicle_count <? current_vehicle_count t then
      filter (fun v => v ∉ vehicle_id_list) (current_vehicle_id_list t)
    else removed_vehicles t in
  mkTracking (stepCount t + 1) vehicle_count vehicle_id_list removed.

(** Following the specification's words, not the code: the refresh of the
    actor registry as a pair [(spawned, removed)] of set differences. *)
Definition refresh_as_specified (previous current : gset string)
  : gset string * gset string :=
  (current ∖ previous, previous ∖ current).

(** ** Vocabulary of the statements *)


(** A link resolves when [_link2landmark] has a landmark for it and its
    index is a position of the junction's state string. *)
Definition link_resolves (program : SumoTLLogic) (traci_junction_state : string)
    (l : link) (landmark sumo_state : string) : Prop :=
  dict_get (_link2landmark program) l = Some landmark /\
  str_getitem traci_junction_state (snd l) = Ok sumo_state.

(** The landmarks [set_states_from_sumo] visits, in the order of its three
    nested loops: traffic light, program, landmark. *)
Definition landmark_visits (self : SumoTLManager)
  : list (string * SumoTLLogic * string) :=
  '(tlid, programs) ← dict_items (_tls self);
  '(i, program) ← dict_items (programs : pydict string SumoTLLogic);
  c_tlid ← dict_keys (_landmark2link program);
  [(tlid, program, c_tlid)].

(** One visit, for a junction state string known for every traffic light. *)
Definition visit_landmark (junction_state : string -> string)
    (visit : string * SumoTLLogic * string) (world : World) : World * option exn :=
  let '(tlid, program, c_tlid) := visit in
  or_unchanged (translate_landmark program (junction_state tlid) c_tlid world) world.

(** The id [spawn_actor] makes from the counter's value:
    ['carla' + str(n)]. *)
Definition actor_id_of (n : Z) : string := "carla" +:+ pretty n.

(** ** Scenarios *)

Module Scenario.
(** Junction "918": landmark "1032" controls the links 0 and 1. *)
Definition params_918 : pydict string string :=
  [("linkSignalID:0", "1032"); ("linkSignalID:1", "1032")].

Definition program_918 : SumoTLLogic :=
  mkSumoTLLogic "918" ["GGgrrrGGgrrr"]
    [("1032", [("918", 0); ("918", 1)])]
    [(("918", 0), "1032"); (("918", 1), "1032")].

Definition manager_918 : SumoTLManager :=
  mkSumoTLManager [("918", [("0", program_918)])] [("918", "0")] [("918", 0)] false.

(** Junction "725": the links of landmark "1040" arrive as 10, 11, 9. *)
Definition params_725 : pydict string string :=
  [("linkSignalID:10", "1040"); ("linkSignalID:11", "1040"); ("linkSignalID:9", "1040")].

Definition program_725 : SumoTLLogic :=
  mkSumoTLLogic "725" ["rrrrrrrrryGr"]
    [("1040", [("725", 10); ("725", 11); ("725", 9)])]
    [(("725", 10), "1040"); (("725", 11), "1040"); (("725", 9), "1040")].

(** Two keys that read as the same index: "1" and "01". *)
Definition params_repeated : pydict string string :=
  [("linkSignalID:1", "7"); ("linkSignalID:01", "7"); ("linkSignalID:2", "7")].

Definition program_repeated : SumoTLLogic :=
  mkSumoTLLogic "725" ["GGrr"]
    [("7", [("725", 1); ("725", 1); ("725", 2)])]
    [(("725", 1), "7"); (("725", 2), "7")].

(** Junction "4": landmark "A" has four links, landmark "B" two. *)
Definition params_4 : pydict string string :=
  [("linkSignalID:0", "A"); ("linkSignalID:1", "A"); ("linkSignalID:2", "A");
   ("linkSignalID:3", "A"); ("linkSignalID:4", "B"); ("linkSignalID:5", "B")].

Definition program_4 : SumoTLLogic :=
  mkSumoTLLogic "4" ["rrrrGG"]
    [("A", [("4", 0); ("4", 1); ("4", 2); ("4", 3)]); ("B", [("4", 4); ("4", 5)])]
    [(("4", 0), "A"); (("4", 1), "A"); (("4", 2), "A"); (("4", 3), "A");
     (("4", 4), "B"); (("4", 5), "B")].

Definition manager_4 : SumoTLManager :=
  mkSumoTLManager [("4", [("0", program_4)])] [("4", "0")] [("4", 0)] false.

Definition world_4 : World := {[ "A" := Unknown; "B" := Unknown ]}.
End Scenario.

Module SpawnScenario.
(** An engine that knows every vehicle type but "bicycle". *)
Definition traci (c : vehicle_call) : reply :=
  match c with
  | VehicleAdd _ _ typeID =>
      if String.eqb typeID "bicycle"
      then Fails (TraCIException "Vehicle type 'bicycle' is not known")
      else Done
  | VehicleSetColor _ _ => Done
  end.

Definition fresh : SumoSimulation :=
  mkSumoSimulation 0 ∅ ∅ (mkSumoTLManager [] [] [] false).

Definition requests : list spawn_request :=
  [mkSpawnRequest traci "vehicle.tesla.model3" None;
   mkSpawnRequest traci "bicycle" None;
   mkSpawnRequest traci "vehicle.audi.a2" (Some "255,0,0")].
End SpawnScenario.

(** ** Further vocabulary *)

(** The link index a parameter key stands for: [int(key.split(':')[1])]. *)
Definition link_index_of_key (key : string) : result Z :=
  field ← list_getitem (str_split ":" key) 1;
  py_int field.

(** The parameters with their keys read as link indices, in the order of
    [parameters.items()]; the first key that cannot be read raises. *)
Fixpoint parse_parameters (parameters : pydict string string)
  : result (list (Z * string)) :=
  match parameters with
  | [] => Ok []
  | (key, landmark_id) :: rest =>
      link_index ← link_index_of_key key;
      parsed ← parse_parameters rest;
      Ok ((link_index, landmark_id) :: parsed)
  end.

(** The links of a landmark among parsed parameters, in their order. *)
Definition links_of (tlid landmark_id : string) (parsed : list (Z * string))
  : list link :=
  (fun x : Z * string => (tlid, fst x)) <$> filter (fun x : Z * string => snd x = landmark_id) parsed.

(** The landmark of the last parsed parameter with a given link index. *)
Definition landmark_of (link_index : Z) (parsed : list (Z * string)) : option string :=
  snd <$> last (filter (fun x : Z * string => fst x = link_index) parsed).

(** Every link listed under a landmark has an entry in [_link2landmark]. *)
Definition links_have_landmarks (program : SumoTLLogic) : Prop :=
  forall c_tlid links l,
    dict_get (_landmark2link program) c_tlid = Some links ->
    l ∈ links ->
    is_Some (dict_get (_link2landmark program) l).

(** The same for every program a manager holds. *)
Definition programs_have_landmarks (self : SumoTLManager) : Prop :=
  forall tlid programs program_id program,
    (tlid, programs) ∈ dict_items (_tls self) ->
    (program_id, program) ∈ dict_items (programs : pydict string SumoTLLogic) ->
    links_have_landmarks program.

(** [d.values()] *)
Definition dict_values {K V} (d : pydict K V) : list V := map snd d.

(** The calls on a session that write its attributes: [tick] and
    [spawn_actor]. *)
Inductive session_call : Type :=
| SessionTick (step : StepReport)
| SessionSpawn (request : spawn_request).

Definition is_tick (c : session_call) : bool :=
  match c with
  | SessionTick _ => true
  | SessionSpawn _ => false
  end.

Definition session_step (INVALID_ACTOR_ID : pyvalue) (self : SumoSimulation)
    (c : session_call) : SumoSimulation :=
  match c with
  | SessionTick step => SumoSimulation_tick self step
  | SessionSpawn r =>
      spawn_self (spawn_actor INVALID_ACTOR_ID (req_traci r) self
                    (req_type_id r) (req_color r))
  end.

Definition run_session (INVALID_ACTOR_ID : pyvalue) (calls : list session_call)
    (self : SumoSimulation) : SumoSimulation :=
  foldl (session_step INVALID_ACTOR_ID) self calls.

(** The rounds of the script's loop over the successive snapshots of the
    engine's vehicle ids. *)
Definition sample_traci_run (snapshots : list (list string)) : Tracking :=
  foldl (fun t vehicle_id_list => sample_traci_round vehicle_id_list t)
        tracking_start snapshots.

(** ** The conversion of surrogate safety measure logs *)

(** [zip] of the unpacked [rows]: their columns, as many as the shortest
    row is long; nothing for no rows at all. *)
Definition py_zip_star {A} (rows : list (list A)) : list (list A) :=
  match rows with
  | [] => []
  | r :: _ =>
      let n := foldr Nat.min (length r) (length <$> rows) in
      (fun i => omap (fun row : list A => row !! i) rows) <$> seq 0 n
  end.

(** The loop of [ssm_log_to_csv] that writes the rows of the
    time-coordinated table: the rows written, and the exception that ended
    the loop, if any.  A row whose third cell from the end is 'NA' ends
    the loop and is not written. *)
Fixpoint write_steps (steps : list (list string)) : list (list string) * option exn :=
  match steps with
  | [] => ([], None)
  | step :: rest =>
      match list_getitem step (-3) with
      | Raise e => ([], Some e)
      | Ok cell =>
          if String.eqb cell "NA" then ([], None)
          else let '(rows, e) := write_steps rest in (step :: rows, e)
      end
  end.

(** The rows below the header row of the time-coordinated table of one
    conflict, from the ['values'] attribute of each of its elements in the
    order of [single_attrs]. *)
Definition time_coordinated_rows (values : list string)
  : list (list string) * option exn :=
  let step_list := str_split " " <$> values in
  write_steps (py_zip_star step_list).

(** ** Vehicle signals and actor classes *)

(** [SumoVehSignal]: the bits of a vehicle's signal mask. *)
Module SumoVehSignal.
Definition BLINKER_RIGHT : Z := Z.shiftl 1 0.
Definition BLINKER_LEFT : Z := Z.shiftl 1 1.
Definition BLINKER_EMERGENCY : Z := Z.shiftl 1 2.
Definition BRAKELIGHT : Z := Z.shiftl 1 3.
Definition FRONTLIGHT : Z := Z.shiftl 1 4.
Definition FOGLIGHT : Z := Z.shiftl 1 5.
Definition HIGHBEAM : Z := Z.shiftl 1 6.
Definition BACKDRIVE : Z := Z.shiftl 1 7.
Definition WIPER : Z := Z.shiftl 1 8.
Definition DOOR_OPEN_LEFT : Z := Z.shiftl 1 9.
Definition DOOR_OPEN_RIGHT : Z := Z.shiftl 1 10.
Definition EMERGENCY_BLUE : Z := Z.shiftl 1 11.
Definition EMERGENCY_RED : Z := Z.shiftl 1 12.
Definition EMERGENCY_YELLOW : Z := Z.shiftl 1 13.

(** The attributes of the class, in the order of the source. *)
Definition members : list Z :=
  [BLINKER_RIGHT; BLINKER_LEFT; BLINKER_EMERGENCY; BRAKELIGHT; FRONTLIGHT; FOGLIGHT;
   HIGHBEAM; BACKDRIVE; WIPER; DOOR_OPEN_LEFT; DOOR_OPEN_RIGHT; EMERGENCY_BLUE;
   EMERGENCY_RED; EMERGENCY_YELLOW].

(** A mask with the given signals on: [a | b | ...]. *)
Definition mask (on : list Z) : Z := foldr Z.lor 0 on.

(** [mask & signal != 0] *)
Definition is_on (m signal : Z) : bool := negb (Z.land m signal =? 0).
End SumoVehSignal.

(** [SumoActorClass(enum.Enum)] *)
Module SumoActorClass.
Inductive t : Type :=
| IGNORING | PRIVATE | EMERGENCY | AUTHORITY | ARMY | VIP | PEDESTRIAN | PASSENGER
| HOV | TAXI | BUS | COACH | DELIVERY | TRUCK | TRAILER | MOTORCYCLE | MOPED
| BICYCLE | EVEHICLE | TRAM | RAIL_URBAN | RAIL | RAIL_ELECTRIC | RAIL_FAST | SHIP
| CUSTOM1 | CUSTOM2.

(** [member.value] *)
Definition value (c : t) : string :=
  match c with
  | IGNORING => "ignoring" | PRIVATE => "private" | EMERGENCY => "emergency"
  | AUTHORITY => "authority" | ARMY => "army" | VIP => "vip"
  | PEDESTRIAN => "pedestrian" | PASSENGER => "passenger" | HOV => "hov"
  | TAXI => "taxi" | BUS => "bus" | COACH => "coach" | DELIVERY => "delivery"
  | TRUCK => "truck" | TRAILER => "trailer" | MOTORCYCLE => "motorcycle"
  | MOPED => "moped" | BICYCLE => "bicycle" | EVEHICLE => "evehicle"
  | TRAM => "tram" | RAIL_URBAN => "rail_urban" | RAIL => "rail"
  | RAIL_ELECTRIC => "rail_electric" | RAIL_FAST => "rail_fast" | SHIP => "ship"
  | CUSTOM1 => "custom1" | CUSTOM2 => "custom2"
  end.

(** The members in the order of their definition. *)
Definition members : list t :=
  [IGNORING; PRIVATE; EMERGENCY; AUTHORITY; ARMY; VIP; PEDESTRIAN; PASSENGER;
   HOV; TAXI; BUS; COACH; DELIVERY; TRUCK; TRAILER; MOTORCYCLE; MOPED;
   BICYCLE; EVEHICLE; TRAM; RAIL_URBAN; RAIL; RAIL_ELECTRIC; RAIL_FAST; SHIP;
   CUSTOM1; CUSTOM2].

(** [SumoActorClass(s)], the lookup by value [get_actor] applies to the
    vehicle class the engine reports: the member with that value, or
    [ValueError]. *)
Definition of_value (s : string) : result t :=
  of_option ValueError (find (fun c => String.eqb (value c) s) members).
End SumoActorClass.

(** ** Strings of one kind of character *)

(** Every character of [s] passes the test [P]. *)
Fixpoint str_all (P : ascii -> bool) (s : string) : bool :=
  match s with
  | "" => true
  | String c s' => P c && str_all P s'
  end.

(** The characters of [str(n)]: decimal digits and the minus sign. *)
Definition is_number_char (c : ascii) : bool :=
  match digit_value c with
  | Some _ => true
  | None => Ascii.eqb c "-"
  end.
(** ** Vocabulary of the statements, continued *)

(** The links listed under a landmark lead back to it: each one is
    recorded under that landmark in [_link2landmark]. *)
Definition links_under_landmark (program : SumoTLLogic) (c_tlid : string)
    (links : list link) : Prop :=
  forall l, l ∈ links -> dict_get (_link2landmark program) l = Some c_tlid.




(** A signal the manager knows of: an index below the width of the first
    phase of the current program of some traffic light, under the id that
    program carries. *)
Definition current_signal (self : SumoTLManager) (l : link) : Prop :=
  exists t program_id programs tl,
    (t, program_id) ∈ dict_items (_current_program self) /\
    dict_get (_tls self) t = Some programs /\
    dict_get programs program_id = Some tl /\
    fst l = tlid tl /\
    0 <= snd l < Z.of_nat (get_number_signals tl).

(** The engine carries out the commands of a call of [spawn_actor] made
    at the counter value [n]: the [add] and, when a color is given, the
    [setColor]. *)
Definition engine_accepts (traci : vehicle_call -> reply) (n : Z) (type_id : string)
    (color : option string) : bool :=
  match traci (VehicleAdd (actor_id_of n) "carla_route" type_id) with
  | Done =>
      match color with
      | Some color =>
          match traci (VehicleSetColor (actor_id_of n) (str_split "," color)) with
          | Done => true
          | Fails _ => false
          end
      | None => true
      end
  | Fails _ => false
  end.

(** ** Further scenarios *)

Module Junctions.
(** Junction "918" with two programs of three phases each; it runs
    program "1" in phase 1. *)
Definition program_day : SumoTLLogic :=
  mkSumoTLLogic "918" ["rrrr"; "GGrr"; "uuuu"]
    [("1032", [("918", 0); ("918", 1)])]
    [(("918", 0), "1032"); (("918", 1), "1032")].

Definition program_night : SumoTLLogic :=
  mkSumoTLLogic "918" ["GGrr"; "yyrG"; "rrGG"]
    [("1032", [("918", 0); ("918", 1)]); ("1034", [("918", 2); ("918", 3)])]
    [(("918", 0), "1032"); (("918", 1), "1032");
     (("918", 2), "1034"); (("918", 3), "1034")].

Definition manager_two_programs : SumoTLManager :=
  mkSumoTLManager [("918", [("0", program_day); ("1", program_night)])]
                  [("918", "1")] [("918", 1)] false.







(** Junction "725" with one program. *)
Definition manager_725 : SumoTLManager :=
  mkSumoTLManager [("725", [("0", Scenario.program_725)])] [("725", "0")] [("725", 0)]
                  false.

(** The parameters of junction "725" in the order of their indices. *)
Definition params_725_sorted : pydict string string :=
  [("linkSignalID:9", "1040"); ("linkSignalID:10", "1040"); ("linkSignalID:11", "1040")].

Definition program_725_sorted : SumoTLLogic :=
  mkSumoTLLogic "725" ["rrrrrrrrryGr"]
    [("1040", [("725", 9); ("725", 10); ("725", 11)])]
    [(("725", 9), "1040"); (("725", 10), "1040"); (("725", 11), "1040")].

(** A landmark whose links lie outside the phase strings of its program. *)
Definition params_outside : pydict string string :=
  [("linkSignalID:-1", "1032"); ("linkSignalID:-2", "1032")].

Definition program_outside : SumoTLLogic :=
  mkSumoTLLogic "918" ["GG"]
    [("1032", [("918", -1); ("918", -2)])]
    [(("918", -1), "1032"); (("918", -2), "1032")].

Definition manager_outside : SumoTLManager :=
  mkSumoTLManager [("918", [("0", program_outside)])] [("918", "0")] [("918", 0)] false.
End Junctions.


(** * Properties *)

(** ** Python primitives on examples *)

Example py_int_plain : py_int "12" = Ok 12.
Proof. reflexivity. Qed.

Example py_int_leading_zero : py_int "01" = Ok 1.
Proof. reflexivity. Qed.

Example py_int_blank_sign : py_int " -7 " = Ok (-7).
Proof. reflexivity. Qed.

Example py_int_underscore : py_int "1_0" = Ok 10.
Proof. reflexivity. Qed.

Example py_int_rejects :
  py_int "1__0" = Raise ValueError /\ py_int "" = Raise ValueError /\
  py_int "_1" = Raise ValueError /\ py_int "1_" = Raise ValueError /\
  py_int "x" = Raise ValueError.
Proof. repeat split. Qed.

Example str_split_key : str_split ":" "linkSignalID:10" = ["linkSignalID"; "10"].
Proof. reflexivity. Qed.

Example str_getitem_last : str_getitem "GGrr" (-1) = Ok "r".
Proof. reflexivity. Qed.

Example str_getitem_out_of_range :
  str_getitem "GGrr" 4 = Raise IndexError /\ str_getitem "GGrr" (-5) = Raise IndexError.
Proof. split; reflexivity. Qed.

Example actor_id_format : "carla" +:+ pretty 10 = "carla10".
Proof. reflexivity. Qed.

(** ** Dictionaries *)

Section PyDictFacts.
Context {K V : Type} `{EqDecision K}.
Implicit Types (d : pydict K V) (k : K) (v : V).

Lemma dict_get_set_eq d k v : dict_get (dict_set d k v) k = Some v.
Proof.
  induction d as [|[k' v'] d IH]; simpl.
  - by rewrite decide_True.
  - destruct (decide (k = k')) as [->|Hne]; simpl.
    + by rewrite decide_True.
    + by rewrite decide_False.
Qed.

Lemma dict_get_set_ne d k k' v :
  k <> k' -> dict_get (dict_set d k v) k' = dict_get d k'.
Proof.
  intros Hne. induction d as [|[k0 v0] d IH]; simpl.
  - rewrite decide_False; [done | congruence].
  - destruct (decide (k = k0)) as [->|Hk]; simpl.
    + rewrite !decide_False; [done | congruence | congruence].
    + destruct (decide (k' = k0)); auto.
Qed.

Lemma dict_set_same d k v : dict_get d k = Some v -> dict_set d k v = d.
Proof.
  induction d as [|[k0 v0] d IH]; simpl; [done|].
  destruct (decide (k = k0)) as [->|Hk].
  - by intros [= ->].
  - intros Hd. by rewrite IH.
Qed.
End PyDictFacts.

(** ** The state translation *)

(** C5: [get_carla_traffic_light_state] is defined on every string: 'r'
    and 'u' give Red, 'y' gives Yellow, 'G' and 'g' give Green, 'O' gives
    Off, and 's', 'o' and every other string give Unknown. *)
Theorem get_carla_traffic_light_state_table :
  get_carla_traffic_light_state SumoSignalState.RED = Red /\
  get_carla_traffic_light_state SumoSignalState.RED_YELLOW = Red /\
  get_carla_traffic_light_state SumoSignalState.YELLOW = Yellow /\
  get_carla_traffic_light_state SumoSignalState.GREEN = Green /\
  get_carla_traffic_light_state SumoSignalState.GREEN_WITHOUT_PRIORITY = Green /\
  get_carla_traffic_light_state SumoSignalState.OFF = Off /\
  get_carla_traffic_light_state SumoSignalState.GREEN_RIGHT_TURN = Unknown /\
  get_carla_traffic_light_state SumoSignalState.OFF_BLINKING = Unknown /\
  forall s : string,
    s ∉ ["r"; "u"; "y"; "G"; "g"; "O"] ->
    get_carla_traffic_light_state s = Unknown.
Proof.
  repeat (split; [reflexivity|]).
  intros s Hs. unfold get_carla_traffic_light_state.
  repeat match goal with
  | |- context [String.eqb s ?c] =>
      destruct (String.eqb_spec s c) as [->|_]; [exfalso; apply Hs; set_solver|]
  end.
  reflexivity.
Qed.

Lemma get_carla_traffic_light_state_table_witness :
  get_carla_traffic_light_state "x" = Unknown.
Proof.
  apply get_carla_traffic_light_state_table.
  intros H; repeat (apply elem_of_cons in H as [H|H]; [discriminate H|]).
  by apply elem_of_nil in H.
Defined.

(** ** The number of signals of a program *)

Lemma get_number_signals_head (self : SumoTLLogic) :
  get_number_signals self = default 0%nat (String.length <$> head (states self)).
Proof. unfold get_number_signals. by destruct (states self). Qed.

(** C9, as the code has it: [get_number_signals] is the length of the first
    phase string (0 without phases); it is the length of every phase string
    exactly when all phase strings of the program are equally long, which
    nothing in the class checks. *)
Theorem get_number_signals_uniform (self : SumoTLLogic) :
  get_number_signals self = default 0%nat (String.length <$> head (states self)) /\
  ((forall s, s ∈ states self -> get_number_signals self = String.length s) <->
   (forall s t, s ∈ states self -> t ∈ states self -> String.length s = String.length t)).
Proof.
  split; [apply get_number_signals_head|].
  unfold get_number_signals. destruct (states self) as [|s0 l].
  - split; intros _ *; intros Hs; by apply elem_of_nil in Hs.
  - split.
    + intros H s t Hs Ht. by rewrite <- (H s Hs), <- (H t Ht).
    + intros H s Hs. apply H; [left | done].
Qed.

Lemma get_number_signals_uniform_witness :
  get_number_signals (mkSumoTLLogic "918" ["GGrr"; "yyrr"] [] []) = String.length "yyrr".
Proof.
  refine (proj2 (proj2 (get_number_signals_uniform
                          (mkSumoTLLogic "918" ["GGrr"; "yyrr"] [] []))) _ "yyrr" _).
  - simpl. intros s t Hs Ht.
    repeat (apply elem_of_cons in Hs as [->|Hs]);
      repeat (apply elem_of_cons in Ht as [->|Ht]);
      try reflexivity; try (by apply elem_of_nil in Hs); by apply elem_of_nil in Ht.
  - simpl. right. left.
Defined.

(** C9, as stated, fails: a program whose phase strings differ in length
    reports the length of the first one. *)
Lemma get_number_signals_not_uniform :
  SumoTLLogic_init "918" ["GGrr"; "yy"] [] = Ok (mkSumoTLLogic "918" ["GGrr"; "yy"] [] []) /\
  get_number_signals (mkSumoTLLogic "918" ["GGrr"; "yy"] [] []) = 4%nat /\
  ~ (forall s, s ∈ states (mkSumoTLLogic "918" ["GGrr"; "yy"] [] []) ->
               get_number_signals (mkSumoTLLogic "918" ["GGrr"; "yy"] [] []) = String.length s).
Proof.
  split; [reflexivity|]. split; [reflexivity|].
  intros H. specialize (H "yy"). simpl in H.
  assert (Hin : "yy" ∈ ["GGrr"; "yy"]) by set_solver.
  specialize (H Hin). discriminate H.
Qed.

(** ** Sorting by link index *)

Section Sorting.
Context {A : Type} (key : A -> Z).

Lemma insert_by_key_perm x l : insert_by_key key x l ≡ₚ x :: l.
Proof.
  induction l as [|y l IH]; simpl; [done|].
  destruct (key x <=? key y); [done|].
  rewrite IH. apply perm_swap.
Qed.

Lemma py_sorted_perm l : py_sorted key l ≡ₚ l.
Proof.
  induction l as [|x l IH]; simpl; [done|].
  rewrite insert_by_key_perm. by rewrite IH.
Qed.

Lemma py_sorted_length l : length (py_sorted key l) = length l.
Proof. apply Permutation_length, py_sorted_perm. Qed.




End Sorting.

Example py_sorted_by_index :
  py_sorted snd [("725", 10); ("725", 11); ("725", 9)]
  = [("725", 9); ("725", 10); ("725", 11)].
Proof. reflexivity. Qed.

(** ** Loops *)

Lemma for_each_app {A S} (body : A -> S -> result S) xs ys s :
  for_each body (xs ++ ys)%list s = (s' ← for_each body xs s; for_each body ys s').
Proof.
  revert s. induction xs as [|x xs IH]; intros s; simpl; [done|].
  destruct (body x s) as [s'|e]; simpl; [apply IH | done].
Qed.

Lemma for_each_st_app {A S} (body : A -> S -> S * option exn) xs ys s :
  for_each_st body (xs ++ ys)%list s =
  match for_each_st body xs s with
  | (s', None) => for_each_st body ys s'
  | (s', Some e) => (s', Some e)
  end.
Proof.
  revert s. induction xs as [|x xs IH]; intros s; simpl; [done|].
  destruct (body x s) as [s' [e|]]; [done | apply IH].
Qed.

(** An exception in the middle of a loop ends it: what follows is not run. *)
Lemma for_each_st_raise {A S} (body : A -> S -> S * option exn) xs x ys s s1 s2 e :
  for_each_st body xs s = (s1, None) ->
  body x s1 = (s2, Some e) ->
  for_each_st body (xs ++ x :: ys)%list s = (s2, Some e).
Proof.
  intros Hxs Hx. rewrite for_each_st_app, Hxs. simpl. by rewrite Hx.
Qed.

(** ** Translating one landmark *)

Section TranslateLandmark.
Variables (program : SumoTLLogic) (traci_junction_state : string) (world : World).

Lemma gather_link_states_step tl acc ls l landmark sumo_state :
  link_resolves program traci_junction_state l landmark sumo_state ->
  for_each (fun junction_plus_idx '(_, link2sumostate) =>
              landmark ← dict_getitem (_link2landmark program) junction_plus_idx;
              let carla_tl_to_change :=
                get_traffic_light_from_opendrive_id world landmark in
              sumo_state ← str_getitem traci_junction_state (snd junction_plus_idx);
              Ok (carla_tl_to_change, (link2sumostate ++ [sumo_state])%list))
           (l :: ls) (tl, acc)
  = for_each (fun junction_plus_idx '(_, link2sumostate) =>
              landmark ← dict_getitem (_link2landmark program) junction_plus_idx;
              let carla_tl_to_change :=
                get_traffic_light_from_opendrive_id world landmark in
              sumo_state ← str_getitem traci_junction_state (snd junction_plus_idx);
              Ok (carla_tl_to_change, (link2sumostate ++ [sumo_state])%list))
           ls (get_traffic_light_from_opendrive_id world landmark,
               (acc ++ [sumo_state])%list).
Proof.
  intros [Hl Hs]. simpl. unfold dict_getitem. rewrite Hl. simpl.
  by rewrite Hs.
Qed.

Lemma gather_link_states_two a b la lb sa sb :
  link_resolves program traci_junction_state a la sa -> link_resolves program traci_junction_state b lb sb ->
  gather_link_states program traci_junction_state world [a; b]
  = Ok (get_traffic_light_from_opendrive_id world lb, [sa; sb]).
Proof.
  intros Ha Hb. unfold gather_link_states.
  rewrite (gather_link_states_step _ _ _ _ _ _ Ha).
  by rewrite (gather_link_states_step _ _ _ _ _ _ Hb).
Qed.

Lemma gather_link_states_three a b c la lb lc sa sb sc :
  link_resolves program traci_junction_state a la sa -> link_resolves program traci_junction_state b lb sb -> link_resolves program traci_junction_state c lc sc ->
  gather_link_states program traci_junction_state world [a; b; c]
  = Ok (get_traffic_light_from_opendrive_id world lc, [sa; sb; sc]).
Proof.
  intros Ha Hb Hc. unfold gather_link_states.
  rewrite (gather_link_states_step _ _ _ _ _ _ Ha).
  rewrite (gather_link_states_step _ _ _ _ _ _ Hb).
  by rewrite (gather_link_states_step _ _ _ _ _ _ Hc).
Qed.

(** When every link resolves the loop ends without an exception. *)
Lemma gather_link_states_total ls :
  Forall (fun l => exists landmark sumo_state, link_resolves program traci_junction_state l landmark sumo_state) ls ->
  exists r, gather_link_states program traci_junction_state world ls = Ok r.
Proof.
  unfold gather_link_states. generalize (@None string, @nil string).
  induction ls as [|l ls IH]; intros [tl acc] Hall.
  - by eexists.
  - apply Forall_cons in Hall as [(lm & s & Hl) Hall].
    rewrite (gather_link_states_step _ _ _ _ _ _ Hl). by apply IH.
Qed.

Lemma get_traffic_light_present landmark :
  is_Some (world !! landmark) ->
  get_traffic_light_from_opendrive_id world landmark = Some landmark.
Proof.
  intros [st Hst]. unfold get_traffic_light_from_opendrive_id. by rewrite Hst.
Qed.
End TranslateLandmark.

Lemma for_each_st_ext {A S} (body1 body2 : A -> S -> S * option exn) xs s :
  (forall x s, body1 x s = body2 x s) ->
  for_each_st body1 xs s = for_each_st body2 xs s.
Proof.
  intros Hext. revert s. induction xs as [|x xs IH]; intros s; simpl; [done|].
  rewrite Hext. destruct (body2 x s) as [s' [e|]]; [done | apply IH].
Qed.

Lemma for_each_st_bind {A B S} (f : A -> list B) (body : B -> S -> S * option exn) xs s :
  for_each_st body (xs ≫= f) s = for_each_st (fun x => for_each_st body (f x)) xs s.
Proof.
  revert s. induction xs as [|x xs IH]; intros s; [done|].
  change ((x :: xs) ≫= f) with (f x ++ (xs ≫= f))%list.
  rewrite for_each_st_app. simpl.
  destruct (for_each_st body (f x) s) as [s' [e|]]; [done | apply IH].
Qed.

(** With a state string on hand for every traffic light, the three nested
    loops of [set_states_from_sumo] are one loop over [landmark_visits]. *)
Lemma set_states_from_sumo_visits self junction_state world :
  SumoTLManager_set_states_from_sumo self (fun tlid => Ok (junction_state tlid)) world
  = for_each_st (visit_landmark junction_state) (landmark_visits self) world.
Proof.
  unfold SumoTLManager_set_states_from_sumo, landmark_visits.
  rewrite for_each_st_bind. apply for_each_st_ext. intros [tlid programs] w.
  rewrite for_each_st_bind. apply for_each_st_ext. intros [i program] w'.
  rewrite for_each_st_bind. apply for_each_st_ext. intros c_tlid w''.
  simpl. by destruct (or_unchanged _ _) as [? [?|]].
Qed.

Section TranslateCases.
Variables (program : SumoTLLogic) (traci_junction_state : string) (world : World).
Variables (c_tlid : string) (links : list link).
Hypothesis Hlinks : dict_get (_landmark2link program) c_tlid = Some links.

Lemma translate_landmark_sorted :
  translate_landmark program traci_junction_state c_tlid world =
  ('(carla_tl_to_change, link2sumostate) ←
     gather_link_states program traci_junction_state world (py_sorted snd links);
   if (length links =? 3)%nat then
     straight ← list_getitem link2sumostate 1;
     carla_set_state carla_tl_to_change (get_carla_traffic_light_state straight) world
   else if (length links =? 2)%nat then
     if bool_decide ("r" ∈ link2sumostate) then
       carla_set_state carla_tl_to_change Red world
     else
       first ← list_getitem link2sumostate 0;
       carla_set_state carla_tl_to_change (get_carla_traffic_light_state first) world
   else Raise unsupported_directions).
Proof.
  unfold translate_landmark, dict_getitem. rewrite Hlinks. simpl.
  by rewrite py_sorted_length.
Qed.

Lemma translate_landmark_two a b la lb sa sb :
  py_sorted snd links = [a; b] ->
  link_resolves program traci_junction_state a la sa ->
  link_resolves program traci_junction_state b lb sb ->
  is_Some (world !! lb) ->
  translate_landmark program traci_junction_state c_tlid world =
  Ok (<[lb := if bool_decide (sa = "r" \/ sb = "r") then Red
              else get_carla_traffic_light_state sa]> world).
Proof.
  intros Hsorted Ha Hb Hlight.
  rewrite translate_landmark_sorted.
  assert (Hlen : length links = 2%nat) by (by rewrite <- (py_sorted_length snd links), Hsorted).
  rewrite Hsorted, Hlen, (gather_link_states_two _ _ _ _ _ _ _ _ _ Ha Hb).
  rewrite (get_traffic_light_present _ _ Hlight). simpl.
  destruct (bool_decide_reflect ("r" ∈ [sa; sb])) as [Hin|Hnin];
    destruct (bool_decide_reflect (sa = "r" \/ sb = "r")) as [Hor|Hnor];
    try reflexivity; exfalso.
  - apply Hnor. rewrite !elem_of_cons, elem_of_nil in Hin.
    destruct Hin as [<-|[<-|[]]]; auto.
  - apply Hnin. rewrite !elem_of_cons, elem_of_nil.
    destruct Hor as [->| ->]; auto.
Qed.

Lemma translate_landmark_three a b c la lb lc sa sb sc :
  py_sorted snd links = [a; b; c] ->
  link_resolves program traci_junction_state a la sa ->
  link_resolves program traci_junction_state b lb sb ->
  link_resolves program traci_junction_state c lc sc ->
  is_Some (world !! lc) ->
  translate_landmark program traci_junction_state c_tlid world =
  Ok (<[lc := get_carla_traffic_light_state sb]> world).
Proof.
  intros Hsorted Ha Hb Hc Hlight.
  rewrite translate_landmark_sorted.
  assert (Hlen : length links = 3%nat) by (by rewrite <- (py_sorted_length snd links), Hsorted).
  rewrite Hsorted, Hlen, (gather_link_states_three _ _ _ _ _ _ _ _ _ _ _ _ Ha Hb Hc).
  by rewrite (get_traffic_light_present _ _ Hlight).
Qed.

Lemma translate_landmark_unsupported :
  length links <> 2%nat -> length links <> 3%nat ->
  Forall (fun l => exists landmark sumo_state,
              link_resolves program traci_junction_state l landmark sumo_state) links ->
  translate_landmark program traci_junction_state c_tlid world
  = Raise unsupported_directions.
Proof.
  intros H2 H3 Hall. rewrite translate_landmark_sorted.
  destruct (gather_link_states_total program traci_junction_state world
              (py_sorted snd links)) as [[tl acc] ->].
  { by rewrite py_sorted_perm. }
  simpl. apply Nat.eqb_neq in H2, H3. by rewrite H2, H3.
Qed.
End TranslateCases.

(** ** The scenarios are what the constructors build *)

Example program_918_built :
  SumoTLLogic_init "918" ["GGgrrrGGgrrr"] Scenario.params_918 = Ok Scenario.program_918.
Proof. reflexivity. Qed.

Example manager_918_built :
  SumoTLManager_init
    [mkTLReport "918" [mkTLProgramLogic "0" ["GGgrrrGGgrrr"] Scenario.params_918] "0" 0]
  = Ok Scenario.manager_918.
Proof. reflexivity. Qed.

Example program_725_built :
  SumoTLLogic_init "725" ["rrrrrrrrryGr"] Scenario.params_725 = Ok Scenario.program_725.
Proof. reflexivity. Qed.

Example program_repeated_built :
  SumoTLLogic_init "725" ["GGrr"] Scenario.params_repeated = Ok Scenario.program_repeated.
Proof. reflexivity. Qed.

Example manager_4_built :
  SumoTLManager_init
    [mkTLReport "4" [mkTLProgramLogic "0" ["rrrrGG"] Scenario.params_4] "0" 0]
  = Ok Scenario.manager_4.
Proof. reflexivity. Qed.

(** ** Two directions *)

(** The order of the two directions does not matter when one is red. *)
Example two_directions_red_either_way :
  translate_landmark Scenario.program_918 "rG" "1032" {[ "1032" := Green ]}
  = Ok {[ "1032" := Red ]} /\
  translate_landmark Scenario.program_918 "Gr" "1032" {[ "1032" := Green ]}
  = Ok {[ "1032" := Red ]} /\
  translate_landmark Scenario.program_918 "yG" "1032" {[ "1032" := Green ]}
  = Ok {[ "1032" := Yellow ]}.
Proof. repeat split; vm_compute; reflexivity. Qed.

(** The same through a whole call of [set_states_from_sumo]. *)
Example set_states_from_sumo_918 :
  SumoTLManager_set_states_from_sumo Scenario.manager_918
    (fun _ => Ok "rGgrrrGGgrrr") {[ "1032" := Green ]}
  = ({[ "1032" := Red ]}, None) /\
  SumoTLManager_set_states_from_sumo Scenario.manager_918
    (fun _ => Ok "ggGrrrGGgrrr") {[ "1032" := Red ]}
  = ({[ "1032" := Green ]}, None) /\
  SumoTLManager_set_states_from_sumo Scenario.manager_918
    (fun _ => Ok "G") {[ "1032" := Red ]}
  = ({[ "1032" := Red ]}, Some IndexError) /\
  SumoTLManager_set_states_from_sumo Scenario.manager_918
    (fun _ => Ok "rGgrrrGGgrrr") ∅
  = (∅, Some AttributeError).
Proof. repeat split; vm_compute; reflexivity. Qed.

(** ** Three directions *)

Example three_directions_middle :
  translate_landmark Scenario.program_725 "rrrrrrrrryGr" "1040" {[ "1040" := Red ]}
  = Ok {[ "1040" := Green ]}.
Proof. vm_compute. reflexivity. Qed.


(** ** Other numbers of directions *)

(** C4, as the code has it: a landmark whose links resolve and are
    neither two nor three raises the exception for an unsupported number of
    directions, and the exception ends the whole call of
    [set_states_from_sumo]: the world stays as the landmarks visited before
    left it, and the landmarks that come after are not visited. *)
Theorem unsupported_directions_end_the_call
    (self : SumoTLManager) (junction_state : string -> string) (world world1 : World)
    (before after : list (string * SumoTLLogic * string))
    (tlid : string) (program : SumoTLLogic) (c_tlid : string) (links : list link) :
  landmark_visits self = (before ++ (tlid, program, c_tlid) :: after)%list ->
  for_each_st (visit_landmark junction_state) before world = (world1, None) ->
  dict_get (_landmark2link program) c_tlid = Some links ->
  length links <> 2%nat ->
  length links <> 3%nat ->
  Forall (fun l => exists landmark sumo_state,
              link_resolves program (junction_state tlid) l landmark sumo_state) links ->
  translate_landmark program (junction_state tlid) c_tlid world1
  = Raise unsupported_directions /\
  SumoTLManager_set_states_from_sumo self (fun t => Ok (junction_state t)) world
  = (world1, Some unsupported_directions).
Proof.
  intros Hvisits Hbefore Hlinks H2 H3 Hall.
  pose proof (translate_landmark_unsupported program (junction_state tlid) world1
                c_tlid links Hlinks H2 H3 Hall) as Hraise.
  split; [exact Hraise|].
  rewrite set_states_from_sumo_visits, Hvisits.
  apply (for_each_st_raise _ _ _ _ _ world1 world1); [exact Hbefore|].
  simpl. by rewrite Hraise.
Qed.

Lemma unsupported_directions_end_the_call_witness :
  translate_landmark Scenario.program_4 "rrrrGG" "A" Scenario.world_4
  = Raise unsupported_directions /\
  SumoTLManager_set_states_from_sumo Scenario.manager_4 (fun t => Ok "rrrrGG")
    Scenario.world_4
  = (Scenario.world_4, Some unsupported_directions).
Proof.
  apply (unsupported_directions_end_the_call Scenario.manager_4 (fun _ => "rrrrGG")
           Scenario.world_4 Scenario.world_4 [] [("4", Scenario.program_4, "B")]
           "4" Scenario.program_4 "A" [("4", 0); ("4", 1); ("4", 2); ("4", 3)]).
  - reflexivity.
  - reflexivity.
  - reflexivity.
  - simpl; lia.
  - simpl; lia.
  - repeat constructor; exists "A", "r"; split; reflexivity.
Defined.

(** C4, as stated, fails: landmark "A" with four links comes first and
    raises; landmark "B", whose two green links would turn its light Green,
    is left as it was. *)
Lemma unsupported_directions_skip_the_rest :
  SumoTLManager_set_states_from_sumo Scenario.manager_4 (fun t => Ok "rrrrGG")
    Scenario.world_4
  = (Scenario.world_4, Some unsupported_directions) /\
  translate_landmark Scenario.program_4 "rrrrGG" "B" Scenario.world_4
  = Ok (<["B" := Green]> Scenario.world_4) /\
  Scenario.world_4 !! "B" = Some Unknown.
Proof. repeat split; vm_compute; reflexivity. Qed.

(** ** Loops that fill a set *)

Section SetLoops.
Context {A B C : Type} `{Countable C}.
Variables (f : A -> result B) (g : B -> gset C).
Variable body : A -> gset C -> result (gset C).
Hypothesis body_eq : forall x acc, body x acc = (y ← f x; Ok (acc ∪ g y)).

Lemma for_each_union_elem xs acc res :
  for_each body xs acc = Ok res ->
  forall z, z ∈ res <-> z ∈ acc \/ exists x y, x ∈ xs /\ f x = Ok y /\ z ∈ g y.
Proof.
  revert acc. induction xs as [|x xs IH]; intros acc; simpl.
  - intros [= <-] z. split; [auto|]. intros [Hz|(x & y & Hx & _)]; [done|].
    by apply elem_of_nil in Hx.
  - rewrite body_eq. destruct (f x) as [y|e] eqn:Hfx; simpl; [|discriminate].
    intros Hres z. rewrite (IH _ Hres z), elem_of_union. split.
    + intros [[Hz|Hz]|(x' & y' & Hx' & Hfx' & Hz)]; [by left| |].
      * right. exists x, y. split; [left|done].
      * right. exists x', y'. split; [by right|done].
    + intros [Hz|(x' & y' & Hx' & Hfx' & Hz)]; [by left; left|].
      apply elem_of_cons in Hx' as [->|Hx'].
      * left; right. congruence.
      * right. by exists x', y'.
Qed.

Lemma for_each_union_total xs acc :
  (forall x, x ∈ xs -> exists y, f x = Ok y) ->
  exists res, for_each body xs acc = Ok res.
Proof.
  revert acc. induction xs as [|x xs IH]; intros acc Hall; simpl; [by eexists|].
  rewrite body_eq. destruct (Hall x) as [y ->]; [left|]. simpl.
  apply IH. intros x' Hx'. apply Hall. by right.
Qed.
End SetLoops.

(** ** The state of a landmark *)

Lemma collect_states_elem self signals states :
  collect_states self signals = Ok states ->
  forall c, c ∈ states <-> exists l, l ∈ signals /\ current_link_state self l = Ok c.
Proof.
  intros Hc c. unfold collect_states in Hc.
  rewrite (for_each_union_elem (current_link_state self) (fun c => {[c]}) _
             (fun _ _ => eq_refl) _ _ _ Hc c).
  rewrite elem_of_empty. split.
  - intros [[]|(l & y & Hl & Hy & Hin)]. apply elem_of_singleton in Hin as ->. eauto.
  - intros (l & Hl & Hy). right. exists l, c. by rewrite elem_of_singleton.
Qed.

Lemma collect_states_total self signals :
  (forall l, l ∈ signals -> exists c, current_link_state self l = Ok c) ->
  exists states, collect_states self signals = Ok states.
Proof.
  intros Hall. unfold collect_states.
  by apply (for_each_union_total (current_link_state self) (fun c => {[c]}) _
              (fun _ _ => eq_refl)).
Qed.


Lemma get_state_of_states self landmark_id signals states :
  SumoTLManager_get_all_associated_signals self landmark_id = Ok signals ->
  collect_states self (elements signals) = Ok states ->
  (forall c, states = {[c]} ->
             SumoTLManager_get_state self landmark_id = Ok (Some c, [])) /\
  ((exists c1 c2, c1 ∈ states /\ c2 ∈ states /\ c1 <> c2) ->
   SumoTLManager_get_state self landmark_id
   = Ok (Some SumoSignalState.RED, [different_states_warning landmark_id])) /\
  (states = ∅ -> SumoTLManager_get_state self landmark_id = Ok (None, [])).
Proof.
  intros Hsig Hst. unfold SumoTLManager_get_state. rewrite Hsig. simpl.
  rewrite Hst. simpl. repeat split.
  - intros c ->. by rewrite size_singleton, elements_singleton.
  - intros (c1 & c2 & H1 & H2 & Hne).
    assert (2 <= size states)%nat as Hsize.
    { assert ({[c1; c2]} ⊆ states) as Hsub.
      { intros x [Hx|Hx]%elem_of_union; apply elem_of_singleton in Hx as ->; done. }
      apply subseteq_size in Hsub.
      rewrite size_union in Hsub.
      - by rewrite !size_singleton in Hsub.
      - apply disjoint_singleton_l. by apply not_elem_of_singleton. }
    destruct (Nat.eqb_spec (size states) 1); [lia|].
    destruct (Nat.ltb_spec 1 (size states)); [done | lia].
  - intros ->. by rewrite size_empty.
Qed.


Lemma tl_logic_held self t p tl :
  tl_logic self t p = Ok tl <->
  exists programs, dict_get (_tls self) t = Some programs /\ dict_get programs p = Some tl.
Proof.
  unfold tl_logic, dict_getitem. split.
  - destruct (dict_get (_tls self) t) as [programs|];
      cbn [mbind result_bind rbind of_option]; [|discriminate].
    destruct (dict_get programs p) as [tl'|] eqn:Hp;
      cbn [mbind result_bind rbind of_option]; [|discriminate].
    intros [= <-]. by exists programs.
  - intros (programs & -> & Hp). cbn [mbind result_bind rbind of_option].
    by rewrite Hp.
Qed.





Example get_state_disagreement :
  SumoTLManager_get_state
    (mkSumoTLManager [("918", [("0", Scenario.program_918)])]
                     [("918", "0")] [("918", 0)] false)
    "1032"
  = Ok (Some "G", []) /\
  SumoTLManager_get_state
    (mkSumoTLManager
       [("918", [("0", mkSumoTLLogic "918" ["Gy"]
                         [("1032", [("918", 0); ("918", 1)])]
                         [(("918", 0), "1032"); (("918", 1), "1032")])])]
       [("918", "0")] [("918", 0)] false)
    "1032"
  = Ok (Some "r", [different_states_warning "1032"]) /\
  SumoTLManager_get_state Scenario.manager_918 "none"
  = Ok (None, []).
Proof. repeat split; vm_compute; reflexivity. Qed.

(** ** Switching the traffic lights off *)

Lemma set_link_states_lookup (state : string) (ls : list link) (engine : LinkStates)
    (k : link) :
  foldl (fun e l => traci_setLinkState l state e) engine ls !! k
  = if decide (k ∈ ls) then Some state else engine !! k.
Proof.
  revert engine. induction ls as [|l ls IH]; intros engine; simpl.
  - destruct (decide (k ∈ [])) as [Hin|_]; [by apply elem_of_nil in Hin | done].
  - rewrite IH. unfold traci_setLinkState.
    destruct (decide (k ∈ ls)) as [Hin|Hnin], (decide (k ∈ l :: ls)) as [Hin'|Hnin'];
      try done.
    + exfalso. apply Hnin'. by right.
    + apply elem_of_cons in Hin' as [->|Hin']; [|done].
      by rewrite lookup_insert_eq.
    + rewrite lookup_insert_ne; [done|]. intros <-. apply Hnin'. left.
Qed.

Lemma set_link_states_twice (state : string) (ls : list link) (engine : LinkStates) :
  foldl (fun e l => traci_setLinkState l state e)
        (foldl (fun e l => traci_setLinkState l state e) engine ls) ls
  = foldl (fun e l => traci_setLinkState l state e) engine ls.
Proof.
  apply map_eq. intros k. rewrite !set_link_states_lookup.
  by destruct (decide (k ∈ ls)).
Qed.

Lemma tick_when_off self results :
  _off self = true -> SumoTLManager_tick self results = self.
Proof. intros Hoff. unfold SumoTLManager_tick. by rewrite Hoff. Qed.

Lemma get_all_signals_switched_off self :
  SumoTLManager_get_all_signals (switched_off self) = SumoTLManager_get_all_signals self.
Proof. reflexivity. Qed.

Lemma switch_off_again self engine s' :
  _off self = true ->
  SumoTLManager_switch_off self engine = Ok s' -> fst s' = self.
Proof.
  intros Hoff. unfold SumoTLManager_switch_off.
  destruct (SumoTLManager_get_all_signals self); simpl; [|discriminate].
  intros [= <-]. simpl. destruct self as [tls cp cph off]. simpl in Hoff.
  by rewrite Hoff.
Qed.

(** Once off, no call changes the manager. *)
Lemma run_call_when_off c self engine :
  _off self = true -> fst (run_call c (self, engine)) = self.
Proof.
  intros Hoff. destruct c as [results| |landmark_id state]; simpl.
  - by apply tick_when_off.
  - destruct (SumoTLManager_switch_off self engine) as [s'|e] eqn:Hs; [|done].
    by apply (switch_off_again self engine).
  - by destruct (SumoTLManager_set_state self landmark_id state engine) as [[? ?]|?].
Qed.

Lemma run_calls_when_off calls self engine :
  _off self = true -> fst (run_calls calls (self, engine)) = self.
Proof.
  intros Hoff. revert engine. unfold run_calls.
  induction calls as [|c calls IH]; intros engine; simpl; [done|].
  pose proof (run_call_when_off c self engine Hoff) as Hc.
  destruct (run_call c (self, engine)) as [self' engine']. simpl in Hc. subst self'.
  apply IH.
Qed.

Lemma get_all_signals_elem self signals :
  SumoTLManager_get_all_signals self = Ok signals ->
  forall l, l ∈ signals <->
    exists tlid program_id tl,
      (tlid, program_id) ∈ dict_items (_current_program self) /\
      tl_logic self tlid program_id = Ok tl /\
      l ∈ get_all_signals tl.
Proof.
  intros Hs l. unfold SumoTLManager_get_all_signals in Hs.
  rewrite (for_each_union_elem
             (fun item : string * string => tl_logic self item.1 item.2)
             (fun tl => list_to_set (get_all_signals tl))
             (fun '(tlid, program_id) (signals : gset link) =>
                tl ← tl_logic self tlid program_id;
                Ok (signals ∪ list_to_set (get_all_signals tl)))
             ltac:(by intros [??] ?) _ _ _ Hs l).
  rewrite elem_of_empty. split.
  - intros [[]|([tlid pid] & tl & Hin & Htl & Hl)].
    exists tlid, pid, tl. by rewrite elem_of_list_to_set in Hl.
  - intros (tlid & pid & tl & Hin & Htl & Hl). right.
    exists (tlid, pid), tl. by rewrite elem_of_list_to_set.
Qed.

Lemma get_all_signals_index (tl : SumoTLLogic) (l : link) :
  l ∈ get_all_signals tl <->
  fst l = tlid tl /\ 0 <= snd l < Z.of_nat (get_number_signals tl).
Proof.
  unfold get_all_signals. split.
  - intros Hl. apply list_elem_of_In, in_map_iff in Hl as (i & <- & Hi).
    apply in_seq in Hi. simpl. split; [done | lia].
  - intros [Ht [H0 Hn]]. apply list_elem_of_In, in_map_iff.
    exists (Z.to_nat (snd l)). split.
    + destruct l as [t i]. simpl in *. subst t. f_equal. lia.
    + apply in_seq. lia.
Qed.

(** The signals [switch_off] goes through are the indices below the width
    of the first phase of each current program. *)
Lemma current_signal_elem self signals :
  SumoTLManager_get_all_signals self = Ok signals ->
  forall l, l ∈ signals <-> current_signal self l.
Proof.
  intros Hs l. rewrite (get_all_signals_elem _ _ Hs l). unfold current_signal. split.
  - intros (t & p & tl & Hin & Htl & Hl).
    apply tl_logic_held in Htl as (programs & Ht & Hp).
    apply get_all_signals_index in Hl as [Hfst Hsnd].
    by exists t, p, programs, tl.
  - intros (t & p & programs & tl & Hin & Ht & Hp & Hfst & Hsnd).
    exists t, p, tl. split; [done|]. split.
    + apply tl_logic_held. by exists programs.
    + by apply get_all_signals_index.
Qed.

Lemma get_all_signals_total self :
  (forall t p, (t, p) ∈ dict_items (_current_program self) ->
               exists programs tl,
                 dict_get (_tls self) t = Some programs /\
                 dict_get programs p = Some tl) ->
  exists signals, SumoTLManager_get_all_signals self = Ok signals.
Proof.
  intros Hheld.
  apply (for_each_union_total
           (fun item : string * string => tl_logic self item.1 item.2)
           (fun tl => list_to_set (get_all_signals tl)));
    [by intros [??] ?|].
  intros [t p] Hin. destruct (Hheld t p Hin) as (programs & tl & Ht & Hp).
  exists tl. apply tl_logic_held. by exists programs.
Qed.

(** C6, as the code has it: with the current programs held, [switch_off]
    writes 'O' in the engine to every signal of the current programs, that
    is to every index below the width of the program's first phase, writes
    no other link, and sets [_off].  From then on the manager stays as it
    is under every later call, so each [tick] leaves the recorded current
    program and phase of every traffic light unchanged; a second
    [switch_off] changes neither the manager nor the signal states the
    engine holds.  What [get_state] returns for a landmark is not touched
    by any of this: it is what it was before the first [switch_off]. *)
Theorem switch_off_sticky (self : SumoTLManager) (engine : LinkStates) :
  (forall t p, (t, p) ∈ dict_items (_current_program self) ->
               exists programs tl,
                 dict_get (_tls self) t = Some programs /\
                 dict_get programs p = Some tl) ->
  exists engine' : LinkStates,
    SumoTLManager_switch_off self engine = Ok (switched_off self, engine') /\
    _off (switched_off self) = true /\
    (forall l, current_signal self l -> engine' !! l = Some SumoSignalState.OFF) /\
    (forall l, ~ current_signal self l -> engine' !! l = engine !! l) /\
    (forall results,
        SumoTLManager_tick (switched_off self) results = switched_off self) /\
    (forall calls e,
        let m := fst (run_calls calls (switched_off self, e)) in
        _off m = true /\
        _current_program m = _current_program self /\
        _current_phase m = _current_phase self) /\
    (forall sim step,
        traffic_light_manager sim = switched_off self ->
        traffic_light_manager (SumoSimulation_tick sim step) = switched_off self) /\
    SumoTLManager_switch_off (switched_off self) engine'
    = Ok (switched_off self, engine') /\
    (forall calls e landmark_id,
        SumoTLManager_get_state (fst (run_calls calls (switched_off self, e))) landmark_id
        = SumoTLManager_get_state self landmark_id).
Proof.
  intros Hheld. destruct (get_all_signals_total self Hheld) as [signals Hsig].
  pose proof (current_signal_elem self signals Hsig) as Hsignal.
  set (engine' := foldl (fun e l => traci_setLinkState l SumoSignalState.OFF e)
                        engine (elements signals)).
  exists engine'.
  split; [unfold SumoTLManager_switch_off; by rewrite Hsig|].
  split; [reflexivity|].
  split.
  { intros l Hl. unfold engine'. rewrite set_link_states_lookup.
    rewrite decide_True; [done | by apply elem_of_elements, Hsignal]. }
  split.
  { intros l Hl. unfold engine'. rewrite set_link_states_lookup.
    rewrite decide_False; [done | by rewrite elem_of_elements, Hsignal]. }
  split; [intros results; by apply tick_when_off|].
  split; [intros calls e; simpl; by rewrite run_calls_when_off|].
  split.
  { intros sim step Hm. simpl. rewrite Hm. by apply tick_when_off. }
  split.
  { unfold SumoTLManager_switch_off.
    rewrite get_all_signals_switched_off, Hsig. simpl.
    unfold engine'. by rewrite set_link_states_twice. }
  intros calls e landmark_id. by rewrite run_calls_when_off.
Qed.

Lemma switch_off_sticky_witness :
  exists engine' : LinkStates,
    SumoTLManager_switch_off Scenario.manager_4 ∅
    = Ok (switched_off Scenario.manager_4, engine') /\
    engine' !! ("4", 5) = Some "O" /\
    engine' !! ("4", 6) = None /\
    SumoTLManager_switch_off (switched_off Scenario.manager_4) engine'
    = Ok (switched_off Scenario.manager_4, engine') /\
    SumoTLManager_get_state
      (fst (run_calls [CallTick [("4", ("0", 0))]; CallSwitchOff]
              (switched_off Scenario.manager_4, engine'))) "B"
    = SumoTLManager_get_state Scenario.manager_4 "B".
Proof.
  destruct (switch_off_sticky Scenario.manager_4 ∅)
    as (engine' & Hoff & _ & Hon & Hkeep & _ & _ & _ & Hagain & Hstate).
  - intros t p Hin. apply list_elem_of_singleton in Hin as [= -> ->].
    by exists [("0", Scenario.program_4)], Scenario.program_4.
  - exists engine'. split; [exact Hoff|]. split; [|split; [|split]].
    + apply Hon. exists "4", "0", [("0", Scenario.program_4)], Scenario.program_4.
      split; [left|]. split; [reflexivity|]. split; [reflexivity|].
      split; [reflexivity|]. split; [discriminate | reflexivity].
    + rewrite Hkeep; [reflexivity|].
      intros (t & p & programs & tl & Hin & Ht & Hp & _ & _ & Hlt).
      apply list_elem_of_singleton in Hin as [= -> ->].
      injection Ht as <-. injection Hp as <-. simpl in Hlt. vm_compute in Hlt.
      discriminate Hlt.
    + exact Hagain.
    + apply Hstate.
Defined.

(** C6, as stated, fails: after two calls of [switch_off] on junction
    "918" every signal is at 'O' in the engine, while [get_state] still
    returns 'G' for landmark "1032", a state that translates to Green and
    not to Off. *)
Lemma switch_off_twice_landmark_state :
  exists engine1 engine2 : LinkStates,
    SumoTLManager_switch_off Scenario.manager_918 ∅
    = Ok (switched_off Scenario.manager_918, engine1) /\
    SumoTLManager_switch_off (switched_off Scenario.manager_918) engine1
    = Ok (switched_off Scenario.manager_918, engine2) /\
    engine2 !! ("918", 0) = Some SumoSignalState.OFF /\
    engine2 !! ("918", 1) = Some SumoSignalState.OFF /\
    SumoTLManager_get_state (switched_off Scenario.manager_918) "1032"
    = Ok (Some SumoSignalState.GREEN, []) /\
    SumoSignalState.GREEN <> SumoSignalState.OFF /\
    get_carla_traffic_light_state SumoSignalState.GREEN <> Off.
Proof.
  exists (snd (run_calls [CallSwitchOff] (Scenario.manager_918, ∅))),
         (snd (run_calls [CallSwitchOff; CallSwitchOff] (Scenario.manager_918, ∅))).
  split; [vm_compute; reflexivity|]. split; [vm_compute; reflexivity|].
  split; [vm_compute; reflexivity|]. split; [vm_compute; reflexivity|].
  split; [vm_compute; reflexivity|]. split; discriminate.
Qed.

(** A landmark whose links lie outside the phase strings: [switch_off]
    does not write them. *)
Example switch_off_links_outside :
  SumoTLLogic_init "918" ["GG"] Junctions.params_outside = Ok Junctions.program_outside /\
  get_associated_signals Junctions.program_outside "1032" = [("918", -1); ("918", -2)] /\
  snd (run_calls [CallSwitchOff; CallSwitchOff] (Junctions.manager_outside, ∅))
  !! ("918", -1) = None /\
  snd (run_calls [CallSwitchOff; CallSwitchOff] (Junctions.manager_outside, ∅))
  !! ("918", 1) = Some "O".
Proof. repeat split; vm_compute; reflexivity. Qed.

(** [get_state] reads the phases stored at construction: switching off, or
    any later write to the signals, does not change what it returns. *)
Lemma get_state_ignores_switch_off self landmark_id :
  SumoTLManager_get_state (switched_off self) landmark_id
  = SumoTLManager_get_state self landmark_id.
Proof. reflexivity. Qed.

Example switch_off_tick_get_state :
  SumoTLManager_tick (switched_off Scenario.manager_918) [("918", ("0", 3))]
  = switched_off Scenario.manager_918 /\
  SumoTLManager_tick Scenario.manager_918 [("918", ("0", 3))]
  = mkSumoTLManager [("918", [("0", Scenario.program_918)])]
                    [("918", "0")] [("918", 3)] false /\
  SumoTLManager_tick Scenario.manager_918 [("918", ("online", 3))]
  = Scenario.manager_918 /\
  SumoTLManager_get_state (switched_off Scenario.manager_918) "1032"
  = Ok (Some "G", []).
Proof. repeat split; vm_compute; reflexivity. Qed.

(** ** Vehicles seen and gone *)

Lemma removed_filter_difference (previous current : list string) :
  (list_to_set (filter (fun v => v ∉ current) previous) : gset string)
  = list_to_set previous ∖ list_to_set current.
Proof.
  apply set_eq. intros v.
  rewrite elem_of_difference, !elem_of_list_to_set, list_elem_of_filter. tauto.
Qed.

(** C7, as the code has it: the script recomputes the removed vehicles,
    as previous minus current, only in a round where the number of
    vehicles has dropped, and keeps the earlier list otherwise; the
    current ids replace the previous ones for the next round; it computes
    no spawned vehicles.  [SumoSimulation.tick] takes the spawned and the
    destroyed actors as the sets of the engine's departed and arrived
    lists. *)
Theorem removal_check_round (vehicle_id_list : list string) (t : Tracking) :
  current_vehicle_id_list (sample_traci_round vehicle_id_list t) = vehicle_id_list /\
  current_vehicle_count (sample_traci_round vehicle_id_list t)
  = Z.of_nat (length vehicle_id_list) /\
  (Z.of_nat (length vehicle_id_list) < current_vehicle_count t ->
   (list_to_set (removed_vehicles (sample_traci_round vehicle_id_list t)) : gset string)
   = list_to_set (current_vehicle_id_list t) ∖ list_to_set vehicle_id_list) /\
  (current_vehicle_count t <= Z.of_nat (length vehicle_id_list) ->
   removed_vehicles (sample_traci_round vehicle_id_list t) = removed_vehicles t) /\
  (forall sim step,
      spawned_actors (SumoSimulation_tick sim step) = list_to_set (step_departed step) /\
      destroyed_actors (SumoSimulation_tick sim step) = list_to_set (step_arrived step)).
Proof.
  unfold sample_traci_round. simpl.
  split; [done|]. split; [done|]. split; [|split].
  - intros Hlt. apply Z.ltb_lt in Hlt. rewrite Hlt.
    apply removed_filter_difference.
  - intros Hge. apply Z.ltb_ge in Hge. by rewrite Hge.
  - done.
Qed.

Lemma removal_check_round_witness :
  (list_to_set (removed_vehicles
                  (sample_traci_round ["a"; "c"]
                     (sample_traci_round ["a"; "b"; "c"] tracking_start))) : gset string)
  = list_to_set ["a"; "b"; "c"] ∖ list_to_set ["a"; "c"].
Proof.
  refine (proj1 (proj2 (proj2 (removal_check_round ["a"; "c"]
                   (sample_traci_round ["a"; "b"; "c"] tracking_start)))) _).
  simpl. lia.
Defined.

Example removal_check_drop :
  removed_vehicles (sample_traci_round ["a"; "c"]
                      (sample_traci_round ["a"; "b"; "c"] tracking_start)) = ["b"].
Proof. reflexivity. Qed.

(** C7, as stated, fails: from {a, b, c} to {a, c, d} the number of
    vehicles does not drop, and the script reports no removed vehicle
    where the set difference is {b}. *)
Lemma removal_check_same_count :
  current_vehicle_id_list (sample_traci_round ["a"; "b"; "c"] tracking_start)
  = ["a"; "b"; "c"] /\
  removed_vehicles (sample_traci_round ["a"; "c"; "d"]
                      (sample_traci_round ["a"; "b"; "c"] tracking_start)) = [] /\
  refresh_as_specified {[ "a"; "b"; "c" ]} {[ "a"; "c"; "d" ]} = ({[ "d" ]}, {[ "b" ]}) /\
  (list_to_set (removed_vehicles (sample_traci_round ["a"; "c"; "d"]
                  (sample_traci_round ["a"; "b"; "c"] tracking_start))) : gset string)
  <> snd (refresh_as_specified {[ "a"; "b"; "c" ]} {[ "a"; "c"; "d" ]}).
Proof.
  split; [reflexivity|]. split; [reflexivity|].
  assert (Hspec : refresh_as_specified {[ "a"; "b"; "c" ]} {[ "a"; "c"; "d" ]}
                  = ({[ "d" ]}, {[ "b" ]})) by (vm_compute; reflexivity).
  split; [exact Hspec|].
  rewrite Hspec. simpl. intros Heq.
  assert (Hb : "b" ∈ ({[ "b" ]} : gset string)) by (by apply elem_of_singleton).
  rewrite <- Heq in Hb. by apply elem_of_empty in Hb.
Qed.

(** ** Spawning actors *)

Lemma seqZ_increasing (m : Z) (k : nat) : StronglySorted Z.lt (seqZ m (Z.of_nat k)).
Proof.
  revert m. induction k as [|k IH]; intros m.
  - constructor.
  - rewrite seqZ_cons by lia.
    replace (Z.pred (Z.of_nat (S k))) with (Z.of_nat k) by lia.
    constructor; [apply IH|].
    apply Forall_forall. intros x Hx. apply elem_of_seqZ in Hx. lia.
Qed.

Section SpawnFacts.
Variable INVALID_ACTOR_ID : pyvalue.

Lemma actor_id_of_inj n m : actor_id_of n = actor_id_of m -> n = m.
Proof. unfold actor_id_of. simpl. intros [= Heq]. by apply (inj pretty). Qed.

(** What a call does to the object: the counter goes up by one exactly
    when the call returns the id it made; nothing else is written. *)
Lemma spawn_actor_counter traci self type_id color :
  match spawned_id INVALID_ACTOR_ID traci self type_id color with
  | Some s =>
      s = actor_id_of (_sequential_id self) /\
      spawn_self (spawn_actor INVALID_ACTOR_ID traci self type_id color)
      = set_sequential_id self (_sequential_id self + 1)
  | None =>
      spawn_self (spawn_actor INVALID_ACTOR_ID traci self type_id color) = self
  end.
Proof.
  unfold spawned_id, spawn_actor, actor_id_of.
  destruct (traci (VehicleAdd _ _ _)) as [|e].
  - destruct color as [color|]; simpl; [|done].
    by destruct (traci (VehicleSetColor _ _)).
  - by destruct e.
Qed.

(** The ids returned by the successful calls of a run carry the numbers
    from the counter's value onwards, one after the other. *)
Lemma spawned_ids_consecutive reqs self :
  exists k : nat,
    spawned_ids INVALID_ACTOR_ID reqs self
    = actor_id_of <$> seqZ (_sequential_id self) (Z.of_nat k).
Proof.
  revert self. induction reqs as [|r reqs IH]; intros self; simpl.
  - by exists 0%nat.
  - pose proof (spawn_actor_counter (req_traci r) self (req_type_id r) (req_color r))
      as Hc.
    destruct (spawned_id _ _ _ _ _) as [s|].
    + destruct Hc as [-> ->]. destruct (IH (set_sequential_id self (_sequential_id self + 1)))
        as [k Hk].
      exists (S k). rewrite Hk. simpl.
      rewrite (seqZ_cons _ (Z.of_nat (S k))) by lia.
      replace (Z.pred (Z.of_nat (S k))) with (Z.of_nat k) by lia.
      by replace (Z.succ (_sequential_id self)) with (_sequential_id self + 1) by lia.
    + rewrite Hc. apply IH.
Qed.

Lemma spawn_actor_rejected traci self type_id color error :
  traci (VehicleAdd (actor_id_of (_sequential_id self)) "carla_route" type_id)
  = Fails (TraCIException error) ->
  spawn_actor INVALID_ACTOR_ID traci self type_id color
  = mkSpawnOutcome self
      [VehicleAdd (actor_id_of (_sequential_id self)) "carla_route" type_id]
      [LogRecord ERROR "Spawn sumo actor failed: %s" [error]]
      (Ok INVALID_ACTOR_ID).
Proof. intros Hrej. unfold spawn_actor. fold (actor_id_of (_sequential_id self)). by rewrite Hrej. Qed.

(** A call the engine accepts: the id made from the counter is returned
    and the counter moves on by one. *)
Lemma spawn_actor_accepted traci self type_id color :
  engine_accepts traci (_sequential_id self) type_id color = true ->
  spawn_result (spawn_actor INVALID_ACTOR_ID traci self type_id color)
  = Ok (PyStr (actor_id_of (_sequential_id self))) /\
  spawn_log (spawn_actor INVALID_ACTOR_ID traci self type_id color) = [] /\
  spawn_self (spawn_actor INVALID_ACTOR_ID traci self type_id color)
  = set_sequential_id self (_sequential_id self + 1).
Proof.
  unfold engine_accepts, spawn_actor. fold (actor_id_of (_sequential_id self)).
  destruct (traci (VehicleAdd _ _ _)) as [|e]; [|discriminate].
  destruct color as [color|]; [|done].
  by destruct (traci (VehicleSetColor _ _)).
Qed.

(** No call of a session lowers the counter. *)
Lemma run_session_counter calls self :
  _sequential_id self <= _sequential_id (run_session INVALID_ACTOR_ID calls self).
Proof.
  revert self. unfold run_session.
  induction calls as [|c calls IH]; intros self; simpl; [lia|].
  etransitivity; [|apply IH].
  destruct c as [step|r]; simpl; [lia|].
  pose proof (spawn_actor_counter (req_traci r) self (req_type_id r) (req_color r)) as Hc.
  destruct (spawned_id _ _ _ _ _).
  - destruct Hc as [_ ->]. simpl. lia.
  - rewrite Hc. lia.
Qed.

(** C8: a call of [spawn_actor] that the engine accepts returns the id
    made from the counter, "carla" followed by the counter's value, and
    moves the counter on by one.  Of two accepted calls on the same
    object, with any ticks and other calls of [spawn_actor] in between,
    the later one returns the id of a strictly greater number; and the ids
    returned by the successful calls of a run carry strictly increasing
    numbers.  When the engine rejects the request the call logs the
    error and returns [INVALID_ACTOR_ID], it does not raise, the object is
    as it was and can be ticked as before. *)
Theorem spawn_actor_increasing_or_invalid :
  (forall traci self type_id color,
      engine_accepts traci (_sequential_id self) type_id color = true ->
      spawn_result (spawn_actor INVALID_ACTOR_ID traci self type_id color)
      = Ok (PyStr (actor_id_of (_sequential_id self))) /\
      spawn_log (spawn_actor INVALID_ACTOR_ID traci self type_id color) = [] /\
      _sequential_id (spawn_self (spawn_actor INVALID_ACTOR_ID traci self type_id color))
      = _sequential_id self + 1) /\
  (forall (between : list session_call) (r1 r2 : spawn_request) (self : SumoSimulation),
      let o1 := spawn_actor INVALID_ACTOR_ID (req_traci r1) self
                  (req_type_id r1) (req_color r1) in
      let self2 := run_session INVALID_ACTOR_ID between (spawn_self o1) in
      let o2 := spawn_actor INVALID_ACTOR_ID (req_traci r2) self2
                  (req_type_id r2) (req_color r2) in
      engine_accepts (req_traci r1) (_sequential_id self)
        (req_type_id r1) (req_color r1) = true ->
      engine_accepts (req_traci r2) (_sequential_id self2)
        (req_type_id r2) (req_color r2) = true ->
      spawn_result o1 = Ok (PyStr (actor_id_of (_sequential_id self))) /\
      spawn_result o2 = Ok (PyStr (actor_id_of (_sequential_id self2))) /\
      _sequential_id self < _sequential_id self2) /\
  (forall reqs self,
      exists ns : list Z,
        spawned_ids INVALID_ACTOR_ID reqs self = actor_id_of <$> ns /\
        StronglySorted Z.lt ns /\
        Forall (fun n => _sequential_id self <= n) ns) /\
  (forall traci self type_id color error,
      traci (VehicleAdd (actor_id_of (_sequential_id self)) "carla_route" type_id)
      = Fails (TraCIException error) ->
      spawn_result (spawn_actor INVALID_ACTOR_ID traci self type_id color)
      = Ok INVALID_ACTOR_ID /\
      spawn_log (spawn_actor INVALID_ACTOR_ID traci self type_id color)
      = [LogRecord ERROR "Spawn sumo actor failed: %s" [error]] /\
      spawn_self (spawn_actor INVALID_ACTOR_ID traci self type_id color) = self /\
      forall step,
        SumoSimulation_tick
          (spawn_self (spawn_actor INVALID_ACTOR_ID traci self type_id color)) step
        = SumoSimulation_tick self step).
Proof.
  split; [|split; [|split]].
  - intros traci self type_id color Hacc.
    destruct (spawn_actor_accepted traci self type_id color Hacc) as (Hres & Hlog & Hself).
    split; [exact Hres|]. split; [exact Hlog|]. by rewrite Hself.
  - intros between r1 r2 self o1 self2 o2 Hacc1 Hacc2.
    destruct (spawn_actor_accepted _ _ _ _ Hacc1) as (Hres1 & _ & Hself1).
    destruct (spawn_actor_accepted _ _ _ _ Hacc2) as (Hres2 & _ & _).
    split; [exact Hres1|]. split; [exact Hres2|].
    pose proof (run_session_counter between (spawn_self o1)) as Hle.
    fold self2 in Hle. unfold o1 in Hle at 1. rewrite Hself1 in Hle. simpl in Hle. lia.
  - intros reqs self. destruct (spawned_ids_consecutive reqs self) as [k Hk].
    exists (seqZ (_sequential_id self) (Z.of_nat k)).
    split; [exact Hk|]. split; [apply seqZ_increasing|].
    apply Forall_forall. intros n Hn. apply elem_of_seqZ in Hn. lia.
  - intros traci self type_id color error Hrej.
    by rewrite (spawn_actor_rejected _ _ _ _ _ Hrej).
Qed.

(** C10: a rejected request leaves the object, and with it the counter,
    as it was, so the next call offers the same id to the engine; and
    the ids returned by the successful calls on a fresh object are
    "carla0", "carla1", ... without a gap. *)
Theorem spawn_actor_rejected_keeps_counter :
  (forall traci self type_id color error,
      traci (VehicleAdd (actor_id_of (_sequential_id self)) "carla_route" type_id)
      = Fails (TraCIException error) ->
      spawn_self (spawn_actor INVALID_ACTOR_ID traci self type_id color) = self /\
      forall traci' type_id' color',
        head (spawn_calls
                (spawn_actor INVALID_ACTOR_ID traci'
                   (spawn_self (spawn_actor INVALID_ACTOR_ID traci self type_id color))
                   type_id' color'))
        = Some (VehicleAdd (actor_id_of (_sequential_id self)) "carla_route" type_id')) /\
  (forall reqs self,
      _sequential_id self = 0 ->
      exists k : nat,
        spawned_ids INVALID_ACTOR_ID reqs self
        = actor_id_of <$> seqZ 0 (Z.of_nat k)).
Proof.
  split.
  - intros traci self type_id color error Hrej.
    rewrite (spawn_actor_rejected _ _ _ _ _ Hrej). simpl. split; [done|].
    intros traci' type_id' color'. unfold spawn_actor.
    fold (actor_id_of (_sequential_id self)).
    destruct (traci' (VehicleAdd _ _ _)) as [|[]]; try done.
    destruct color' as [c|]; [|done]. by destruct (traci' (VehicleSetColor _ _)).
  - intros reqs self H0. rewrite <- H0. apply spawned_ids_consecutive.
Qed.
End SpawnFacts.

(** Two accepted calls with a rejected one and a tick in between, and the
    rejected call itself. *)
Lemma spawn_actor_increasing_or_invalid_witness :
  (spawn_result (spawn_actor (PyInt (-1)) SpawnScenario.traci SpawnScenario.fresh
                   "vehicle.tesla.model3" None)
   = Ok (PyStr (actor_id_of 0)) /\
   spawn_result
     (spawn_actor (PyInt (-1)) SpawnScenario.traci
        (run_session (PyInt (-1))
           [SessionSpawn (mkSpawnRequest SpawnScenario.traci "bicycle" None);
            SessionTick (mkStepReport [] ["carla0"] [])]
           (spawn_self (spawn_actor (PyInt (-1)) SpawnScenario.traci SpawnScenario.fresh
                          "vehicle.tesla.model3" None)))
        "vehicle.audi.a2" (Some "255,0,0"))
   = Ok (PyStr (actor_id_of 1)) /\
   0 < 1) /\
  spawn_result (spawn_actor (PyInt (-1)) SpawnScenario.traci SpawnScenario.fresh
                  "bicycle" None)
  = Ok (PyInt (-1)).
Proof.
  split.
  - exact (proj1 (proj2 (spawn_actor_increasing_or_invalid (PyInt (-1))))
             [SessionSpawn (mkSpawnRequest SpawnScenario.traci "bicycle" None);
              SessionTick (mkStepReport [] ["carla0"] [])]
             (mkSpawnRequest SpawnScenario.traci "vehicle.tesla.model3" None)
             (mkSpawnRequest SpawnScenario.traci "vehicle.audi.a2" (Some "255,0,0"))
             SpawnScenario.fresh eq_refl eq_refl).
  - refine (proj1 (proj2 (proj2 (proj2 (spawn_actor_increasing_or_invalid (PyInt (-1)))))
                     SpawnScenario.traci SpawnScenario.fresh "bicycle" None
                     "Vehicle type 'bicycle' is not known" _)).
    reflexivity.
Defined.

Lemma spawn_actor_rejected_keeps_counter_witness :
  exists k : nat,
    spawned_ids (PyInt (-1)) SpawnScenario.requests SpawnScenario.fresh
    = actor_id_of <$> seqZ 0 (Z.of_nat k).
Proof.
  refine (proj2 (spawn_actor_rejected_keeps_counter (PyInt (-1)))
            SpawnScenario.requests SpawnScenario.fresh _).
  reflexivity.
Defined.

Example spawn_run :
  spawned_ids (PyInt (-1)) SpawnScenario.requests SpawnScenario.fresh
  = ["carla0"; "carla1"] /\
  map spawn_result (spawn_all (PyInt (-1)) SpawnScenario.requests SpawnScenario.fresh)
  = [Ok (PyStr "carla0"); Ok (PyInt (-1)); Ok (PyStr "carla1")] /\
  map spawn_calls (spawn_all (PyInt (-1)) SpawnScenario.requests SpawnScenario.fresh)
  = [[VehicleAdd "carla0" "carla_route" "vehicle.tesla.model3"];
     [VehicleAdd "carla1" "carla_route" "bicycle"];
     [VehicleAdd "carla1" "carla_route" "vehicle.audi.a2";
      VehicleSetColor "carla1" ["255"; "0"; "0"]]].
Proof. repeat split; vm_compute; reflexivity. Qed.

(** * Further properties *)

(** ** Dictionaries, continued *)

Section PyDictMore.
Context {K V : Type} `{EqDecision K}.
Implicit Types (d : pydict K V) (k : K) (v : V).

Lemma dict_get_None_keys d k : dict_get d k = None <-> k ∉ dict_keys d.
Proof.
  unfold dict_keys. induction d as [|[k0 v0] d IH]; simpl.
  - split; [intros _; apply not_elem_of_nil | done].
  - destruct (decide (k = k0)) as [->|Hk].
    + split; [discriminate|]. intros Hn. exfalso. apply Hn. left.
    + rewrite IH. rewrite not_elem_of_cons. tauto.
Qed.

Lemma dict_get_Some_item d k v : dict_get d k = Some v -> (k, v) ∈ dict_items d.
Proof.
  unfold dict_items. induction d as [|[k0 v0] d IH]; simpl; [discriminate|].
  destruct (decide (k = k0)) as [->|Hk].
  - intros [= ->]. left.
  - intros Hd. right. by apply IH.
Qed.

Lemma dict_set_item d k v x :
  x ∈ dict_items (dict_set d k v) -> x = (k, v) \/ x ∈ dict_items d.
Proof.
  unfold dict_items. induction d as [|[k0 v0] d IH]; simpl.
  - intros Hx. apply list_elem_of_singleton in Hx. by left.
  - destruct (decide (k = k0)) as [->|Hk].
    + intros [->|Hx]%elem_of_cons; [by left|]. right. by right.
    + intros [->|Hx]%elem_of_cons; [right; left|].
      destruct (IH Hx) as [->|Hin]; [by left|]. right. by right.
Qed.

Lemma dict_keys_set d k v :
  dict_keys (dict_set d k v)
  = if decide (k ∈ dict_keys d) then dict_keys d else (dict_keys d ++ [k])%list.
Proof.
  unfold dict_keys. induction d as [|[k0 v0] d IH]; simpl.
  - destruct (decide (k ∈ [])) as [Hin|_]; [by apply elem_of_nil in Hin | done].
  - destruct (decide (k ∈ k0 :: map fst d)) as [Hin|Hnin];
      destruct (decide (k = k0)) as [->|Hk]; simpl; try done.
    + rewrite IH. apply elem_of_cons in Hin as [?|Hin]; [done|].
      destruct (decide (k ∈ map fst d)); done.
    + exfalso. apply Hnin. left.
    + rewrite IH. apply not_elem_of_cons in Hnin as [_ Hnin].
      destruct (decide (k ∈ map fst d)); done.
Qed.
End PyDictMore.

(** A list of pairs with pairwise different first components is a
    partial function. *)
Lemma nodup_fst_agree {A B} (l : list (A * B)) (x : A) (y1 y2 : B) :
  NoDup (fst <$> l) -> (x, y1) ∈ l -> (x, y2) ∈ l -> y1 = y2.
Proof.
  induction l as [|[x0 y0] l IH]; simpl; intros Hnd H1 H2.
  - by apply elem_of_nil in H1.
  - apply NoDup_cons in Hnd as [Hx0 Hnd].
    assert (Hfst : forall y, (x, y) ∈ l -> x ∈ fst <$> l).
    { intros y Hy. apply list_elem_of_fmap. by exists (x, y). }
    apply elem_of_cons in H1 as [H1|H1], H2 as [H2|H2].
    + congruence.
    + exfalso. apply Hx0. injection H1 as <- _. by apply (Hfst y2).
    + exfalso. apply Hx0. injection H2 as <- _. by apply (Hfst y1).
    + by apply IH.
Qed.


(** ** Building a traffic light program *)

Lemma links_of_snoc tlid c parsed i lm :
  links_of tlid c (parsed ++ [(i, lm)])
  = (links_of tlid c parsed ++ if decide (lm = c) then [(tlid, i)] else [])%list.
Proof.
  unfold links_of. rewrite filter_app, fmap_app. f_equal.
  rewrite filter_cons, filter_nil. simpl. by destruct (decide (lm = c)).
Qed.

Lemma landmark_of_snoc i parsed i' lm :
  landmark_of i (parsed ++ [(i', lm)])
  = if decide (i' = i) then Some lm else landmark_of i parsed.
Proof.
  unfold landmark_of. rewrite filter_app, filter_cons, filter_nil. simpl.
  destruct (decide (i' = i)); [by rewrite last_snoc | by rewrite app_nil_r].
Qed.

Lemma add_parameter_key tlid key lm lm2l l2l :
  SumoTLLogic_add_parameter tlid (key, lm) (lm2l, l2l)
  = (link_index ← link_index_of_key key;
     let lm2l' :=
       match dict_get lm2l lm with
       | None => dict_set lm2l lm []
       | Some _ => lm2l
       end in
     Ok (dict_set lm2l' lm
           (default [] (dict_get lm2l' lm) ++ [(tlid, link_index)])%list,
         dict_set l2l (tlid, link_index) lm)).
Proof.
  unfold SumoTLLogic_add_parameter, link_index_of_key.
  by destruct (list_getitem (str_split ":" key) 1).
Qed.

Lemma init_loop tlid parameters :
  forall done lm2l l2l,
    (forall c, default [] (dict_get lm2l c) = links_of tlid c done) ->
    (forall c ls, dict_get lm2l c = Some ls -> ls <> []) ->
    (forall l, dict_get l2l l
               = if decide (fst l = tlid) then landmark_of (snd l) done else None) ->
    match parse_parameters parameters with
    | Raise e =>
        for_each (SumoTLLogic_add_parameter tlid) parameters (lm2l, l2l) = Raise e
    | Ok parsed =>
        exists lm2l' l2l',
          for_each (SumoTLLogic_add_parameter tlid) parameters (lm2l, l2l)
          = Ok (lm2l', l2l') /\
          (forall c, default [] (dict_get lm2l' c) = links_of tlid c (done ++ parsed)) /\
          (forall c ls, dict_get lm2l' c = Some ls -> ls <> []) /\
          (forall l, dict_get l2l' l
                     = if decide (fst l = tlid)
                       then landmark_of (snd l) (done ++ parsed) else None)
    end.
Proof.
  induction parameters as [|[key lm] rest IH]; intros done lm2l l2l H1 H2 H3.
  - exists lm2l, l2l. rewrite app_nil_r. done.
  - cbn [for_each parse_parameters]. rewrite add_parameter_key.
    destruct (link_index_of_key key) as [i|e];
      cbn [mbind result_bind rbind]; [|done].
    set (lm2l0 := match dict_get lm2l lm with
                  | None => dict_set lm2l lm []
                  | Some _ => lm2l
                  end).
    assert (Hold : default [] (dict_get lm2l0 lm) = links_of tlid lm done).
    { rewrite <- H1. unfold lm2l0. destruct (dict_get lm2l lm) eqn:Hg.
      - by rewrite Hg.
      - by rewrite dict_get_set_eq. }
    assert (Hother : forall c, c <> lm -> dict_get lm2l0 c = dict_get lm2l c).
    { intros c Hc. unfold lm2l0. destruct (dict_get lm2l lm); [done|].
      by rewrite dict_get_set_ne. }
    specialize (IH (done ++ [(i, lm)])%list
                  (dict_set lm2l0 lm (default [] (dict_get lm2l0 lm) ++ [(tlid, i)])%list)
                  (dict_set l2l (tlid, i) lm)).
    destruct (parse_parameters rest) as [parsed|e]; cbn [mbind result_bind rbind];
      [replace (done ++ (i, lm) :: parsed)%list
         with ((done ++ [(i, lm)]) ++ parsed)%list by (by rewrite <- app_assoc)|];
      apply IH.
    all: try (intros c; rewrite links_of_snoc;
              destruct (decide (lm = c)) as [<-|Hc];
              [ by rewrite dict_get_set_eq, Hold
              | rewrite dict_get_set_ne, Hother, app_nil_r by done; apply H1 ]).
    all: try (intros c ls; destruct (decide (lm = c)) as [<-|Hc];
              [ rewrite dict_get_set_eq; intros [= <-];
                by destruct (default [] (dict_get lm2l0 lm))
              | rewrite dict_get_set_ne, Hother by done; apply H2 ]).
    all: intros [t j]; simpl; rewrite landmark_of_snoc;
      destruct (decide ((tlid, i) = (t, j))) as [[= <- <-]|Hne];
      [ by rewrite dict_get_set_eq, !decide_True
      | rewrite dict_get_set_ne, H3 by done; simpl;
        destruct (decide (t = tlid)) as [->|]; [|done];
        rewrite decide_False; [done | congruence] ].
Qed.

Lemma links_of_elem tlid c parsed l :
  l ∈ links_of tlid c parsed <-> exists i, l = (tlid, i) /\ (i, c) ∈ parsed.
Proof.
  unfold links_of. rewrite list_elem_of_fmap. split.
  - intros ([i c'] & -> & Hin). apply list_elem_of_filter in Hin as [Hc Hin].
    simpl in Hc. subst c'. by exists i.
  - intros (i & -> & Hin). exists (i, c). split; [done|].
    by apply list_elem_of_filter.
Qed.

Lemma links_of_nil tlid c parsed :
  links_of tlid c parsed = [] <-> c ∉ snd <$> parsed.
Proof.
  split.
  - intros Hnil Hin. apply list_elem_of_fmap in Hin as ([i c'] & Hc & Hin).
    simpl in Hc. subst c'.
    assert (Hl : (tlid, i) ∈ links_of tlid c parsed)
      by (apply links_of_elem; by exists i).
    rewrite Hnil in Hl. by apply elem_of_nil in Hl.
  - intros Hnin. destruct (links_of tlid c parsed) as [|l ls] eqn:Heq; [done|].
    exfalso. apply Hnin.
    assert (Hl : l ∈ links_of tlid c parsed) by (rewrite Heq; left).
    apply links_of_elem in Hl as (i & _ & Hin).
    apply list_elem_of_fmap. by exists (i, c).
Qed.

Lemma landmark_of_Some i parsed lm :
  landmark_of i parsed = Some lm -> (i, lm) ∈ parsed.
Proof.
  unfold landmark_of. destruct (last _) as [[i' lm']|] eqn:Hlast; [|discriminate].
  intros [= <-]. apply last_Some in Hlast as [l' Hl'].
  assert (Hin : (i', lm') ∈ filter (fun x : Z * string => fst x = i) parsed).
  { rewrite Hl'. apply elem_of_app. right. left. }
  apply list_elem_of_filter in Hin as [Hi Hin]. simpl in Hi. by subst i'.
Qed.

Lemma landmark_of_is_Some i parsed lm :
  (i, lm) ∈ parsed -> is_Some (landmark_of i parsed).
Proof.
  intros Hin. unfold landmark_of.
  assert (Hf : (i, lm) ∈ filter (fun x : Z * string => fst x = i) parsed)
    by (by apply list_elem_of_filter).
  destruct (filter _ parsed) as [|x l] using rev_ind; [by apply elem_of_nil in Hf|].
  rewrite last_snoc. by eexists.
Qed.

(** The outcome of [SumoTLLogic.__init__] by the outcome of reading the keys. *)
Lemma init_by_parsed (id : string) (phases : list string)
    (parameters : pydict string string) :
  match parse_parameters parameters with
  | Raise e => SumoTLLogic_init id phases parameters = Raise e
  | Ok parsed =>
      exists program,
        SumoTLLogic_init id phases parameters = Ok program /\
        tlid program = id /\
        states program = phases /\
        (forall c, get_associated_signals program c = links_of id c parsed) /\
        (forall c ls, dict_get (_landmark2link program) c = Some ls -> ls <> []) /\
        (forall t i, dict_get (_link2landmark program) (t, i)
                     = if decide (t = id) then landmark_of i parsed else None) /\
        (forall c, c ∈ get_all_landmarks program <-> c ∈ snd <$> parsed)
  end.
Proof.
  unfold SumoTLLogic_init, dict_items.
  assert (Hloop := fun A B => init_loop id parameters [] [] [] (fun c => eq_refl) A B).
  specialize (Hloop ltac:(discriminate)).
  specialize (Hloop ltac:(by intros l; simpl; destruct (decide (l.1 = id)))).
  destruct (parse_parameters parameters) as [parsed|e].
  - destruct Hloop as (lm2l & l2l & -> & H1 & H2 & H3).
    simpl in H1, H3.
    eexists. split; [reflexivity|]. simpl.
    split; [done|]. split; [done|]. split; [exact H1|]. split; [exact H2|].
    split; [intros t i; apply (H3 (t, i))|].
    intros c. unfold get_all_landmarks. simpl.
    destruct (decide (c ∈ snd <$> parsed)) as [Hin|Hnin].
    + split; [done|]. intros _.
      destruct (decide (c ∈ dict_keys lm2l)) as [|Hk]; [done|].
      apply dict_get_None_keys in Hk.
      exfalso. revert Hin. apply (links_of_nil id). by rewrite <- H1, Hk.
    + split; [|done]. intros Hk. exfalso.
      apply (links_of_nil id) in Hnin. rewrite <- H1 in Hnin.
      destruct (dict_get lm2l c) as [ls|] eqn:Hg.
      * simpl in Hnin. by apply (H2 c ls).
      * by apply dict_get_None_keys in Hg.
  - by rewrite Hloop.
Qed.

Lemma list_getitem_raises {A} (l : list A) i e :
  list_getitem l i = Raise e -> e = IndexError.
Proof.
  unfold list_getitem. destruct (py_position _ _); [|by intros [= <-]].
  destruct (l !! _); simpl; [discriminate | by intros [= <-]].
Qed.

Lemma py_int_raises s e : py_int s = Raise e -> e = ValueError.
Proof.
  unfold py_int.
  match goal with
  | |- context [let '(_, _) := ?x in _] => destruct x as [neg digits]
  end.
  destruct (parse_digits 0 false digits); [discriminate | by intros [= <-]].
Qed.

Lemma parse_parameters_raises parameters e :
  parse_parameters parameters = Raise e ->
  exists key landmark_id,
    (key, landmark_id) ∈ parameters /\
    link_index_of_key key = Raise e /\
    (e = IndexError \/ e = ValueError).
Proof.
  induction parameters as [|[key lm] rest IH]; simpl; [discriminate|].
  destruct (link_index_of_key key) as [i|e'] eqn:Hkey; simpl.
  - destruct (parse_parameters rest) as [parsed|e'']; simpl; [discriminate|].
    intros [= <-]. destruct (IH eq_refl) as (k & l & Hin & Hk & He).
    exists k, l. split; [by right | done].
  - intros [= <-]. exists key, lm. split; [left|]. split; [done|].
    unfold link_index_of_key in Hkey.
    destruct (list_getitem (str_split ":" key) 1) as [field|e0] eqn:Hf; simpl in Hkey.
    + right. by apply py_int_raises in Hkey.
    + left. injection Hkey as <-. by apply list_getitem_raises in Hf.
Qed.

(** X1: [SumoTLLogic.__init__] reads the parameter keys in order, each
    as [int(key.split(':')[1])], and raises at the first key it cannot
    read: [IndexError] for a key without a colon, [ValueError] for a field
    that is no integer.  The keys are strings of code points below 256 of
    at most 4300 characters, a length up to which every interpreter reads
    a numeral.  When every key reads, the links of a landmark are the
    links of the parameters naming it, in parameter order, hence never an
    empty list; a link's landmark is the one of the last parameter with
    its index; and a landmark is known exactly when some parameter names
    it. *)
Theorem SumoTLLogic_init_parsed (id : string) (phases : list string)
    (parameters : pydict string string) :
  Forall (fun item : string * string => (String.length (fst item) <= 4300)%nat)
         parameters ->
  match parse_parameters parameters with
  | Raise e =>
      SumoTLLogic_init id phases parameters = Raise e /\
      (e = IndexError \/ e = ValueError) /\
      exists key landmark_id,
        (key, landmark_id) ∈ parameters /\ link_index_of_key key = Raise e
  | Ok parsed =>
      exists program,
        SumoTLLogic_init id phases parameters = Ok program /\
        tlid program = id /\
        states program = phases /\
        (forall c, get_associated_signals program c = links_of id c parsed) /\
        (forall c ls, dict_get (_landmark2link program) c = Some ls -> ls <> []) /\
        (forall t i, dict_get (_link2landmark program) (t, i)
                     = if decide (t = id) then landmark_of i parsed else None) /\
        (forall c, c ∈ get_all_landmarks program <-> c ∈ snd <$> parsed)
  end.
Proof.
  intros _.
  pose proof (init_by_parsed id phases parameters) as Hinit.
  destruct (parse_parameters parameters) as [parsed|e] eqn:Hparse; [exact Hinit|].
  split; [exact Hinit|].
  destruct (parse_parameters_raises parameters e Hparse) as (key & lm & Hin & Hkey & He).
  split; [exact He|]. by exists key, lm.
Qed.

(** The blanks [int] strips are not all below 128: a no-break space
    (160) or a next-line character (133) around the index is stripped, a
    file separator (28) is not. *)
Example keys_with_blanks :
  link_index_of_key ("linkSignalID:" +:+ String (ascii_of_nat 160) "1") = Ok 1 /\
  link_index_of_key ("linkSignalID:" +:+ String (ascii_of_nat 133) " 7 ") = Ok 7 /\
  link_index_of_key ("linkSignalID:" +:+ String (ascii_of_nat 28) "1") = Raise ValueError /\
  SumoTLLogic_init "918" ["GG"]
    [("linkSignalID:" +:+ String (ascii_of_nat 160) "1", "1032")]
  = Ok (mkSumoTLLogic "918" ["GG"] [("1032", [("918", 1)])] [(("918", 1), "1032")]).
Proof. repeat split. Qed.

(** What [parse_parameters] raises: a key without a colon raises
    [IndexError], a field that is no integer raises [ValueError]. *)
Example init_errors :
  SumoTLLogic_init "918" ["GG"] [("linkSignalID:0", "1032"); ("linkSignalID", "1032")]
  = Raise IndexError /\
  SumoTLLogic_init "918" ["GG"] [("linkSignalID:zero", "1032")] = Raise ValueError /\
  SumoTLLogic_init "918" ["GG"] [("anything:1:more", "1032")]
  = Ok (mkSumoTLLogic "918" ["GG"] [("1032", [("918", 1)])] [(("918", 1), "1032")]).
Proof. repeat split. Qed.

Lemma init_links (id : string) (phases : list string)
    (parameters : pydict string string) (program : SumoTLLogic) :
  SumoTLLogic_init id phases parameters = Ok program ->
  exists parsed,
    tlid program = id /\
    (forall c links l,
        dict_get (_landmark2link program) c = Some links -> l ∈ links ->
        exists i, l = (id, i) /\ (i, c) ∈ parsed) /\
    (forall t i, dict_get (_link2landmark program) (t, i)
                 = if decide (t = id) then landmark_of i parsed else None) /\
    (forall c, get_associated_signals program c = links_of id c parsed).
Proof.
  intros Hinit. pose proof (init_by_parsed id phases parameters) as Hp.
  destruct (parse_parameters parameters) as [parsed|e]; [|congruence].
  destruct Hp as (program' & Hinit' & Ht & _ & Hlinks & _ & Hl2l & _).
  assert (program' = program) as -> by congruence.
  exists parsed. split; [done|]. split; [|by split].
  intros c links l Hc Hl. apply (links_of_elem id c parsed).
  rewrite <- Hlinks. unfold get_associated_signals. by rewrite Hc.
Qed.

Lemma init_links_have_landmarks (id : string) (phases : list string)
    (parameters : pydict string string) (program : SumoTLLogic) :
  SumoTLLogic_init id phases parameters = Ok program ->
  links_have_landmarks program.
Proof.
  intros Hinit. destruct (init_links id phases parameters program Hinit)
    as (parsed & _ & Hin & Hl2l & _).
  intros c links l Hc Hl. destruct (Hin c links l Hc Hl) as (i & -> & Hi).
  rewrite Hl2l, decide_True by done. by apply (landmark_of_is_Some i parsed c).
Qed.

(** X2: in a program built by [SumoTLLogic.__init__] the two maps agree:
    every link listed under a landmark carries the id of the traffic light
    and has an entry in [_link2landmark], and every link of
    [_link2landmark] is listed under the landmark it maps to. *)
Theorem SumoTLLogic_init_maps_agree (id : string) (phases : list string)
    (parameters : pydict string string) (program : SumoTLLogic) :
  SumoTLLogic_init id phases parameters = Ok program ->
  links_have_landmarks program /\
  (forall c links l,
      dict_get (_landmark2link program) c = Some links -> l ∈ links -> fst l = id) /\
  (forall l landmark_id,
      dict_get (_link2landmark program) l = Some landmark_id ->
      l ∈ get_associated_signals program landmark_id).
Proof.
  intros Hinit. destruct (init_links id phases parameters program Hinit)
    as (parsed & _ & Hin & Hl2l & Hlinks).
  split; [by apply (init_links_have_landmarks id phases parameters)|]. split.
  - intros c links l Hc Hl. by destruct (Hin c links l Hc Hl) as (i & -> & _).
  - intros [t i] lm Hlm. rewrite Hl2l in Hlm.
    destruct (decide (t = id)) as [->|]; [|discriminate].
    rewrite Hlinks. apply links_of_elem. exists i. split; [done|].
    by apply landmark_of_Some.
Qed.

Lemma SumoTLLogic_init_maps_agree_witness :
  links_have_landmarks Scenario.program_725 /\
  (forall c links l,
      dict_get (_landmark2link Scenario.program_725) c = Some links ->
      l ∈ links -> fst l = "725") /\
  (forall l landmark_id,
      dict_get (_link2landmark Scenario.program_725) l = Some landmark_id ->
      l ∈ get_associated_signals Scenario.program_725 landmark_id).
Proof.
  apply (SumoTLLogic_init_maps_agree "725" ["rrrrrrrrryGr"] Scenario.params_725).
  reflexivity.
Defined.

(** ** The signals of a program *)

(** X3: [get_all_signals] lists the link indices 0, 1, ... below the
    width of the first phase once each, under the id of the traffic light;
    a program without phases has no signals. *)
Theorem get_all_signals_range (self : SumoTLLogic) :
  (forall l, l ∈ get_all_signals self <->
             fst l = tlid self /\ 0 <= snd l < Z.of_nat (get_number_signals self)) /\
  NoDup (get_all_signals self) /\
  length (get_all_signals self) = get_number_signals self /\
  (states self = [] -> get_all_signals self = []).
Proof.
  unfold get_all_signals. split; [|split; [|split]].
  - intros l. split.
    + intros Hl. apply list_elem_of_In, in_map_iff in Hl as (i & <- & Hi).
      apply in_seq in Hi. simpl. split; [done | lia].
    + intros [Ht [H0 Hn]]. apply list_elem_of_In, in_map_iff.
      exists (Z.to_nat (snd l)). split.
      * destruct l as [t i]. simpl in *. subst t. f_equal. lia.
      * apply in_seq. lia.
  - assert (Inj (=) (=) (fun i : nat => (tlid self, Z.of_nat i))) as Hinj.
    { intros i j [= Hij]. lia. }
    apply (NoDup_fmap_2 _ _ (NoDup_seq 0 (get_number_signals self))).
  - by rewrite length_map, length_seq.
  - intros Hs. unfold get_number_signals. by rewrite Hs.
Qed.

(** ** Building the manager *)

Lemma for_each_invariant {A S} (P : S -> Prop) (body : A -> S -> result S) xs :
  (forall x s s', x ∈ xs -> P s -> body x s = Ok s' -> P s') ->
  forall s s', P s -> for_each body xs s = Ok s' -> P s'.
Proof.
  induction xs as [|x xs IH]; intros Hstep s s' Hs; simpl.
  - by intros [= <-].
  - destruct (body x s) as [s1|e] eqn:Hb; simpl; [|discriminate].
    apply IH; [|by apply (Hstep x s); [left|..]].
    intros y t t' Hy. apply Hstep. by right.
Qed.

Lemma add_tl_programs (r : TLReport) programs :
  for_each (fun tllogic programs =>
              tl ← SumoTLLogic_init (report_tlid r) (phase_states tllogic)
                     (parameters tllogic);
              Ok (dict_set programs (programID tllogic) tl))
           (report_logics r) [] = Ok programs ->
  forall program_id program,
    (program_id, program) ∈ dict_items programs ->
    exists phases params,
      SumoTLLogic_init (report_tlid r) phases params = Ok program.
Proof.
  apply (for_each_invariant
           (fun programs : pydict string SumoTLLogic =>
              forall program_id program,
                (program_id, program) ∈ dict_items programs ->
                exists phases params,
                  SumoTLLogic_init (report_tlid r) phases params = Ok program)).
  - intros tllogic s s' _ Hs Hbody pid p Hin.
    destruct (SumoTLLogic_init _ _ _) as [tl|e] eqn:Hinit; simpl in Hbody; [|discriminate].
    injection Hbody as <-. apply dict_set_item in Hin as [[= -> ->]|Hin]; eauto.
  - intros pid p Hin. by apply elem_of_nil in Hin.
Qed.

Lemma add_tl_keeps (r : TLReport) (self self' : SumoTLManager) :
  SumoTLManager_add_tl r self = Ok self' ->
  _off self' = _off self /\
  dict_keys (_tls self') = dict_keys (dict_set (_tls self) (report_tlid r) ([] : pydict string SumoTLLogic)) /\
  dict_keys (_current_program self') = dict_keys (dict_set (_current_program self) (report_tlid r) "") /\
  dict_keys (_current_phase self') = dict_keys (dict_set (_current_phase self) (report_tlid r) 0) /\
  dict_get (_current_program self') (report_tlid r) = Some (report_program r) /\
  dict_get (_current_phase self') (report_tlid r) = Some (report_phase r) /\
  (forall tlid programs program_id program,
      (tlid, programs) ∈ dict_items (_tls self') ->
      (program_id, program) ∈ dict_items programs ->
      (tlid, programs) ∈ dict_items (_tls self) \/
      tlid = report_tlid r /\
      exists phases params, SumoTLLogic_init tlid phases params = Ok program).
Proof.
  unfold SumoTLManager_add_tl.
  destruct (for_each _ (report_logics r) []) as [programs|e] eqn:Hp; simpl; [|discriminate].
  intros [= <-]. simpl. rewrite !dict_keys_set, !dict_get_set_eq.
  repeat (split; [done|]).
  intros t ps pid p Hin Hpin. apply dict_set_item in Hin as [[= -> ->]|Hin]; [|by left].
  right. split; [done|]. by apply (add_tl_programs r programs Hp pid).
Qed.

(** X4: a manager built by [SumoTLManager.__init__] is switched on; its
    three dictionaries have the same keys in the same order, which are the
    reported traffic lights; it records for each light the program and
    phase last reported for it; and each program it holds was built by
    [SumoTLLogic.__init__] under the id of its traffic light, so its
    links have landmarks. *)
Theorem SumoTLManager_init_invariants (reports : list TLReport) (self : SumoTLManager) :
  SumoTLManager_init reports = Ok self ->
  _off self = false /\
  dict_keys (_current_program self) = dict_keys (_tls self) /\
  dict_keys (_current_phase self) = dict_keys (_tls self) /\
  (forall t, t ∈ dict_keys (_tls self) <-> t ∈ report_tlid <$> reports) /\
  (NoDup (report_tlid <$> reports) ->
   forall r, r ∈ reports ->
             dict_get (_current_program self) (report_tlid r) = Some (report_program r) /\
             dict_get (_current_phase self) (report_tlid r) = Some (report_phase r)) /\
  programs_have_landmarks self /\
  (forall t programs program_id program,
      (t, programs) ∈ dict_items (_tls self) ->
      (program_id, program) ∈ dict_items programs -> tlid program = t).
Proof.
  unfold SumoTLManager_init.
  assert (Hgen : forall self0 : SumoTLManager,
    for_each SumoTLManager_add_tl reports self0 = Ok self ->
    _off self = _off self0 /\
    (dict_keys (_current_program self0) = dict_keys (_tls self0) ->
     dict_keys (_current_program self) = dict_keys (_tls self)) /\
    (dict_keys (_current_phase self0) = dict_keys (_tls self0) ->
     dict_keys (_current_phase self) = dict_keys (_tls self)) /\
    (forall t, t ∈ dict_keys (_tls self) <->
               t ∈ dict_keys (_tls self0) \/ t ∈ report_tlid <$> reports) /\
    (forall t, t ∉ report_tlid <$> reports ->
               dict_get (_current_program self) t = dict_get (_current_program self0) t /\
               dict_get (_current_phase self) t = dict_get (_current_phase self0) t) /\
    (NoDup (report_tlid <$> reports) ->
     forall r, r ∈ reports ->
               dict_get (_current_program self) (report_tlid r) = Some (report_program r) /\
               dict_get (_current_phase self) (report_tlid r) = Some (report_phase r)) /\
    (forall t programs program_id program,
        (t, programs) ∈ dict_items (_tls self) ->
        (program_id, program) ∈ dict_items programs ->
        (t, programs) ∈ dict_items (_tls self0) \/
        exists phases params, SumoTLLogic_init t phases params = Ok program)).
  { induction reports as [|r reports IH]; intros self0; simpl.
    - intros [= <-].
      split; [done|]. split; [done|]. split; [done|].
      split.
      { intros t. split; [tauto|]. intros [?|Hin]; [done | by apply elem_of_nil in Hin]. }
      split; [done|].
      split; [intros _ r Hr; by apply elem_of_nil in Hr|].
      intros t programs pid p Hin _. by left.
    - destruct (SumoTLManager_add_tl r self0) as [self1|e] eqn:Hadd; simpl; [|discriminate].
      intros Hrest.
      destruct (add_tl_keeps r self0 self1 Hadd)
        as (Hoff & Hk & Hkp & Hkph & Hcp & Hcph & Hprog).
      assert (Hother : forall t, t <> report_tlid r ->
                dict_get (_current_program self1) t = dict_get (_current_program self0) t /\
                dict_get (_current_phase self1) t = dict_get (_current_phase self0) t).
      { intros t Ht. unfold SumoTLManager_add_tl in Hadd.
        destruct (for_each _ (report_logics r) []); simpl in Hadd; [|discriminate].
        injection Hadd as <-. simpl. by rewrite !dict_get_set_ne. }
      destruct (IH self1 Hrest)
        as (Hoff' & Hp' & Hph' & Hkeys' & Hsame' & Hrec' & Hprog').
      split; [congruence|].
      split.
      { intros Heq. apply Hp'. rewrite Hk, Hkp, !dict_keys_set, Heq.
        by destruct (decide (report_tlid r ∈ dict_keys (_tls self0))). }
      split.
      { intros Heq. apply Hph'. rewrite Hk, Hkph, !dict_keys_set, Heq.
        by destruct (decide (report_tlid r ∈ dict_keys (_tls self0))). }
      split.
      { intros t. rewrite Hkeys', Hk, dict_keys_set, elem_of_cons.
        destruct (decide (report_tlid r ∈ dict_keys (_tls self0))) as [Hin|Hnin].
        - split; [tauto|]. intros [?|[->|?]]; tauto.
        - rewrite elem_of_app, list_elem_of_singleton. tauto. }
      split.
      { intros t Ht. apply not_elem_of_cons in Ht as [Hne Ht].
        destruct (Hsame' t Ht) as [-> ->]. by apply Hother. }
      split.
      { intros Hnd r' Hr'. apply NoDup_cons in Hnd as [Hnin Hnd].
        apply elem_of_cons in Hr' as [->|Hr']; [|by apply Hrec'].
        destruct (Hsame' (report_tlid r) Hnin) as [-> ->]. done. }
      intros t programs pid p Hin Hpin.
      destruct (Hprog' t programs pid p Hin Hpin) as [Hold|Hnew]; [|by right].
      destruct (Hprog t programs pid p Hold Hpin) as [?|[-> ?]]; [by left | by right]. }
  intros Hinit.
  destruct (Hgen _ Hinit) as (Hoff & Hp & Hph & Hkeys & _ & Hrec & Hprog).
  simpl in *.
  split; [done|]. split; [by apply Hp|]. split; [by apply Hph|].
  split.
  { intros t. rewrite Hkeys. split; [|tauto]. intros [Hin|?]; [|done].
    by apply elem_of_nil in Hin. }
  split; [exact Hrec|].
  split.
  - intros t programs pid p Hin Hpin.
    destruct (Hprog t programs pid p Hin Hpin) as [Hnil|(phases & params & Hi)].
    + by apply elem_of_nil in Hnil.
    + by apply (init_links_have_landmarks t phases params).
  - intros t programs pid p Hin Hpin.
    destruct (Hprog t programs pid p Hin Hpin) as [Hnil|(phases & params & Hi)].
    + by apply elem_of_nil in Hnil.
    + by destruct (init_links t phases params p Hi) as (parsed & Ht & _).
Qed.

Lemma SumoTLManager_init_invariants_witness :
  programs_have_landmarks Scenario.manager_4 /\
  dict_keys (_current_program Scenario.manager_4) = dict_keys (_tls Scenario.manager_4).
Proof.
  destruct (SumoTLManager_init_invariants
              [mkTLReport "4" [mkTLProgramLogic "0" ["rrrrGG"] Scenario.params_4] "0" 0]
              Scenario.manager_4)
    as (_ & Hkeys & _ & _ & _ & Hwf & _).
  - reflexivity.
  - exact (conj Hwf Hkeys).
Defined.

(** ** Queries over the current programs *)

Lemma tl_logic_raises self t p e : tl_logic self t p = Raise e -> e = KeyError.
Proof.
  unfold tl_logic, dict_getitem.
  destruct (dict_get (_tls self) t) as [programs|]; simpl; [|by intros [= <-]].
  destruct (dict_get programs p); simpl; [discriminate | by intros [= <-]].
Qed.

Section SetLoopsRaise.
Context {A B C : Type} `{Countable C}.
Variables (f : A -> result B) (g : B -> gset C).
Variable body : A -> gset C -> result (gset C).
Hypothesis body_eq : forall x acc, body x acc = (y ← f x; Ok (acc ∪ g y)).

(** The loop raises what its first failing round raises. *)
Lemma for_each_union_raise (E : exn) xs acc :
  (forall x e, x ∈ xs -> f x = Raise e -> e = E) ->
  (exists x e, x ∈ xs /\ f x = Raise e) ->
  for_each body xs acc = Raise E.
Proof.
  revert acc. induction xs as [|x xs IH]; intros acc Hall (x0 & e0 & Hin & Hf).
  - by apply elem_of_nil in Hin.
  - simpl. rewrite body_eq. destruct (f x) as [y|e] eqn:Hfx; simpl.
    + apply IH; [intros x' e' Hx'; apply Hall; by right|].
      apply elem_of_cons in Hin as [->|Hin]; [congruence|]. by exists x0, e0.
    + f_equal. apply (Hall x); [left | done].
Qed.
End SetLoopsRaise.

(** X5: [get_all_signals], [get_all_landmarks] and
    [get_all_associated_signals] return when every traffic light's
    recorded current program is one the manager holds; when some current
    program is not held they raise [KeyError], and so do [get_state],
    [set_state] and [switch_off], which leave the engine untouched. *)
Theorem current_programs_must_be_known (self : SumoTLManager) :
  ((forall t p, (t, p) ∈ dict_items (_current_program self) ->
                exists tl, tl_logic self t p = Ok tl) ->
   (exists signals, SumoTLManager_get_all_signals self = Ok signals) /\
   (exists landmarks, SumoTLManager_get_all_landmarks self = Ok landmarks) /\
   (forall c, exists signals,
         SumoTLManager_get_all_associated_signals self c = Ok signals)) /\
  ((exists t p e, (t, p) ∈ dict_items (_current_program self) /\
                  tl_logic self t p = Raise e) ->
   SumoTLManager_get_all_signals self = Raise KeyError /\
   SumoTLManager_get_all_landmarks self = Raise KeyError /\
   (forall c, SumoTLManager_get_all_associated_signals self c = Raise KeyError) /\
   (forall c, SumoTLManager_get_state self c = Raise KeyError) /\
   (forall c state engine, SumoTLManager_set_state self c state engine = Raise KeyError) /\
   (forall engine, SumoTLManager_switch_off self engine = Raise KeyError)).
Proof.
  split.
  - intros Hknown.
    assert (Hitem : forall x : string * string,
               x ∈ dict_items (_current_program self) ->
               exists tl, tl_logic self x.1 x.2 = Ok tl).
    { intros [t p] Hx. by apply Hknown. }
    split; [|split; [|intros c]].
    + apply (for_each_union_total
               (fun item : string * string => tl_logic self item.1 item.2)
               (fun tl => list_to_set (get_all_signals tl))); [by intros [??] ?|done].
    + apply (for_each_union_total
               (fun item : string * string => tl_logic self item.1 item.2)
               (fun tl => list_to_set (get_all_landmarks tl))); [by intros [??] ?|done].
    + apply (for_each_union_total
               (fun item : string * string => tl_logic self item.1 item.2)
               (fun tl => list_to_set (get_associated_signals tl c)));
        [by intros [??] ?|done].
  - intros (t & p & e & Hin & Hraise).
    assert (Hall : forall (x : string * string) e',
               x ∈ dict_items (_current_program self) ->
               tl_logic self x.1 x.2 = Raise e' -> e' = KeyError).
    { intros x e' _. apply tl_logic_raises. }
    assert (Hex : exists (x : string * string) e',
               x ∈ dict_items (_current_program self) /\
               tl_logic self x.1 x.2 = Raise e').
    { by exists (t, p), e. }
    assert (Hsig : SumoTLManager_get_all_signals self = Raise KeyError).
    { apply (for_each_union_raise
               (fun item : string * string => tl_logic self item.1 item.2)
               (fun tl => list_to_set (get_all_signals tl))); [by intros [??] ?|done..]. }
    assert (Hass : forall c,
               SumoTLManager_get_all_associated_signals self c = Raise KeyError).
    { intros c.
      apply (for_each_union_raise
               (fun item : string * string => tl_logic self item.1 item.2)
               (fun tl => list_to_set (get_associated_signals tl c)));
        [by intros [??] ?|done..]. }
    split; [exact Hsig|]. split.
    { apply (for_each_union_raise
               (fun item : string * string => tl_logic self item.1 item.2)
               (fun tl => list_to_set (get_all_landmarks tl))); [by intros [??] ?|done..]. }
    split; [exact Hass|]. split; [|split].
    + intros c. unfold SumoTLManager_get_state. by rewrite Hass.
    + intros c state engine. unfold SumoTLManager_set_state. by rewrite Hass.
    + intros engine. unfold SumoTLManager_switch_off. by rewrite Hsig.
Qed.

(** ** Ticks of the manager *)

Lemma tick_step_fields (m : SumoTLManager) tl_id current_program current_phase :
  let m' := if negb (String.eqb current_program "online") then
              mkSumoTLManager (_tls m)
                (dict_set (_current_program m) tl_id current_program)
                (dict_set (_current_phase m) tl_id current_phase)
                (_off m)
            else m in
  _tls m' = _tls m /\ _off m' = _off m.
Proof. simpl. by destruct (negb _). Qed.

(** X6: a tick of a manager that is not switched off keeps the programs
    and the flag, and records for every traffic light the program and
    phase of its last report whose program is not 'online'; a light
    without such a report keeps what was recorded.  The reported program
    is recorded whether or not the manager holds it. *)
Theorem tick_records_last_report (self : SumoTLManager) (results : TLSubscriptions) :
  _off self = false ->
  _tls (SumoTLManager_tick self results) = _tls self /\
  _off (SumoTLManager_tick self results) = false /\
  forall t,
    match last (filter (fun r : string * (string * Z) =>
                          fst r = t /\ fst (snd r) <> "online") results) with
    | Some (_, (program, phase)) =>
        dict_get (_current_program (SumoTLManager_tick self results)) t = Some program /\
        dict_get (_current_phase (SumoTLManager_tick self results)) t = Some phase
    | None =>
        dict_get (_current_program (SumoTLManager_tick self results)) t
        = dict_get (_current_program self) t /\
        dict_get (_current_phase (SumoTLManager_tick self results)) t
        = dict_get (_current_phase self) t
    end.
Proof.
  intros Hoff. unfold SumoTLManager_tick. rewrite Hoff. simpl.
  induction results as [|[tl_id [program phase]] results IH] using rev_ind.
  - simpl. done.
  - rewrite foldl_app. simpl.
    destruct IH as (Htls & Hoff' & IH).
    set (m := foldl _ self results) in *.
    split; [|split].
    + by destruct (negb _).
    + by destruct (negb _).
    + intros t. specialize (IH t).
      rewrite filter_app, filter_cons, filter_nil. simpl.
      destruct (String.eqb_spec program "online") as [->|Hne]; simpl.
      * rewrite decide_False by tauto. by rewrite app_nil_r.
      * destruct (decide (tl_id = t)) as [->|Hnt].
        -- rewrite decide_True by done. rewrite last_snoc.
           by rewrite !dict_get_set_eq.
        -- rewrite decide_False by tauto. rewrite app_nil_r.
           by rewrite !dict_get_set_ne.
Qed.

Lemma tick_records_last_report_witness :
  dict_get (_current_program
              (SumoTLManager_tick Scenario.manager_918
                 [("918", ("1", 2)); ("918", ("online", 5))])) "918" = Some "1" /\
  dict_get (_current_phase
              (SumoTLManager_tick Scenario.manager_918
                 [("918", ("1", 2)); ("918", ("online", 5))])) "918" = Some 2.
Proof.
  exact (proj2 (proj2 (tick_records_last_report Scenario.manager_918
                         [("918", ("1", 2)); ("918", ("online", 5))] eq_refl)) "918").
Defined.

(** After such a tick the queries fail: program "1" is not held. *)
Example tick_to_unknown_program :
  SumoTLManager_get_state
    (SumoTLManager_tick Scenario.manager_918 [("918", ("1", 2))]) "1032"
  = Raise KeyError /\
  SumoTLManager_get_state
    (SumoTLManager_tick Scenario.manager_918 [("918", ("0", 2))]) "1032"
  = Raise IndexError.
Proof. split; vm_compute; reflexivity. Qed.

(** ** Writing the state of a landmark *)

(** X7: [set_state] writes the state to the signals of the landmark under
    the current programs and to no other signal, and returns [True]; for
    a landmark without signals it writes nothing; and of two calls for the
    same landmark the later one decides. *)
Theorem set_state_writes (self : SumoTLManager) (landmark_id state : string)
    (engine : LinkStates) (signals : gset link) :
  SumoTLManager_get_all_associated_signals self landmark_id = Ok signals ->
  exists engine' : LinkStates,
    SumoTLManager_set_state self landmark_id state engine = Ok (true, engine') /\
    (forall l, l ∈ signals -> engine' !! l = Some state) /\
    (forall l, l ∉ signals -> engine' !! l = engine !! l) /\
    (signals = ∅ -> engine' = engine) /\
    (forall state2,
        SumoTLManager_set_state self landmark_id state2 engine'
        = SumoTLManager_set_state self landmark_id state2 engine).
Proof.
  intros Hsig. unfold SumoTLManager_set_state. rewrite Hsig. simpl.
  eexists. split; [reflexivity|].
  split; [|split; [|split]].
  - intros l Hl. rewrite set_link_states_lookup.
    rewrite decide_True; [done | by apply elem_of_elements].
  - intros l Hl. rewrite set_link_states_lookup.
    rewrite decide_False; [done | by rewrite elem_of_elements].
  - intros ->. by rewrite elements_empty.
  - intros state2. do 2 f_equal. apply map_eq. intros k.
    rewrite !set_link_states_lookup. by destruct (decide (k ∈ elements signals)).
Qed.

Lemma set_state_writes_witness :
  exists engine' : LinkStates,
    SumoTLManager_set_state Scenario.manager_918 "1032" "r" ∅ = Ok (true, engine') /\
    engine' !! ("918", 1) = Some "r" /\
    engine' !! ("918", 2) = None.
Proof.
  destruct (set_state_writes Scenario.manager_918 "1032" "r" ∅
              {[ ("918", 0); ("918", 1) ]})
    as (engine' & Hset & Hin & Hout & _).
  - vm_compute. reflexivity.
  - exists engine'. split; [exact Hset|]. split.
    + apply Hin. apply elem_of_union. right. by apply elem_of_singleton.
    + rewrite Hout; [done|]. vm_compute. intros [=].
Defined.

(** ** What a translation does to the world *)

Lemma for_each_st_invariant {A S} (P : S -> Prop) (body : A -> S -> S * option exn) xs :
  (forall x s s' e, x ∈ xs -> P s -> body x s = (s', e) -> P s') ->
  forall s s' e, P s -> for_each_st body xs s = (s', e) -> P s'.
Proof.
  induction xs as [|x xs IH]; intros Hstep s s' e Hs; simpl.
  - by intros [= <- _].
  - destruct (body x s) as [s1 [e1|]] eqn:Hb.
    + intros [= <- _]. apply (Hstep x s s1 (Some e1)); [left|done..].
    + apply IH; [|apply (Hstep x s s1 None); [left|done..]].
      intros y t t' e' Hy. apply Hstep. by right.
Qed.

Lemma str_getitem_raises s i e : str_getitem s i = Raise e -> e = IndexError.
Proof.
  unfold str_getitem. destruct (py_position _ _); [|by intros [= <-]].
  destruct (String.get _ _); [discriminate | by intros [= <-]].
Qed.

(** The loop over the sorted links: the actor it ends with, if any, is a
    light of the world found under the landmark of one of the links, and
    there is one state character per link. *)
Lemma gather_link_states_result program state (world : World) ls :
  forall tl0 acc0 tl acc,
    for_each (fun junction_plus_idx '(_, link2sumostate) =>
                landmark ← dict_getitem (_link2landmark program) junction_plus_idx;
                let carla_tl_to_change :=
                  get_traffic_light_from_opendrive_id world landmark in
                sumo_state ← str_getitem state (snd junction_plus_idx);
                Ok (carla_tl_to_change, (link2sumostate ++ [sumo_state])%list))
             ls (tl0, acc0) = Ok (tl, acc) ->
    length acc = (length acc0 + length ls)%nat /\
    (ls <> [] -> tl = None \/
                 exists l landmark, l ∈ ls /\
                   dict_get (_link2landmark program) l = Some landmark /\
                   tl = Some landmark /\ is_Some (world !! landmark)).
Proof.
  induction ls as [|l ls IH]; intros tl0 acc0 tl acc; simpl.
  - intros [= <- <-]. split; [lia | done].
  - unfold dict_getitem.
    destruct (dict_get (_link2landmark program) l) as [lm|] eqn:Hlm; simpl; [|discriminate].
    destruct (str_getitem state l.2) as [s|e]; simpl; [|discriminate].
    intros Hrest. destruct (IH _ _ _ _ Hrest) as [Hlen Htl].
    rewrite length_app in Hlen. simpl in Hlen. split; [lia|]. intros _.
    destruct ls as [|l' ls'].
    + simpl in Hrest. injection Hrest as <- <-.
      unfold get_traffic_light_from_opendrive_id.
      destruct (world !! lm) eqn:Hw; [|by left].
      right. exists l, lm. split; [left|]. rewrite Hw. eauto.
    + destruct Htl as [->|(l0 & lm0 & Hin & H0 & -> & Hw)]; [done | by left|].
      right. exists l0, lm0. split; [by right | done].
Qed.

Lemma gather_link_states_raises program state (world : World) ls e :
  (forall l, l ∈ ls -> is_Some (dict_get (_link2landmark program) l)) ->
  gather_link_states program state world ls = Raise e -> e = IndexError.
Proof.
  unfold gather_link_states. generalize (@None string, @nil string).
  induction ls as [|l ls IH]; intros [tl0 acc0] Hall; simpl; [discriminate|].
  unfold dict_getitem. destruct (Hall l) as [lm ->]; [left|]. simpl.
  destruct (str_getitem state l.2) as [s|e'] eqn:Hs; simpl.
  - apply IH. intros l' Hl'. apply Hall. by right.
  - intros [= <-]. by apply str_getitem_raises in Hs.
Qed.

Lemma carla_set_state_result actor st (world world' : World) :
  carla_set_state actor st world = Ok world' ->
  exists id, actor = Some id /\ world' = <[id := st]> world.
Proof. destruct actor as [id|]; simpl; [|discriminate]. intros [= <-]. eauto. Qed.

(** A landmark's translation that returns has set the state of one light
    the world had already, found under the landmark of one of its links. *)
Lemma translate_landmark_result program state c_tlid (world world' : World) :
  translate_landmark program state c_tlid world = Ok world' ->
  exists landmark st,
    landmark ∈ dict_values (_link2landmark program) /\
    is_Some (world !! landmark) /\
    world' = <[landmark := st]> world.
Proof.
  unfold translate_landmark, dict_getitem.
  destruct (dict_get (_landmark2link program) c_tlid) as [links|]; simpl; [|discriminate].
  destruct (gather_link_states _ _ _ _) as [[tl acc]|e] eqn:Hg; simpl; [|discriminate].
  unfold gather_link_states in Hg.
  apply gather_link_states_result in Hg as [Hlen Htl].
  assert (Hset : forall st w',
             (length (py_sorted snd links) =? 3)%nat = true \/
             (length (py_sorted snd links) =? 2)%nat = true ->
             carla_set_state tl st world = Ok w' ->
             exists landmark st,
               landmark ∈ dict_values (_link2landmark program) /\
               is_Some (world !! landmark) /\ w' = <[landmark := st]> world).
  { intros st w' Hn Hc. apply carla_set_state_result in Hc as (id & -> & ->).
    destruct Htl as [?|(l & lm & Hl & Hlm & [= <-] & Hw)]; [|done|].
    { intros Hnil. rewrite Hnil in Hn. simpl in Hn. by destruct Hn. }
    exists id, st. split; [|done].
    apply dict_get_Some_item in Hlm. unfold dict_values, dict_items in *.
    apply list_elem_of_In, in_map_iff. exists (l, id). split; [done|].
    by apply list_elem_of_In. }
  destruct (length (py_sorted snd links) =? 3)%nat eqn:H3.
  - destruct (list_getitem acc 1) as [s|]; simpl; [|discriminate]. apply Hset. by left.
  - destruct (length (py_sorted snd links) =? 2)%nat eqn:H2; [|discriminate].
    destruct (bool_decide _); [apply Hset; by right|].
    destruct (list_getitem acc 0) as [s|]; simpl; [|discriminate]. apply Hset. by right.
Qed.

(** X8: whatever its outcome, [set_states_from_sumo] neither adds a light
    to the world nor removes one, and it leaves alone every light that is
    not the landmark of a link in some program of the manager. *)
Theorem set_states_from_sumo_lights (self : SumoTLManager)
    (getRedYellowGreenState : string -> result string) (world world' : World)
    (e : option exn) :
  SumoTLManager_set_states_from_sumo self getRedYellowGreenState world = (world', e) ->
  dom world' = dom world /\
  forall id,
    (forall tlid programs program_id program,
        (tlid, programs) ∈ dict_items (_tls self) ->
        (program_id, program) ∈ dict_items (programs : pydict string SumoTLLogic) ->
        id ∉ dict_values (_link2landmark program)) ->
    world' !! id = world !! id.
Proof.
  unfold SumoTLManager_set_states_from_sumo.
  set (P := fun w : World =>
              dom w = dom world /\
              forall id,
                (forall tlid programs program_id program,
                    (tlid, programs) ∈ dict_items (_tls self) ->
                    (program_id, program) ∈ dict_items (programs : pydict string SumoTLLogic) ->
                    id ∉ dict_values (_link2landmark program)) ->
                w !! id = world !! id).
  intros Hcall. apply (for_each_st_invariant P _ _) in Hcall; [exact Hcall| |by split].
  intros [tlid programs] w w1 e1 Htl Hw Hprogs.
  apply (for_each_st_invariant P _ _) in Hprogs; [exact Hprogs| |exact Hw].
  intros [pid program] w2 w3 e2 Hp Hw2 Hbody.
  destruct (getRedYellowGreenState tlid) as [state|err]; [|by injection Hbody as <- _].
  apply (for_each_st_invariant P _ _) in Hbody; [exact Hbody| |exact Hw2].
  intros c w4 w5 e3 _ [Hdom Hkeep] Hvisit.
  destruct (translate_landmark program state c w4) as [w6|err] eqn:Htr;
    simpl in Hvisit; injection Hvisit as <- _; [|by split].
  apply translate_landmark_result in Htr as (lm & st & Hlm & [st0 Hw4] & ->).
  split.
  - rewrite dom_insert_L, <- Hdom.
    assert (lm ∈ dom w4) as Hin by (apply elem_of_dom; eauto).
    apply subseteq_union_1_L. by apply singleton_subseteq_l.
  - intros id Hid. rewrite lookup_insert_ne; [by apply Hkeep|].
    intros <-. by apply (Hid tlid programs pid program).
Qed.

Lemma set_states_from_sumo_lights_witness :
  dom (fst (SumoTLManager_set_states_from_sumo Scenario.manager_918
              (fun _ => Ok "rG") {[ "1032" := Green; "7" := Off ]}))
  = dom ({[ "1032" := Green; "7" := Off ]} : World).
Proof.
  refine (proj1 (set_states_from_sumo_lights Scenario.manager_918 (fun _ => Ok "rG")
                   {[ "1032" := Green; "7" := Off ]} _ _ _)).
  apply surjective_pairing.
Defined.

(** ** How a translation call can end *)

Lemma for_each_st_total {A S} (P : S -> Prop) (body : A -> S -> S * option exn) xs :
  (forall x s, x ∈ xs -> P s -> exists s', body x s = (s', None) /\ P s') ->
  forall s, P s -> exists s', for_each_st body xs s = (s', None) /\ P s'.
Proof.
  induction xs as [|x xs IH]; intros Hstep s Hs; simpl; [by exists s|].
  destruct (Hstep x s) as (s1 & -> & Hs1); [left | done|].
  apply IH; [|done]. intros y t Hy. apply Hstep. by right.
Qed.

Lemma for_each_st_raised {A S} (body : A -> S -> S * option exn) xs s s' e :
  for_each_st body xs s = (s', Some e) ->
  exists x s0, x ∈ xs /\ body x s0 = (s', Some e).
Proof.
  revert s. induction xs as [|x xs IH]; intros s; simpl; [discriminate|].
  destruct (body x s) as [s1 [e1|]] eqn:Hb.
  - intros [= <- <-]. exists x, s. split; [left | done].
  - intros Hrest. destruct (IH _ Hrest) as (y & s0 & Hy & Hby).
    exists y, s0. split; [by right | done].
Qed.

Lemma landmark_visits_elem self t p c :
  (t, p, c) ∈ landmark_visits self <->
  exists programs program_id,
    (t, programs) ∈ dict_items (_tls self) /\
    (program_id, p) ∈ dict_items (programs : pydict string SumoTLLogic) /\
    c ∈ dict_keys (_landmark2link p).
Proof.
  unfold landmark_visits. rewrite list_elem_of_bind. split.
  - intros ([t' programs] & Hin & Ht). apply list_elem_of_bind in Hin as ([pid p'] & Hin & Hp).
    apply list_elem_of_bind in Hin as (c' & Hin & Hc).
    apply list_elem_of_singleton in Hin as [= -> -> ->]. by exists programs, pid.
  - intros (programs & pid & Ht & Hp & Hc). exists (t, programs). split; [|done].
    apply list_elem_of_bind. exists (pid, p). split; [|done].
    apply list_elem_of_bind. exists c. split; [|done]. by apply list_elem_of_singleton.
Qed.

Lemma list_getitem_in_range {A} (l : list A) (i : nat) :
  (i < length l)%nat -> exists x, list_getitem l (Z.of_nat i) = Ok x.
Proof.
  intros Hi. unfold list_getitem, py_position.
  destruct (Z.leb_spec 0 (Z.of_nat i)); [|lia].
  destruct (Z.ltb_spec (Z.of_nat i) (Z.of_nat (length l))); [|lia]. simpl.
  rewrite Nat2Z.id. destruct (lookup_lt_is_Some_2 l i Hi) as [x ->]. by exists x.
Qed.

Lemma translate_landmark_raises program state c_tlid (world : World) e :
  links_have_landmarks program ->
  c_tlid ∈ dict_keys (_landmark2link program) ->
  translate_landmark program state c_tlid world = Raise e ->
  e = IndexError \/ e = AttributeError \/ e = unsupported_directions.
Proof.
  intros Hwf Hc. unfold translate_landmark, dict_getitem.
  destruct (dict_get (_landmark2link program) c_tlid) as [links|] eqn:Hl; simpl.
  2:{ apply dict_get_None_keys in Hl. done. }
  destruct (gather_link_states _ _ _ _) as [[tl acc]|e'] eqn:Hg; simpl.
  2:{ intros [= <-]. left. apply (gather_link_states_raises _ _ _ _ _) in Hg; [done|].
      intros l Hin. apply (Hwf c_tlid links l Hl). by rewrite <- (py_sorted_perm snd links). }
  unfold gather_link_states in Hg.
  apply gather_link_states_result in Hg as [Hlen _]. simpl in Hlen.
  assert (Hset : forall st, carla_set_state tl st world = Raise e -> e = AttributeError).
  { intros st. destruct tl; simpl; [discriminate | by intros [= <-]]. }
  destruct (Nat.eqb_spec (length (py_sorted snd links)) 3) as [H3|_].
  - destruct (list_getitem_in_range acc 1) as [s Hs]; [lia|].
    change (Z.of_nat 1) with 1 in Hs. rewrite Hs. simpl. intros Hr. right; left. eauto.
  - destruct (Nat.eqb_spec (length (py_sorted snd links)) 2) as [H2|_].
    + destruct (bool_decide _); [intros Hr; right; left; eauto|].
      destruct (list_getitem_in_range acc 0) as [s Hs]; [lia|].
      change (Z.of_nat 0) with 0 in Hs. rewrite Hs. simpl. intros Hr. right; left. eauto.
    + intros [= <-]. by right; right.
Qed.

(** X9: for a manager whose programs have a landmark for each of their
    links, as every manager built by [__init__] has, a call of
    [set_states_from_sumo] that is given a state string for each traffic
    light can end with one of three exceptions only: [IndexError] for a
    link index beyond the state string, [AttributeError] for a landmark
    without a light in the world, or the exception for an unsupported
    number of directions; it never ends with [KeyError]. *)
Theorem set_states_from_sumo_exceptions (self : SumoTLManager)
    (junction_state : string -> string) (world world' : World) (e : exn) :
  programs_have_landmarks self ->
  SumoTLManager_set_states_from_sumo self (fun t => Ok (junction_state t)) world
  = (world', Some e) ->
  e = IndexError \/ e = AttributeError \/ e = unsupported_directions.
Proof.
  intros Hwf. rewrite set_states_from_sumo_visits. intros Hcall.
  apply for_each_st_raised in Hcall as ([[t p] c] & w & Hin & Hbody).
  apply landmark_visits_elem in Hin as (programs & pid & Ht & Hp & Hc).
  simpl in Hbody.
  destruct (translate_landmark p (junction_state t) c w) as [w1|e1] eqn:Htr;
    simpl in Hbody; [discriminate|].
  injection Hbody as _ <-.
  apply (translate_landmark_raises p (junction_state t) c w); [|done..].
  by apply (Hwf t programs pid p).
Qed.

Lemma manager_4_has_landmarks : programs_have_landmarks Scenario.manager_4.
Proof.
  intros t programs pid p Ht Hp.
  apply list_elem_of_singleton in Ht as [= -> ->].
  apply list_elem_of_singleton in Hp as [= -> ->].
  intros c links l Hc Hl. simpl in Hc.
  destruct (decide (c = "A")); [injection Hc as <-|].
  - repeat (apply elem_of_cons in Hl as [->|Hl]; [by eexists|]).
    by apply elem_of_nil in Hl.
  - destruct (decide (c = "B")); [injection Hc as <-|discriminate].
    repeat (apply elem_of_cons in Hl as [->|Hl]; [by eexists|]).
    by apply elem_of_nil in Hl.
Qed.

Lemma set_states_from_sumo_exceptions_witness :
  unsupported_directions = IndexError \/
  unsupported_directions = AttributeError \/
  unsupported_directions = unsupported_directions.
Proof.
  apply (set_states_from_sumo_exceptions Scenario.manager_4 (fun _ => "rrrrGG")
           Scenario.world_4 Scenario.world_4 unsupported_directions).
  - exact manager_4_has_landmarks.
  - vm_compute. reflexivity.
Defined.

(** ** A translation call that returns *)

Lemma translate_landmark_total program state c_tlid (world : World) links :
  dict_get (_landmark2link program) c_tlid = Some links ->
  length links = 2%nat \/ length links = 3%nat ->
  (forall l, l ∈ links ->
             exists landmark sumo_state,
               link_resolves program state l landmark sumo_state /\
               is_Some (world !! landmark)) ->
  exists landmark st,
    translate_landmark program state c_tlid world = Ok (<[landmark := st]> world) /\
    is_Some (world !! landmark).
Proof.
  intros Hl Hlen Hall.
  pose proof (py_sorted_length snd links) as Hslen.
  assert (Hs : forall l, l ∈ py_sorted snd links ->
             exists landmark sumo_state,
               link_resolves program state l landmark sumo_state /\
               is_Some (world !! landmark)).
  { intros l Hin. apply Hall. by rewrite <- (py_sorted_perm snd links). }
  destruct (py_sorted snd links) as [|a [|b [|c [|d rest]]]] eqn:Heq;
    simpl in Hslen; try lia.
  - destruct (Hs a) as (la & sa & Ha & _); [left|].
    destruct (Hs b) as (lb & sb & Hb & Hw); [right; left|].
    eexists lb, _. split; [|done].
    by apply (translate_landmark_two program state world c_tlid links Hl a b la lb sa sb).
  - destruct (Hs a) as (la & sa & Ha & _); [left|].
    destruct (Hs b) as (lb & sb & Hb & _); [right; left|].
    destruct (Hs c) as (lc & sc & Hc & Hw); [right; right; left|].
    eexists lc, _. split; [|done].
    by apply (translate_landmark_three program state world c_tlid links Hl
                a b c la lb lc sa sb sc).
Qed.

(** X10: when every landmark of every program has two or three links,
    each link has a landmark with a light in the world, and each link
    index is a position of the state string of its traffic light, the call
    of [set_states_from_sumo] returns without an exception, and the world
    has the same lights as before. *)
Theorem set_states_from_sumo_returns (self : SumoTLManager)
    (junction_state : string -> string) (world : World) :
  (forall t p c, (t, p, c) ∈ landmark_visits self ->
     exists links,
       dict_get (_landmark2link p) c = Some links /\
       (length links = 2%nat \/ length links = 3%nat) /\
       forall l, l ∈ links ->
                 exists landmark sumo_state,
                   link_resolves p (junction_state t) l landmark sumo_state /\
                   landmark ∈ dom world) ->
  exists world' : World,
    SumoTLManager_set_states_from_sumo self (fun t => Ok (junction_state t)) world
    = (world', None) /\
    dom world' = dom world.
Proof.
  intros Hall. rewrite set_states_from_sumo_visits.
  apply (for_each_st_total (fun w : World => dom w = dom world)); [|done].
  intros [[t p] c] w Hin Hdom. destruct (Hall t p c Hin) as (links & Hl & Hlen & Hres).
  destruct (translate_landmark_total p (junction_state t) c w links Hl Hlen)
    as (lm & st & Htr & Hw).
  { intros l Hlin. destruct (Hres l Hlin) as (lm & s & Hr & Hd).
    exists lm, s. split; [done|]. apply elem_of_dom. by rewrite Hdom. }
  exists (<[lm := st]> w). simpl. rewrite Htr. simpl. split; [done|].
  rewrite dom_insert_L, <- Hdom. apply subseteq_union_1_L.
  apply singleton_subseteq_l. by apply elem_of_dom.
Qed.

Lemma set_states_from_sumo_returns_witness :
  exists world' : World,
    SumoTLManager_set_states_from_sumo Scenario.manager_918
      (fun t => Ok "rGgrrrGGgrrr") {[ "1032" := Green ]}
    = (world', None) /\
    dom world' = dom ({[ "1032" := Green ]} : World).
Proof.
  apply (set_states_from_sumo_returns Scenario.manager_918 (fun _ => "rGgrrrGGgrrr")
           {[ "1032" := Green ]}).
  intros t p c Hin. apply list_elem_of_singleton in Hin as [= -> -> ->].
  exists [("918", 0); ("918", 1)]. split; [reflexivity|]. split; [by left|].
  intros l Hl. exists "1032".
  apply elem_of_cons in Hl as [->|Hl]; [exists "r"|].
  - split; [by split|]. by apply elem_of_dom.
  - apply list_elem_of_singleton in Hl as ->. exists "G".
    split; [by split|]. by apply elem_of_dom.
Defined.

(** ** Spawning actors, continued *)

(** X11: the ids returned by the successful calls of [spawn_actor] in a
    run are pairwise different. *)
Theorem spawned_ids_distinct (INVALID_ACTOR_ID : pyvalue) (reqs : list spawn_request)
    (self : SumoSimulation) :
  NoDup (spawned_ids INVALID_ACTOR_ID reqs self).
Proof.
  destruct (spawned_ids_consecutive INVALID_ACTOR_ID reqs self) as [k ->].
  apply NoDup_fmap_2; [|apply NoDup_seqZ].
  intros n m. apply actor_id_of_inj.
Qed.

(** X12: when the engine accepts the vehicle and then raises on
    [setColor], the exception leaves [spawn_actor] before the counter is
    advanced: the object is unchanged although the engine holds the
    vehicle, and the next call offers the engine the same id again. *)
Theorem spawn_actor_color_failure (INVALID_ACTOR_ID : pyvalue)
    (traci : vehicle_call -> reply) (self : SumoSimulation)
    (type_id color : string) (e : exn) :
  traci (VehicleAdd (actor_id_of (_sequential_id self)) "carla_route" type_id) = Done ->
  traci (VehicleSetColor (actor_id_of (_sequential_id self)) (str_split "," color))
  = Fails e ->
  spawn_actor INVALID_ACTOR_ID traci self type_id (Some color)
  = mkSpawnOutcome self
      [VehicleAdd (actor_id_of (_sequential_id self)) "carla_route" type_id;
       VehicleSetColor (actor_id_of (_sequential_id self)) (str_split "," color)]
      [] (Raise e) /\
  forall traci' type_id' color',
    head (spawn_calls
            (spawn_actor INVALID_ACTOR_ID traci'
               (spawn_self (spawn_actor INVALID_ACTOR_ID traci self type_id (Some color)))
               type_id' color'))
    = Some (VehicleAdd (actor_id_of (_sequential_id self)) "carla_route" type_id').
Proof.
  intros Hadd Hcolor.
  assert (Hout : spawn_actor INVALID_ACTOR_ID traci self type_id (Some color)
                 = mkSpawnOutcome self
                     [VehicleAdd (actor_id_of (_sequential_id self)) "carla_route" type_id;
                      VehicleSetColor (actor_id_of (_sequential_id self))
                        (str_split "," color)]
                     [] (Raise e)).
  { unfold spawn_actor. fold (actor_id_of (_sequential_id self)).
    by rewrite Hadd, Hcolor. }
  split; [exact Hout|]. rewrite Hout. simpl.
  intros traci' type_id' color'. unfold spawn_actor.
  fold (actor_id_of (_sequential_id self)).
  destruct (traci' (VehicleAdd _ _ _)) as [|[]]; try done.
  destruct color' as [c|]; [|done]. by destruct (traci' (VehicleSetColor _ _)).
Qed.

Lemma spawn_actor_color_failure_witness :
  spawn_actor (PyInt (-1))
    (fun c => match c with
              | VehicleAdd _ _ _ => Done
              | VehicleSetColor _ _ => Fails (TraCIException "color")
              end)
    SpawnScenario.fresh "vehicle.audi.a2" (Some "255,0")
  = mkSpawnOutcome SpawnScenario.fresh
      [VehicleAdd "carla0" "carla_route" "vehicle.audi.a2";
       VehicleSetColor "carla0" ["255"; "0"]]
      [] (Raise (TraCIException "color")).
Proof.
  refine (proj1 (spawn_actor_color_failure (PyInt (-1)) _ SpawnScenario.fresh
                   "vehicle.audi.a2" "255,0" (TraCIException "color") _ _));
    reflexivity.
Defined.

(** ** A session of ticks and spawns *)

Lemma spawn_actor_keeps_sets INVALID_ACTOR_ID traci self type_id color :
  let self' := spawn_self (spawn_actor INVALID_ACTOR_ID traci self type_id color) in
  spawned_actors self' = spawned_actors self /\
  destroyed_actors self' = destroyed_actors self /\
  traffic_light_manager self' = traffic_light_manager self /\
  _sequential_id self <= _sequential_id self' <= _sequential_id self + 1.
Proof.
  simpl. pose proof (spawn_actor_counter INVALID_ACTOR_ID traci self type_id color) as Hc.
  destruct (spawned_id _ _ _ _ _).
  - destruct Hc as [_ ->]. simpl. repeat split; lia.
  - rewrite Hc. repeat split; lia.
Qed.

(** X13: over any run of ticks and spawns the counter never decreases and
    grows by at most one per spawn; a spawn does not enter the new actor
    in [spawned_actors], and after the run the spawned and destroyed
    actors are the departed and arrived lists of the last tick, or those
    the session started with when the run has no tick. *)
Theorem session_counter_and_sets (INVALID_ACTOR_ID : pyvalue)
    (calls : list session_call) (self : SumoSimulation) :
  _sequential_id self
  <= _sequential_id (run_session INVALID_ACTOR_ID calls self)
  <= _sequential_id self + Z.of_nat (length (filter (fun c => is_tick c = false) calls)) /\
  match last (filter (fun c => is_tick c = true) calls) with
  | Some (SessionTick step) =>
      spawned_actors (run_session INVALID_ACTOR_ID calls self)
      = list_to_set (step_departed step) /\
      destroyed_actors (run_session INVALID_ACTOR_ID calls self)
      = list_to_set (step_arrived step)
  | _ =>
      spawned_actors (run_session INVALID_ACTOR_ID calls self) = spawned_actors self /\
      destroyed_actors (run_session INVALID_ACTOR_ID calls self) = destroyed_actors self
  end.
Proof.
  unfold run_session.
  induction calls as [|c calls IH] using rev_ind; [simpl; split; [lia|done]|].
  rewrite foldl_app, !filter_app, !filter_cons, !filter_nil. simpl.
  destruct IH as [Hcount Hsets].
  set (s := foldl (session_step INVALID_ACTOR_ID) self calls) in *.
  destruct c as [step|r]; simpl.
  - rewrite app_nil_r, last_snoc. split; [exact Hcount | done].
  - rewrite app_nil_r, length_app. simpl.
    destruct (spawn_actor_keeps_sets INVALID_ACTOR_ID (req_traci r) s
                (req_type_id r) (req_color r)) as (Hsp & Hde & _ & Hid).
    simpl in Hsp, Hde, Hid. split; [lia|].
    rewrite Hsp, Hde. exact Hsets.
Qed.

(** ** The removal check over a run *)

(** X14: after any number of rounds from the start of the script, the
    step counter is the number of rounds, the recorded vehicle count is
    the length of the recorded id list, which is the last snapshot, and
    every vehicle reported as removed was in some snapshot of the run. *)
Theorem sample_traci_run_invariants (snapshots : list (list string)) :
  stepCount (sample_traci_run snapshots) = Z.of_nat (length snapshots) /\
  current_vehicle_count (sample_traci_run snapshots)
  = Z.of_nat (length (current_vehicle_id_list (sample_traci_run snapshots))) /\
  current_vehicle_id_list (sample_traci_run snapshots) = default [] (last snapshots) /\
  forall v, v ∈ removed_vehicles (sample_traci_run snapshots) ->
            exists ids, ids ∈ snapshots /\ v ∈ ids.
Proof.
  unfold sample_traci_run.
  induction snapshots as [|ids snapshots IH] using rev_ind.
  - simpl. repeat split. intros v Hv. by apply elem_of_nil in Hv.
  - rewrite foldl_app. simpl. destruct IH as (Hstep & Hcount & Hlist & Hrem).
    set (t := foldl _ tracking_start snapshots) in *.
    rewrite Hstep, length_app, last_snoc. simpl.
    split; [lia|]. split; [done|]. split; [done|].
    intros v Hv.
    destruct (Z.of_nat (length ids) <? current_vehicle_count t).
    + apply list_elem_of_filter in Hv as [_ Hv]. rewrite Hlist in Hv.
      destruct (last snapshots) as [prev|] eqn:Hlast; simpl in Hv.
      * exists prev. split; [|done]. apply elem_of_app. left.
        by apply last_Some_elem_of.
      * by apply elem_of_nil in Hv.
    + destruct (Hrem v Hv) as (ids' & Hin & Hv'). exists ids'.
      split; [|done]. apply elem_of_app. by left.
Qed.

Lemma filter_split_length {A} (P : A -> Prop) `{forall x, Decision (P x)} (l : list A) :
  length l = (length (filter P l) + length (filter (fun x => ~ P x) l))%nat.
Proof.
  induction l as [|x l IH]; [done|].
  rewrite !filter_cons. destruct (decide (P x)) as [Hp|Hp].
  - rewrite decide_False by tauto. simpl. lia.
  - rewrite decide_True by done. simpl. lia.
Qed.

(** X15: in a round where the number of vehicles has dropped and the
    previous ids were pairwise different, the check reports exactly the
    previous ids that are no longer present, each once, and at least as
    many of them as the count has dropped by. *)
Theorem removal_check_detects (previous current : list string) (t : Tracking) :
  current_vehicle_id_list t = previous ->
  current_vehicle_count t = Z.of_nat (length previous) ->
  NoDup previous ->
  (length current < length previous)%nat ->
  (forall v, v ∈ removed_vehicles (sample_traci_round current t) <->
             v ∈ previous /\ v ∉ current) /\
  NoDup (removed_vehicles (sample_traci_round current t)) /\
  (length previous - length current
   <= length (removed_vehicles (sample_traci_round current t)))%nat.
Proof.
  intros Hprev Hcount Hnd Hlt. unfold sample_traci_round. simpl.
  rewrite Hcount, Hprev.
  destruct (Z.ltb_spec (Z.of_nat (length current)) (Z.of_nat (length previous))); [|lia].
  split; [|split].
  - intros v. rewrite list_elem_of_filter. tauto.
  - by apply NoDup_filter.
  - pose proof (filter_split_length (fun v => v ∈ current) previous) as Hsplit.
    assert (length (filter (fun v => v ∈ current) previous) <= length current)%nat.
    { apply submseteq_length, NoDup_submseteq; [by apply NoDup_filter|].
      intros v Hv. by apply list_elem_of_filter in Hv as [Hv _]. }
    lia.
Qed.

Lemma removal_check_detects_witness :
  NoDup (removed_vehicles
           (sample_traci_round ["a"] (sample_traci_run [["a"; "b"; "c"]]))) /\
  (length ["a"; "b"; "c"] - length ["a"]
   <= length (removed_vehicles
                (sample_traci_round ["a"] (sample_traci_run [["a"; "b"; "c"]]))))%nat.
Proof.
  refine (proj2 (removal_check_detects ["a"; "b"; "c"] ["a"]
                   (sample_traci_run [["a"; "b"; "c"]]) _ _ _ _)).
  - reflexivity.
  - reflexivity.
  - repeat constructor; rewrite ?elem_of_cons, ?elem_of_nil; intros H;
      repeat destruct H as [H|H]; try discriminate H; done.
  - simpl. lia.
Defined.

(** ** The time-coordinated table of a conflict *)

Lemma foldr_min_le (n : nat) (ns : list nat) :
  (foldr Nat.min n ns <= n)%nat /\ forall m, m ∈ ns -> (foldr Nat.min n ns <= m)%nat.
Proof.
  induction ns as [|k ns [IHn IHm]]; simpl.
  - split; [lia|]. intros m Hm. by apply elem_of_nil in Hm.
  - split; [lia|]. intros m [->|Hm]%elem_of_cons; [lia|]. specialize (IHm m Hm). lia.
Qed.

Lemma foldr_min_attained (n : nat) (ns : list nat) :
  foldr Nat.min n ns = n \/ foldr Nat.min n ns ∈ ns.
Proof.
  induction ns as [|k ns IH]; simpl; [by left|].
  destruct (Nat.min_spec k (foldr Nat.min n ns)) as [[_ ->]|[_ ->]].
  - right. left.
  - destruct IH as [->|Hin]; [by left|]. right. by right.
Qed.

Lemma omap_lookup_column {A} (rows : list (list A)) (i : nat) :
  (forall row, row ∈ rows -> (i < length row)%nat) ->
  length (omap (fun row : list A => row !! i) rows) = length rows /\
  forall j row, rows !! j = Some row ->
                omap (fun row : list A => row !! i) rows !! j = row !! i.
Proof.
  induction rows as [|r rows IH]; intros Hall.
  - split; [done|]. intros j row Hj. by rewrite lookup_nil in Hj.
  - destruct (lookup_lt_is_Some_2 r i) as [x Hx]; [apply Hall; left|].
    destruct IH as [Hlen Hcell]; [intros row Hrow; apply Hall; by right|].
    assert (Heq : omap (fun row : list A => row !! i) (r :: rows)
                  = x :: omap (fun row : list A => row !! i) rows)
      by (csimpl; by rewrite Hx).
    rewrite Heq. split; [cbn [length]; by rewrite Hlen|].
    intros [|j] row; simpl; [by intros [= <-] | apply Hcell].
Qed.

Lemma py_zip_star_lines {A} (rows : list (list A)) :
  (forall row, row ∈ rows -> (length (py_zip_star rows) <= length row)%nat) /\
  (forall i line, py_zip_star rows !! i = Some line ->
     length line = length rows /\
     forall j row, rows !! j = Some row ->
                   exists x, line !! j = Some x /\ row !! i = Some x).
Proof.
  destruct rows as [|r rows'].
  { split; [intros row Hr; by apply elem_of_nil in Hr|].
    intros i line Hi. unfold py_zip_star in Hi. by rewrite lookup_nil in Hi. }
  unfold py_zip_star.
  set (n := foldr Nat.min (length r) (length <$> (r :: rows'))).
  assert (Hn : forall row, row ∈ (r :: rows') -> (n <= length row)%nat).
  { intros row Hrow. apply (foldr_min_le (length r)).
    apply list_elem_of_fmap. by exists row. }
  split.
  - intros row Hrow. rewrite length_fmap, length_seq. by apply Hn.
  - intros i line Hi. apply list_lookup_fmap_Some in Hi as (i' & Hl & Hi').
    apply lookup_seq in Hi' as [Hi' Hlt]. cbn [Nat.add] in Hi'. subst i' line.
    destruct (omap_lookup_column (r :: rows') i) as [Hlen Hcell].
    { intros row Hrow. specialize (Hn row Hrow). lia. }
    split; [exact Hlen|].
    intros j row Hj. rewrite (Hcell j row Hj).
    destruct (lookup_lt_is_Some_2 row i) as [x Hx]; [|by exists x].
    apply list_elem_of_lookup_2 in Hj. specialize (Hn row Hj). lia.
Qed.

(** X16: [zip] of the unpacked rows transposes them: the table has as
    many lines as the shortest row has cells, every line has one cell per
    row, and cell [j] of line [i] is cell [i] of row [j]. *)
Theorem py_zip_star_transposes {A} (rows : list (list A)) :
  (forall row, row ∈ rows -> (length (py_zip_star rows) <= length row)%nat) /\
  (rows <> [] -> exists row, row ∈ rows /\ length (py_zip_star rows) = length row) /\
  (forall i line, py_zip_star rows !! i = Some line ->
     length line = length rows /\
     forall j row, rows !! j = Some row ->
                   exists x, line !! j = Some x /\ row !! i = Some x).
Proof.
  destruct (py_zip_star_lines rows) as [Hshort Hline].
  split; [exact Hshort|]. split; [|exact Hline].
  destruct rows as [|r rows']; [done|]. intros _.
  unfold py_zip_star. rewrite length_fmap, length_seq.
  destruct (foldr_min_attained (length r) (length <$> (r :: rows'))) as [Heq|Hin].
  - exists r. split; [left | done].
  - apply list_elem_of_fmap in Hin as (row & Heq & Hrow). by exists row.
Qed.

Lemma list_getitem_minus3 {A} (l : list A) :
  (3 <= length l)%nat ->
  list_getitem l (-3) = of_option IndexError (l !! (length l - 3)%nat) /\
  exists x, list_getitem l (-3) = Ok x.
Proof.
  intros Hlen. unfold list_getitem, py_position.
  destruct (Z.leb_spec 0 (-3)); [lia|]. simpl.
  destruct (Z.leb_spec (- Z.of_nat (length l)) (-3)); [|lia]. simpl.
  replace (Z.to_nat (Z.of_nat (length l) + -3)) with (length l - 3)%nat by lia.
  split; [done|].
  destruct (lookup_lt_is_Some_2 l (length l - 3)) as [x ->]; [lia|]. by exists x.
Qed.

Lemma write_steps_prefix (steps : list (list string)) :
  Forall (fun step => (3 <= length step)%nat) steps ->
  exists rows,
    write_steps steps = (rows, None) /\
    rows `prefix_of` steps /\
    Forall (fun row => list_getitem row (-3) <> Ok "NA") rows /\
    ((length rows < length steps)%nat ->
     exists step, steps !! length rows = Some step /\ list_getitem step (-3) = Ok "NA").
Proof.
  induction steps as [|step steps IH]; intros Hall; simpl.
  - exists []. repeat split; [done | constructor | simpl; lia].
  - apply Forall_cons in Hall as [Hstep Hall].
    destruct (list_getitem_minus3 step Hstep) as [_ [cell Hcell]]. rewrite Hcell.
    destruct (String.eqb_spec cell "NA") as [->|Hne].
    + exists []. split; [done|]. split; [apply prefix_nil|]. split; [constructor|].
      intros _. by exists step.
    + destruct (IH Hall) as (rows & -> & Hpre & Hna & Hnext).
      exists (step :: rows). split; [done|]. split; [by apply prefix_cons|].
      split; [constructor; [congruence | done]|].
      simpl. intros Hlt. apply Hnext. lia.
Qed.

(** X17: for a conflict with at least three elements (the code lists
    thirteen) the loop writing the time-coordinated table ends without an
    exception; the rows written are the lines of the transposed values up
    to, and without, the first line whose third cell from the end is 'NA';
    every row has one cell per element; and every element has a cell for
    every row written. *)
Theorem time_coordinated_rows_table (values : list string) :
  (3 <= length values)%nat ->
  exists rows,
    time_coordinated_rows values = (rows, None) /\
    rows `prefix_of` py_zip_star (str_split " " <$> values) /\
    Forall (fun row => length row = length values /\
                       list_getitem row (-3) <> Ok "NA") rows /\
    ((length rows < length (py_zip_star (str_split " " <$> values)))%nat ->
     exists step,
       py_zip_star (str_split " " <$> values) !! length rows = Some step /\
       step !! (length values - 3)%nat = Some "NA") /\
    (forall value, value ∈ values ->
                   (length rows <= length (str_split " " value))%nat).
Proof.
  intros Hlen. unfold time_coordinated_rows.
  destruct (py_zip_star_lines (str_split " " <$> values)) as (Hshort & Hline).
  assert (Hwidth : forall step, step ∈ py_zip_star (str_split " " <$> values) ->
                                length step = length values).
  { intros step Hin. apply list_elem_of_lookup in Hin as [i Hi].
    destruct (Hline i step Hi) as [-> _]. by rewrite length_fmap. }
  destruct (write_steps_prefix (py_zip_star (str_split " " <$> values)))
    as (rows & Hw & Hpre & Hna & Hnext).
  { apply Forall_forall. intros step Hin. rewrite (Hwidth step Hin). lia. }
  exists rows. split; [exact Hw|]. split; [exact Hpre|].
  assert (Hin_rows : forall row, row ∈ rows ->
                                 row ∈ py_zip_star (str_split " " <$> values)).
  { intros row Hrow. destruct Hpre as [rest ->]. apply elem_of_app. by left. }
  split; [|split].
  - apply Forall_forall. intros row Hrow. split; [by apply Hwidth, Hin_rows|].
    rewrite Forall_forall in Hna. by apply Hna.
  - intros Hlt. destruct (Hnext Hlt) as (step & Hstep & Hcell).
    exists step. split; [done|].
    assert (Hsw : length step = length values).
    { apply Hwidth. by apply list_elem_of_lookup_2 in Hstep. }
    destruct (list_getitem_minus3 step) as [Heq _]; [lia|].
    rewrite Heq, Hsw in Hcell.
    by destruct (step !! (length values - 3)%nat) as [x|]; [injection Hcell as ->|].
  - intros value Hv. apply prefix_length in Hpre.
    etrans; [exact Hpre|]. apply Hshort. apply list_elem_of_fmap. by exists value.
Qed.

Lemma time_coordinated_rows_table_witness :
  exists rows,
    time_coordinated_rows ["0.1 0.2 0.3"; "1 NA 3"; "a b c"; "x y z"] = (rows, None) /\
    rows `prefix_of` py_zip_star (str_split " " <$> ["0.1 0.2 0.3"; "1 NA 3"; "a b c"; "x y z"]) /\
    Forall (fun row => length row = 4%nat /\ list_getitem row (-3) <> Ok "NA") rows.
Proof.
  destruct (time_coordinated_rows_table ["0.1 0.2 0.3"; "1 NA 3"; "a b c"; "x y z"])
    as (rows & Hrows & Hpre & Hall & _).
  - simpl. lia.
  - by exists rows.
Defined.

Example time_coordinated_rows_stop :
  time_coordinated_rows ["0.1 0.2 0.3"; "1 NA 3"; "a b c"; "x y z"]
  = ([["0.1"; "1"; "a"; "x"]], None) /\
  time_coordinated_rows ["0.1 0.2"; "1 2 3"; "a b c"; "x y z"]
  = ([["0.1"; "1"; "a"; "x"]; ["0.2"; "2"; "b"; "y"]], None) /\
  time_coordinated_rows [""; ""; ""] = ([[""; ""; ""]], None) /\
  time_coordinated_rows ["1 2"; "NA 4"] = ([], Some IndexError).
Proof. repeat split. Qed.

(** ** Actor classes and vehicle signals *)

(** X18: the lookup of an actor class by value inverts [value]: each
    member is found under its own value, a found member has the value
    asked for, no two members share a value, and any other string raises
    [ValueError]. *)
Theorem SumoActorClass_lookup :
  (forall c, SumoActorClass.of_value (SumoActorClass.value c) = Ok c) /\
  (forall s c, SumoActorClass.of_value s = Ok c -> SumoActorClass.value c = s) /\
  NoDup (SumoActorClass.value <$> SumoActorClass.members) /\
  (forall s, s ∉ SumoActorClass.value <$> SumoActorClass.members ->
             SumoActorClass.of_value s = Raise ValueError).
Proof.
  split; [by intros []|]. split; [|split].
  - intros s c. unfold SumoActorClass.of_value.
    destruct (find _ _) as [c'|] eqn:Hfind; simpl; [|discriminate].
    intros [= <-]. apply find_some in Hfind as [_ Heq]. by apply String.eqb_eq.
  - apply NoDup_ListNoDup. apply (List.NoDup_count_occ' string_dec).
    intros s Hin. repeat (destruct Hin as [<-|Hin]; [vm_compute; reflexivity|]).
    destruct Hin.
  - intros s Hs. unfold SumoActorClass.of_value.
    destruct (find _ _) as [c|] eqn:Hfind; [|done].
    apply find_some in Hfind as [Hin Heq]. apply String.eqb_eq in Heq.
    exfalso. apply Hs. apply list_elem_of_fmap. exists c. split; [done|].
    by apply list_elem_of_In.
Qed.

Lemma signal_bits_disjoint :
  forall a f, a ∈ SumoVehSignal.members -> f ∈ SumoVehSignal.members ->
              (Z.land a f = 0 <-> a <> f).
Proof.
  assert (Hall : forallb (fun a => forallb (fun f =>
             Bool.eqb (Z.land a f =? 0) (negb (a =? f)))
             SumoVehSignal.members) SumoVehSignal.members = true)
    by (vm_compute; reflexivity).
  intros a f Ha Hf. rewrite forallb_forall in Hall.
  specialize (Hall a ltac:(by apply list_elem_of_In)). rewrite forallb_forall in Hall.
  specialize (Hall f ltac:(by apply list_elem_of_In)).
  apply Bool.eqb_prop in Hall.
  destruct (Z.eqb_spec (Z.land a f) 0), (Z.eqb_spec a f); simpl in Hall;
    try discriminate; tauto.
Qed.

(** X19: the vehicle signals are separate bits: in the mask of any
    choice of signals, a signal tests as on exactly when it was chosen. *)
Theorem vehicle_signal_mask (on : list Z) (signal : Z) :
  Forall (fun s => s ∈ SumoVehSignal.members) on ->
  signal ∈ SumoVehSignal.members ->
  SumoVehSignal.is_on (SumoVehSignal.mask on) signal = true <-> signal ∈ on.
Proof.
  intros Hon Hs. unfold SumoVehSignal.is_on, SumoVehSignal.mask.
  rewrite Bool.negb_true_iff, Z.eqb_neq.
  induction Hon as [|a on Ha Hon IH]; simpl.
  - rewrite Z.land_0_l. split; [done|]. intros Hin. by apply elem_of_nil in Hin.
  - rewrite Z.land_lor_distr_l, Z.lor_eq_0_iff, elem_of_cons.
    pose proof (signal_bits_disjoint a signal Ha Hs) as Hd.
    destruct (decide (signal = a)) as [->|Hne].
    + split; [by left|]. intros _ [H0 _]. by apply Hd in H0.
    + split.
      * intros Hn. right. apply IH. intros H0. apply Hn. split; [|done].
        apply Hd. congruence.
      * intros [?|Hin]; [done|]. intros [_ H0]. by apply IH in Hin.
Qed.

Lemma vehicle_signal_mask_witness :
  SumoVehSignal.is_on
    (SumoVehSignal.mask [SumoVehSignal.BRAKELIGHT; SumoVehSignal.BLINKER_LEFT])
    SumoVehSignal.BLINKER_LEFT = true <->
  SumoVehSignal.BLINKER_LEFT ∈ [SumoVehSignal.BRAKELIGHT; SumoVehSignal.BLINKER_LEFT].
Proof.
  apply vehicle_signal_mask.
  - repeat constructor; unfold SumoVehSignal.members;
      rewrite !elem_of_cons; tauto.
  - unfold SumoVehSignal.members. rewrite !elem_of_cons. tauto.
Defined.

(** ** What [get_state] can return *)

(** X20: for a landmark whose signals can all be read, [get_state]
    returns [None] exactly when the landmark has no signal under the
    current programs; otherwise it returns either the character all its
    signals agree on, logging nothing, or 'r' with the warning. *)
Theorem get_state_result (self : SumoTLManager) (landmark_id : string)
    (signals : gset link) :
  SumoTLManager_get_all_associated_signals self landmark_id = Ok signals ->
  (forall l, l ∈ signals -> exists c, current_link_state self l = Ok c) ->
  (SumoTLManager_get_state self landmark_id = Ok (None, []) <-> signals = ∅) /\
  (signals <> ∅ ->
   (exists c, SumoTLManager_get_state self landmark_id = Ok (Some c, []) /\
              forall l, l ∈ signals -> current_link_state self l = Ok c) \/
   (SumoTLManager_get_state self landmark_id
    = Ok (Some SumoSignalState.RED, [different_states_warning landmark_id]) /\
    exists l1 l2 c1 c2, l1 ∈ signals /\ l2 ∈ signals /\ c1 <> c2 /\
                        current_link_state self l1 = Ok c1 /\
                        current_link_state self l2 = Ok c2)).
Proof.
  intros Hsig Hall.
  destruct (collect_states_total self (elements signals)) as [states Hst].
  { intros l Hl. apply Hall. by apply elem_of_elements. }
  assert (Helem : forall c, c ∈ states <->
                            exists l, l ∈ signals /\ current_link_state self l = Ok c).
  { intros c. rewrite (collect_states_elem _ _ _ Hst c).
    by setoid_rewrite elem_of_elements. }
  destruct (get_state_of_states _ _ _ _ Hsig Hst) as (Hone & Hmany & Hnone).
  assert (Hempty : signals = ∅ -> states = ∅).
  { intros ->. apply set_eq. intros c. rewrite Helem. split.
    - intros (l & Hl & _). by apply elem_of_empty in Hl.
    - intros Hc. by apply elem_of_empty in Hc. }
  assert (Hcases : signals <> ∅ ->
            (exists c, states = {[c]}) \/
            (exists c1 c2, c1 ∈ states /\ c2 ∈ states /\ c1 <> c2)).
  { intros Hne.
    destruct (set_choose_L signals Hne) as [l Hl].
    destruct (Hall l Hl) as [c Hc].
    assert (Hin : c ∈ states) by (apply Helem; eauto).
    destruct (decide (size states = 1%nat)) as [H1|H1].
    - left. apply size_1_elem_of in H1 as [x Hx]. exists x. by apply leibniz_equiv.
    - right. destruct (decide (states ∖ {[c]} = ∅)) as [Hd|Hd].
      + exfalso. apply H1.
        assert (states = {[c]}) as ->; [|by rewrite size_singleton].
        apply set_eq. intros x. rewrite elem_of_singleton. split; [|by intros ->].
        intros Hx. destruct (decide (x = c)) as [|Hxc]; [done|].
        assert (x ∈ states ∖ {[c]}) as Hxd
          by (apply elem_of_difference; by rewrite elem_of_singleton).
        rewrite Hd in Hxd. by apply elem_of_empty in Hxd.
      + destruct (set_choose_L _ Hd) as [x Hx].
        apply elem_of_difference in Hx as [Hx Hxc]. rewrite elem_of_singleton in Hxc.
        by exists x, c. }
  split.
  - split; [|by intros Hs; apply Hnone, Hempty].
    intros Hret. destruct (decide (signals = ∅)) as [|Hne]; [done|]. exfalso.
    destruct (Hcases Hne) as [[c Hc]|Hm].
    + rewrite (Hone c Hc) in Hret. discriminate.
    + rewrite (Hmany Hm) in Hret. discriminate.
  - intros Hne. destruct (Hcases Hne) as [[c Hc]|(c1 & c2 & H1 & H2 & Hd)].
    + left. exists c. split; [by apply Hone|].
      intros l Hl. destruct (Hall l Hl) as [c' Hc'].
      assert (c' ∈ states) as Hin by (apply Helem; eauto).
      rewrite Hc in Hin. apply elem_of_singleton in Hin. by subst c'.
    + right. split; [apply Hmany; by exists c1, c2|].
      apply Helem in H1 as (l1 & Hl1 & Hc1). apply Helem in H2 as (l2 & Hl2 & Hc2).
      by exists l1, l2, c1, c2.
Qed.

Lemma get_state_result_witness :
  SumoTLManager_get_state Scenario.manager_918 "none" = Ok (None, []) <->
  (∅ : gset link) = ∅.
Proof.
  refine (proj1 (get_state_result Scenario.manager_918 "none" ∅ _ _)).
  - vm_compute. reflexivity.
  - intros l Hl. by apply elem_of_empty in Hl.
Defined.

(** ** Reading back a number that was written *)

Lemma digit_value_pretty_N_char (n : N) :
  (n < 10)%N -> digit_value (pretty_N_char n) = Some (Z.of_N n).
Proof.
  intros Hn. destruct n as [|p]; [reflexivity|].
  do 4 (try destruct p as [p|p|]); try reflexivity; lia.
Qed.

Lemma parse_digits_pretty_N_go (x : N) :
  (0 < x)%N ->
  forall s b, parse_digits 0 b (pretty_N_go x s) = parse_digits (Z.of_N x) true s.
Proof.
  induction (N.lt_wf_0 x) as [x _ IH]. intros Hx s b.
  rewrite pretty_N_go_step by done.
  assert (Hmod : (x `mod` 10 < 10)%N) by (apply N.mod_lt; lia).
  assert (Hx10 : Z.of_N x = 10 * Z.of_N (x `div` 10) + Z.of_N (x `mod` 10))
    by (pose proof (N.div_mod x 10); lia).
  destruct (decide (x `div` 10 = 0)%N) as [Hd|Hd].
  - rewrite Hd, pretty_N_go_0. simpl.
    rewrite (digit_value_pretty_N_char _ Hmod), Hx10, Hd. done.
  - rewrite IH; [|apply N.div_lt; lia | lia]. simpl.
    by rewrite (digit_value_pretty_N_char _ Hmod), Hx10.
Qed.

Lemma number_char_plain (c : ascii) :
  is_number_char c = true ->
  is_space c = false /\ Ascii.eqb c ":" = false.
Proof.
  destruct c as [[] [] [] [] [] [] [] []]; vm_compute; intros H;
    try discriminate H; by split.
Qed.

Lemma str_all_impl (P Q : ascii -> bool) (s : string) :
  (forall c, P c = true -> Q c = true) -> str_all P s = true -> str_all Q s = true.
Proof.
  intros HPQ. induction s as [|c s IH]; simpl; [done|].
  intros [Hc Hs]%andb_prop. rewrite (HPQ c Hc). by apply IH.
Qed.

Lemma str_all_pretty_N_go (x : N) (s : string) :
  str_all is_number_char s = true -> str_all is_number_char (pretty_N_go x s) = true.
Proof.
  revert s. induction (N.lt_wf_0 x) as [x _ IH]. intros s Hs.
  destruct (decide (0 < x)%N) as [Hx|Hx].
  - rewrite pretty_N_go_step by done. apply IH; [apply N.div_lt; lia|].
    simpl. rewrite Hs, andb_true_r. unfold is_number_char.
    rewrite (digit_value_pretty_N_char (x `mod` 10)); [done|]. apply N.mod_lt. lia.
  - assert (x = 0%N) as -> by lia. by rewrite pretty_N_go_0.
Qed.

Lemma str_all_pretty (z : Z) : str_all is_number_char (pretty z) = true.
Proof.
  destruct z as [|p|p]; [done|..]; unfold pretty, pretty_Z, pretty, pretty_positive,
    pretty, pretty_N; rewrite decide_False by lia; simpl;
    by apply str_all_pretty_N_go.
Qed.

Lemma pretty_N_go_head (x : N) (s : string) :
  (0 < x)%N ->
  exists c rest d, pretty_N_go x s = String c rest /\ digit_value c = Some d.
Proof.
  revert s. induction (N.lt_wf_0 x) as [x _ IH]. intros s Hx.
  rewrite pretty_N_go_step by done.
  destruct (decide (0 < x `div` 10)%N) as [Hd|Hd].
  - apply IH; [apply N.div_lt; lia | done].
  - assert (x `div` 10 = 0)%N as -> by (by apply N.le_0_r, N.nlt_ge). rewrite pretty_N_go_0.
    eexists _, _, _. split; [done|]. apply digit_value_pretty_N_char, N.mod_lt. lia.
Qed.

Lemma str_lstrip_plain (s : string) :
  str_all (fun c => negb (is_space c)) s = true -> str_lstrip s = s.
Proof. destruct s as [|c s]; simpl; [done|]. by destruct (is_space c). Qed.

Lemma str_rstrip_plain (s : string) :
  str_all (fun c => negb (is_space c)) s = true -> str_rstrip s = s.
Proof.
  induction s as [|c s IH]; simpl; [done|].
  intros [Hc Hs]%andb_prop. rewrite (IH Hs).
  destruct s; [|done]. by destruct (is_space c).
Qed.

Lemma str_split_plain (sep : ascii) (s : string) :
  str_all (fun c => negb (Ascii.eqb c sep)) s = true -> str_split sep s = [s].
Proof.
  induction s as [|c s IH]; simpl; [done|].
  intros [Hc Hs]%andb_prop. rewrite (IH Hs). by destruct (Ascii.eqb c sep).
Qed.

Lemma str_split_prefix (sep : ascii) (p t : string) :
  str_all (fun c => negb (Ascii.eqb c sep)) p = true ->
  str_split sep (p +:+ String sep t) = p :: str_split sep t.
Proof.
  induction p as [|c p IH]; simpl.
  - intros _. by rewrite Ascii.eqb_refl.
  - intros [Hc Hp]%andb_prop. rewrite (IH Hp). by destruct (Ascii.eqb c sep).
Qed.

Lemma py_int_digits (c : ascii) (rest : string) (d n : Z) :
  digit_value c = Some d ->
  str_all is_number_char (String c rest) = true ->
  parse_digits 0 false (String c rest) = Some n ->
  py_int (String c rest) = Ok n.
Proof.
  intros Hd Hall Hparse. unfold py_int.
  assert (Hplain : str_all (fun c => negb (is_space c)) (String c rest) = true).
  { apply (str_all_impl is_number_char); [|done].
    intros c' Hc'. by destruct (number_char_plain c' Hc') as [-> _]. }
  rewrite (str_lstrip_plain _ Hplain), (str_rstrip_plain _ Hplain).
  revert Hd Hparse. clear.
  destruct c as [[] [] [] [] [] [] [] []]; intros Hd; try discriminate Hd;
    intros ->; reflexivity.
Qed.

Lemma py_int_pretty (z : Z) : py_int (pretty z) = Ok z.
Proof.
  destruct z as [|p|p]; [done|..].
  - pose proof (str_all_pretty (Z.pos p)) as Hall.
    unfold pretty, pretty_Z, pretty, pretty_positive, pretty, pretty_N in *.
    rewrite decide_False in * by lia.
    destruct (pretty_N_go_head (N.pos p) "") as (c & rest & d & Heq & Hd); [lia|].
    pose proof (parse_digits_pretty_N_go (N.pos p) ltac:(lia) "" false) as Hparse.
    rewrite Heq in *. by apply (py_int_digits c rest d).
  - pose proof (str_all_pretty (Z.neg p)) as Hall.
    unfold pretty, pretty_Z, pretty, pretty_positive, pretty, pretty_N in *.
    rewrite decide_False in * by lia.
    pose proof (parse_digits_pretty_N_go (N.pos p) ltac:(lia) "" false) as Hparse.
    unfold py_int.
    assert (Hplain : str_all (fun c => negb (is_space c))
                       ("-" +:+ pretty_N_go (N.pos p) "") = true).
    { apply (str_all_impl is_number_char); [|done].
      intros c' Hc'. by destruct (number_char_plain c' Hc') as [-> _]. }
    rewrite (str_lstrip_plain _ Hplain), (str_rstrip_plain _ Hplain).
    change ("-" +:+ pretty_N_go (N.pos p) "")
      with (String "-" (pretty_N_go (N.pos p) "")).
    cbv beta iota zeta. by rewrite Hparse.
Qed.

(** X21: a number written by [str] is read back by [int], and a
    parameter key made of a prefix without a colon, a colon and the
    written link index is read back as that index. *)
Theorem written_index_read_back (z : Z) :
  py_int (pretty z) = Ok z /\
  (forall prefix,
      str_all (fun c => negb (Ascii.eqb c ":")) prefix = true ->
      link_index_of_key (prefix +:+ ":" +:+ pretty z) = Ok z) /\
  link_index_of_key ("linkSignalID:" +:+ pretty z) = Ok z.
Proof.
  assert (Hkey : forall prefix,
             str_all (fun c => negb (Ascii.eqb c ":")) prefix = true ->
             link_index_of_key (prefix +:+ ":" +:+ pretty z) = Ok z).
  { intros prefix Hp. unfold link_index_of_key.
    change (prefix +:+ ":" +:+ pretty z) with (prefix +:+ String ":" (pretty z)).
    rewrite (str_split_prefix _ _ _ Hp), str_split_plain.
    - simpl. apply py_int_pretty.
    - apply (str_all_impl is_number_char); [|apply str_all_pretty].
      intros c Hc. by destruct (number_char_plain c Hc) as [_ ->]. }
  split; [apply py_int_pretty|]. split; [exact Hkey|].
  by apply (Hkey "linkSignalID").
Qed.
(** ** The order of a landmark's links does not matter *)

Lemma insert_by_key_comm {A} (key : A -> Z) (x y : A) (l : list A) :
  (key x = key y -> x = y) ->
  insert_by_key key x (insert_by_key key y l)
  = insert_by_key key y (insert_by_key key x l).
Proof.
  intros Hinj. induction l as [|z l IH]; simpl.
  - destruct (Z.leb_spec (key x) (key y)), (Z.leb_spec (key y) (key x));
      try done; try lia.
    assert (x = y) as -> by (apply Hinj; lia). done.
  - destruct (Z.leb_spec (key y) (key z)), (Z.leb_spec (key x) (key z)); simpl;
      repeat match goal with
             | |- context [?a <=? ?b] => destruct (Z.leb_spec a b); try lia
             end; try done.
    + assert (x = y) as -> by (apply Hinj; lia). done.
    + by rewrite IH.
Qed.

Lemma py_sorted_permutation {A} (key : A -> Z) (l1 l2 : list A) :
  l1 ≡ₚ l2 ->
  (forall x y, x ∈ l1 -> y ∈ l1 -> key x = key y -> x = y) ->
  py_sorted key l1 = py_sorted key l2.
Proof.
  induction 1 as [|x l1 l2 Hp IH|x y l|l1 l2 l3 Hp12 IH12 Hp23 IH23]; intros Hinj.
  - done.
  - simpl. rewrite IH; [done|]. intros a b Ha Hb. apply Hinj; by right.
  - simpl. apply insert_by_key_comm. apply Hinj; [left | right; left].
  - rewrite IH12 by done. apply IH23.
    intros a b Ha Hb. apply Hinj; by rewrite Hp12.
Qed.

Lemma for_each_ext {A S} (body1 body2 : A -> S -> result S) xs s :
  (forall x s, x ∈ xs -> body1 x s = body2 x s) ->
  for_each body1 xs s = for_each body2 xs s.
Proof.
  revert s. induction xs as [|x xs IH]; intros s Hext; simpl; [done|].
  rewrite (Hext x s) by left.
  destruct (body2 x s) as [s'|e]; simpl; [|done].
  apply IH. intros y t Hy. apply Hext. by right.
Qed.

Lemma gather_link_states_same (program1 program2 : SumoTLLogic) (state : string)
    (world : World) (ls : list link) :
  (forall l, l ∈ ls ->
             dict_get (_link2landmark program1) l = dict_get (_link2landmark program2) l) ->
  gather_link_states program1 state world ls = gather_link_states program2 state world ls.
Proof.
  intros Hsame. unfold gather_link_states. apply for_each_ext.
  intros l [tl acc] Hl. unfold dict_getitem. by rewrite (Hsame l Hl).
Qed.

(** Two programs that list the same links under a landmark, in whatever
    order, and record the same landmark for each of these links translate
    the landmark alike. *)
Lemma translate_landmark_same_links (program1 program2 : SumoTLLogic)
    (traci_junction_state c_tlid t : string) (world : World)
    (links1 links2 : list link) :
  dict_get (_landmark2link program1) c_tlid = Some links1 ->
  dict_get (_landmark2link program2) c_tlid = Some links2 ->
  (forall l, l ∈ links1 ->
             dict_get (_link2landmark program1) l = dict_get (_link2landmark program2) l) ->
  links1 ≡ₚ links2 ->
  (forall l, l ∈ links1 -> fst l = t) ->
  py_sorted snd links1 = py_sorted snd links2 /\
  py_sorted snd (py_sorted snd links1) = py_sorted snd links1 /\
  translate_landmark program1 traci_junction_state c_tlid world
  = translate_landmark program2 traci_junction_state c_tlid world.
Proof.
  intros H1 H2 Hl2l Hperm Ht.
  assert (Hinj : forall x y : link, x ∈ links1 -> y ∈ links1 -> snd x = snd y -> x = y).
  { intros [t1 i1] [t2 i2] Hx Hy. simpl. intros ->.
    apply Ht in Hx, Hy. simpl in Hx, Hy. congruence. }
  assert (Hsorted : py_sorted snd links1 = py_sorted snd links2)
    by (by apply py_sorted_permutation).
  split; [exact Hsorted|]. split.
  - apply py_sorted_permutation; [apply py_sorted_perm|].
    intros x y Hx Hy. apply Hinj; by rewrite <- (py_sorted_perm snd links1).
  - unfold translate_landmark, dict_getitem.
    rewrite H1, H2. cbn [mbind result_bind rbind of_option]. cbv zeta.
    rewrite <- Hsorted.
    rewrite (gather_link_states_same program1 program2); [done|].
    intros l Hl. apply Hl2l. by rewrite <- (py_sorted_perm snd links1).
Qed.

(** ** Parameters in another order *)

Lemma parse_parameters_perm (parameters1 parameters2 : pydict string string)
    (parsed1 : list (Z * string)) :
  parameters1 ≡ₚ parameters2 ->
  parse_parameters parameters1 = Ok parsed1 ->
  exists parsed2, parse_parameters parameters2 = Ok parsed2 /\ parsed1 ≡ₚ parsed2.
Proof.
  intros Hperm. revert parsed1.
  induction Hperm as [|[k lm] ps1 ps2 Hp IH|[k1 lm1] [k2 lm2] ps|ps1 ps2 ps3 _ IH12 _ IH23];
    intros parsed1; simpl.
  - intros [= <-]. by exists [].
  - destruct (link_index_of_key k) as [i|e]; simpl; [|discriminate].
    destruct (parse_parameters ps1) as [q|e] eqn:Hq; simpl; [|discriminate].
    intros [= <-]. destruct (IH q eq_refl) as (q2 & -> & Hq2). simpl.
    exists ((i, lm) :: q2). split; [done|]. by constructor.
  - destruct (link_index_of_key k1) as [i1|e]; simpl;
      destruct (link_index_of_key k2) as [i2|e']; simpl; try discriminate.
    destruct (parse_parameters ps) as [q|e]; simpl; [|discriminate].
    intros [= <-]. eexists. split; [done|]. apply perm_swap.
  - intros H1. destruct (IH12 _ H1) as (q2 & H2 & P12).
    destruct (IH23 _ H2) as (q3 & H3 & P23).
    exists q3. split; [done|]. by etransitivity.
Qed.

(** With each index given once, a link's landmark is the landmark of the
    parameter with its index, wherever that parameter stands. *)
Lemma landmark_of_nodup (i : Z) (parsed : list (Z * string)) (c : string) :
  NoDup (fst <$> parsed) ->
  landmark_of i parsed = Some c <-> (i, c) ∈ parsed.
Proof.
  intros Hnd. split; [apply landmark_of_Some|].
  intros Hin. destruct (landmark_of_is_Some i parsed c Hin) as [c' Hc'].
  rewrite Hc'. f_equal. apply landmark_of_Some in Hc'.
  by apply (nodup_fst_agree parsed i).
Qed.

Lemma landmark_of_perm (i : Z) (parsed1 parsed2 : list (Z * string)) :
  NoDup (fst <$> parsed1) -> parsed1 ≡ₚ parsed2 ->
  landmark_of i parsed1 = landmark_of i parsed2.
Proof.
  intros Hnd Hperm.
  assert (Hnd2 : NoDup (fst <$> parsed2)) by (by rewrite <- Hperm).
  destruct (landmark_of i parsed1) as [c1|] eqn:H1.
  - symmetry. apply landmark_of_nodup; [done|]. rewrite <- Hperm.
    by apply landmark_of_nodup.
  - destruct (landmark_of i parsed2) as [c2|] eqn:H2; [|done].
    apply landmark_of_nodup in H2; [|done]. rewrite <- Hperm in H2.
    apply landmark_of_nodup in H2; [|done]. congruence.
Qed.

(** X22: two programs that [__init__] builds from the same parameters
    given in two orders, the keys reading as pairwise different link
    indices, know the same landmarks, sort the links of every landmark
    into the same list, sorting which changes nothing when done again, and
    translate every landmark alike in [set_states_from_sumo]. *)
Theorem translate_landmark_order_free (id : string) (phases : list string)
    (parameters1 parameters2 : pydict string string) (parsed : list (Z * string))
    (program1 program2 : SumoTLLogic)
    (traci_junction_state c_tlid : string) (world : World) :
  SumoTLLogic_init id phases parameters1 = Ok program1 ->
  SumoTLLogic_init id phases parameters2 = Ok program2 ->
  parameters1 ≡ₚ parameters2 ->
  parse_parameters parameters1 = Ok parsed ->
  NoDup (fst <$> parsed) ->
  (c_tlid ∈ get_all_landmarks program1 <-> c_tlid ∈ get_all_landmarks program2) /\
  py_sorted snd (get_associated_signals program1 c_tlid)
  = py_sorted snd (get_associated_signals program2 c_tlid) /\
  py_sorted snd (py_sorted snd (get_associated_signals program1 c_tlid))
  = py_sorted snd (get_associated_signals program1 c_tlid) /\
  translate_landmark program1 traci_junction_state c_tlid world
  = translate_landmark program2 traci_junction_state c_tlid world.
Proof.
  intros Hinit1 Hinit2 Hperm Hparse1 Hnd.
  destruct (parse_parameters_perm _ _ _ Hperm Hparse1) as (parsed2 & Hparse2 & Hpp).
  pose proof (init_by_parsed id phases parameters1) as Hp1. rewrite Hparse1 in Hp1.
  destruct Hp1 as (p1 & Hi1 & _ & _ & Hsig1 & _ & Hl2l1 & Hlm1).
  assert (p1 = program1) as -> by congruence.
  pose proof (init_by_parsed id phases parameters2) as Hp2. rewrite Hparse2 in Hp2.
  destruct Hp2 as (p2 & Hi2 & _ & _ & Hsig2 & _ & Hl2l2 & Hlm2).
  assert (p2 = program2) as -> by congruence.
  assert (Hknown : c_tlid ∈ get_all_landmarks program1
                   <-> c_tlid ∈ get_all_landmarks program2).
  { rewrite Hlm1, Hlm2. by rewrite Hpp. }
  assert (Hsigs : get_associated_signals program1 c_tlid
                  ≡ₚ get_associated_signals program2 c_tlid).
  { rewrite Hsig1, Hsig2. unfold links_of. by rewrite Hpp. }
  assert (Hfst : forall l, l ∈ get_associated_signals program1 c_tlid -> fst l = id).
  { intros l. rewrite Hsig1. intros (i & -> & _)%links_of_elem. done. }
  assert (Hsame : forall l, dict_get (_link2landmark program1) l
                            = dict_get (_link2landmark program2) l).
  { intros [t i]. rewrite Hl2l1, Hl2l2. destruct (decide (t = id)); [|done].
    by apply landmark_of_perm. }
  assert (Hinj : forall x y : link,
             x ∈ get_associated_signals program1 c_tlid ->
             y ∈ get_associated_signals program1 c_tlid -> snd x = snd y -> x = y).
  { intros [t1 i1] [t2 i2] Hx Hy. simpl. intros ->.
    apply Hfst in Hx, Hy. simpl in Hx, Hy. congruence. }
  split; [exact Hknown|]. split; [by apply py_sorted_permutation|]. split.
  { apply py_sorted_permutation; [apply py_sorted_perm|].
    intros x y Hx Hy. apply Hinj; by rewrite <- (py_sorted_perm snd _). }
  unfold get_associated_signals, get_all_landmarks in *.
  destruct (dict_get (_landmark2link program1) c_tlid) as [links1|] eqn:H1;
    destruct (dict_get (_landmark2link program2) c_tlid) as [links2|] eqn:H2.
  - by apply (translate_landmark_same_links program1 program2 traci_junction_state
                c_tlid id world links1 links2).
  - exfalso. apply dict_get_None_keys in H2. apply H2, Hknown.
    destruct (decide (c_tlid ∈ dict_keys (_landmark2link program1))) as [|Hn]; [done|].
    apply dict_get_None_keys in Hn. congruence.
  - exfalso. apply dict_get_None_keys in H1. apply H1, Hknown.
    destruct (decide (c_tlid ∈ dict_keys (_landmark2link program2))) as [|Hn]; [done|].
    apply dict_get_None_keys in Hn. congruence.
  - unfold translate_landmark, dict_getitem. by rewrite H1, H2.
Qed.

(** Junction "725" with its parameters as the engine gives them, 10, 11,
    9, and in the order of the indices. *)
Lemma translate_landmark_order_free_witness :
  ("1040" ∈ get_all_landmarks Scenario.program_725
   <-> "1040" ∈ get_all_landmarks Junctions.program_725_sorted) /\
  py_sorted snd (get_associated_signals Scenario.program_725 "1040")
  = py_sorted snd (get_associated_signals Junctions.program_725_sorted "1040") /\
  py_sorted snd (py_sorted snd (get_associated_signals Scenario.program_725 "1040"))
  = py_sorted snd (get_associated_signals Scenario.program_725 "1040") /\
  translate_landmark Scenario.program_725 "rrrrrrrrryGr" "1040" {[ "1040" := Red ]}
  = translate_landmark Junctions.program_725_sorted "rrrrrrrrryGr" "1040"
      {[ "1040" := Red ]}.
Proof.
  apply (translate_landmark_order_free "725" ["rrrrrrrrryGr"]
           Scenario.params_725 Junctions.params_725_sorted
           [(10, "1040"); (11, "1040"); (9, "1040")]).
  - reflexivity.
  - reflexivity.
  - unfold Scenario.params_725, Junctions.params_725_sorted.
    change [("linkSignalID:10", "1040"); ("linkSignalID:11", "1040");
            ("linkSignalID:9", "1040")]
      with ([("linkSignalID:10", "1040"); ("linkSignalID:11", "1040")]
              ++ [("linkSignalID:9", "1040")])%list.
    symmetry. apply Permutation_cons_append.
  - reflexivity.
  - apply (bool_decide_unpack _). vm_compute. exact I.
Defined.

Example programs_725_differ :
  _link2landmark Scenario.program_725 <> _link2landmark Junctions.program_725_sorted /\
  _landmark2link Scenario.program_725 <> _landmark2link Junctions.program_725_sorted.
Proof. split; discriminate. Qed.


(** A tick that records a program the manager does not hold. *)
Lemma current_programs_must_be_known_witness :
  SumoTLManager_get_all_signals
    (SumoTLManager_tick Scenario.manager_918 [("918", ("1", 2))])
  = Raise KeyError.
Proof.
  refine (proj1 (proj2 (current_programs_must_be_known
                          (SumoTLManager_tick Scenario.manager_918 [("918", ("1", 2))])) _)).
  exists "918", "1", KeyError. split; [left | reflexivity].
Defined.

Lemma SumoTLLogic_init_parsed_witness :
  SumoTLLogic_init "725" ["GGrr"] [("linkSignalID:0", "7"); ("linkSignalID", "7")]
  = Raise IndexError /\
  (IndexError = IndexError \/ IndexError = ValueError) /\
  exists key landmark_id,
    (key, landmark_id) ∈ [("linkSignalID:0", "7"); ("linkSignalID", "7")] /\
    link_index_of_key key = Raise IndexError.
Proof.
  apply (SumoTLLogic_init_parsed "725" ["GGrr"]
           [("linkSignalID:0", "7"); ("linkSignalID", "7")]).
  repeat constructor; simpl; lia.
Defined.

Lemma get_all_signals_range_witness :
  ("918", 11) ∈ get_all_signals Scenario.program_918.
Proof.
  apply (proj1 (get_all_signals_range Scenario.program_918) ("918", 11)).
  split; [reflexivity | split; [discriminate | reflexivity]].
Defined.

Lemma py_zip_star_transposes_witness :
  length [2; 5] = length [[1; 2; 3]; [4; 5]] /\
  forall j row, [[1; 2; 3]; [4; 5]] !! j = Some row ->
                exists x, [2; 5] !! j = Some x /\ row !! 1%nat = Some x.
Proof.
  apply (proj2 (proj2 (py_zip_star_transposes [[1; 2; 3]; [4; 5]])) 1%nat [2; 5]).
  reflexivity.
Defined.

Lemma written_index_read_back_witness :
  link_index_of_key "linkSignalID:12" = Ok 12.
Proof. exact (proj2 (proj2 (written_index_read_back 12))). Defined.
(** * The light a landmark's translation sets *)

(** ** Which light is written *)

(** In a program [__init__] builds from parameters whose keys read as
    pairwise different link indices, the links of every landmark lead back
    to it. *)
Lemma init_links_under_landmark (id : string) (phases : list string)
    (parameters : pydict string string) (parsed : list (Z * string))
    (program : SumoTLLogic) (c_tlid : string) (links : list link) :
  SumoTLLogic_init id phases parameters = Ok program ->
  parse_parameters parameters = Ok parsed ->
  NoDup (fst <$> parsed) ->
  dict_get (_landmark2link program) c_tlid = Some links ->
  links_under_landmark program c_tlid links.
Proof.
  intros Hinit Hparse Hnd Hlinks l Hl.
  pose proof (init_by_parsed id phases parameters) as Hp. rewrite Hparse in Hp.
  destruct Hp as (program' & Hinit' & _ & _ & Hsig & _ & Hl2l & _).
  assert (program' = program) as -> by congruence.
  assert (Hin : l ∈ links_of id c_tlid parsed).
  { rewrite <- Hsig. unfold get_associated_signals. by rewrite Hlinks. }
  apply links_of_elem in Hin as (i & -> & Hi).
  rewrite Hl2l, decide_True by done.
  destruct (landmark_of_is_Some i parsed c_tlid Hi) as [lm Hlm].
  rewrite Hlm. f_equal.
  apply landmark_of_Some in Hlm. by apply (nodup_fst_agree parsed i).
Qed.

Example program_918_links_under_landmark :
  links_under_landmark Scenario.program_918 "1032" [("918", 0); ("918", 1)].
Proof.
  apply (init_links_under_landmark "918" ["GGgrrrGGgrrr"] Scenario.params_918
           [(0, "1032"); (1, "1032")]); try reflexivity.
  apply (bool_decide_unpack _). vm_compute. exact I.
Qed.

(** ** The visits of a call *)




(** ** Two directions *)




(** Without a red direction the first one decides, through the whole
    call: landmark "1034" on the links 2 and 3. *)
Example two_directions_first_decides :
  SumoTLManager_set_states_from_sumo Junctions.manager_two_programs
    (fun t => Ok "rGyG") {[ "1032" := Green; "1034" := Green ]}
  = ({[ "1032" := Red; "1034" := Yellow ]}, None) /\
  SumoTLManager_set_states_from_sumo Junctions.manager_two_programs
    (fun t => Ok "rGGy") {[ "1032" := Green; "1034" := Red ]}
  = ({[ "1032" := Red; "1034" := Green ]}, None) /\
  SumoTLManager_set_states_from_sumo Junctions.manager_two_programs
    (fun t => Ok "Gryr") {[ "1032" := Green; "1034" := Green ]}
  = ({[ "1032" := Red; "1034" := Red ]}, None).
Proof. repeat split; vm_compute; reflexivity. Qed.

(** ** Three directions *)



(** The links of landmark "1040" arrive as 10, 11, 9: in that order the
    middle one is 11, whose state is 'r'; sorted by index the middle one
    is 10, whose state is 'G', and that is the state the light gets. *)
Example three_directions_sorted_first :
  py_sorted snd [("725", 10); ("725", 11); ("725", 9)]
  = [("725", 9); ("725", 10); ("725", 11)] /\
  str_getitem "rrrrrrrrryGr" 11 = Ok "r" /\
  str_getitem "rrrrrrrrryGr" 10 = Ok "G" /\
  SumoTLManager_set_states_from_sumo Junctions.manager_725
    (fun t => Ok "rrrrrrrrryGr") {[ "1040" := Red ]}
  = ({[ "1040" := Green ]}, None).
Proof. repeat split; vm_compute; reflexivity. Qed.


